(** * Economic map: geographic data join and choropleth colouring

    A shallow embedding of the data pipeline of
    [projects/map_viz/src/js/EconomicMap.js] (the script behind the map
    explorer) and of the class based variant [EconomicMap] that ships a
    reduced copy of the same logic.

    Conventions of the embedding.
    - JavaScript strings are [string]s whose characters stand for code units
      below 256.
    - JavaScript numbers are idealised: a finite number is an exact rational
      ([Q]); [NaN] and the two infinities are separate constructors where a
      function can meet them.  Rounding of IEEE doubles is not modelled, so
      a number the model computes can differ from the double of the code in
      the last place, and a rounding to an integer or to one decimal place
      can fall to the other side of a tie.  The theorems are stated so that
      they hold for both: where one compares a computed number with the
      exact value it is rounded from, the bound leaves room for the rounding
      of the doubles ([channel_slack], [rate_slack]).
    - Objects used as dictionaries are [gmap string _]; a property that is
      absent reads as [undefined].  Properties inherited from the prototype
      of an object are not modelled.  The functions that transform one
      record or one table take objects; the loading sequence, which meets
      whatever the documents hold, also knows [null] and scalars in the
      place of a region record or an overlay row, see [Loading].
    - Promises are completions of a state and error monad over the globals
      the loaders write.  Calls into the page and into the map SDK are not
      modelled and are taken to return normally; the feature states of the
      map are the exception, see [FeatureStates].
    - Part I holds the model, Part II the properties proved about it. *)

From Stdlib Require Import ZArith QArith Qround Qabs Lia Lqa Ascii String Sorted.
From stdpp Require Import gmap strings list.

Open Scope Z_scope.

(** * Part I: the model *)

(** ** Strings and integer/string conversions of the language *)

Module JSString.

(** [s.slice(1)] *)
Definition slice1 (s : string) : string :=
  match s with
  | EmptyString => EmptyString
  | String _ rest => rest
  end.

Fixpoint repeat_char (c : ascii) (n : nat) : string :=
  match n with
  | O => EmptyString
  | S k => String c (repeat_char c k)
  end.

(** [s.padStart(width, c)] for a one character filler [c]. *)
Definition padStart (width : nat) (c : ascii) (s : string) : string :=
  repeat_char c (width - String.length s) +:+ s.

Definition code (c : ascii) : Z := Z.of_N (N_of_ascii c).

(** White space skipped by [parseInt] (code units below 256). *)
Definition is_white_space (c : ascii) : bool :=
  let n := code c in
  ((9 <=? n) && (n <=? 13)) || (n =? 32) || (n =? 160).

Fixpoint trim_start (s : string) : string :=
  match s with
  | String c rest => if is_white_space c then trim_start rest else s
  | EmptyString => EmptyString
  end.

(** Value of a character as a digit in a radix up to 36. *)
Definition digit_value (c : ascii) : option Z :=
  let n := code c in
  if (48 <=? n) && (n <=? 57) then Some (n - 48)
  else if (97 <=? n) && (n <=? 122) then Some (n - 87)
  else if (65 <=? n) && (n <=? 90) then Some (n - 55)
  else None.

Definition radix_digit (R : Z) (c : ascii) : option Z :=
  match digit_value c with
  | Some d => if d <? R then Some d else None
  | None => None
  end.

(** Longest prefix of radix-[R] digits; [acc = None] while no digit has
    been read. *)
Fixpoint parse_digits (R : Z) (s : string) (acc : option Z) : option Z :=
  match s with
  | EmptyString => acc
  | String c rest =>
      match radix_digit R c with
      | Some d =>
          parse_digits R rest
            (Some (match acc with Some a => a * R + d | None => d end))
      | None => acc
      end
  end.

Definition strip_sign (s : string) : bool * string :=
  match s with
  | String "-" rest => (true, rest)
  | String "+" rest => (false, rest)
  | _ => (false, s)
  end.

Definition strip_hex_prefix (s : string) : string :=
  match s with
  | String "0" (String "x" rest) => rest
  | String "0" (String "X" rest) => rest
  | _ => s
  end.

(** [parseInt(s, R)]; [None] is [NaN]. *)
Definition parseInt (s : string) (R : Z) : option Z :=
  let '(negative, body) := strip_sign (trim_start s) in
  let body := if R =? 16 then strip_hex_prefix body else body in
  match parse_digits R body None with
  | Some n => Some (if negative then - n else n)
  | None => None
  end.

(** Character of a digit below 36 (lower case letters, as [toString]). *)
Definition digit_char (d : Z) : ascii :=
  ascii_of_N (Z.to_N (if d <? 10 then 48 + d else 87 + d)).

(** Digits of a non negative integer, most significant first.  The fuel
    bounds the number of digits. *)
Fixpoint radix_digits (R : Z) (fuel : nat) (n : Z) : string :=
  match fuel with
  | O => EmptyString
  | S f =>
      if n <? R then String (digit_char n) EmptyString
      else radix_digits R f (n / R) +:+ String (digit_char (n mod R)) EmptyString
  end.

(** [n.toString(R)] for an integer [n]. *)
Definition toString_radix (R : Z) (n : Z) : string :=
  let fuel := S (Z.to_nat (Z.log2 (Z.abs n))) in
  if n <? 0 then String "-" (radix_digits R fuel (- n))
  else radix_digits R fuel n.

End JSString.

(** ** 32-bit integer operators *)

Module Int32.

(** [ToInt32]: wrap into [-2^31, 2^31). *)
Definition wrap (n : Z) : Z := (n + 2 ^ 31) mod 2 ^ 32 - 2 ^ 31.

(** [ToInt32] of the result of [parseInt]: [NaN] becomes [0]. *)
Definition of_number (n : option Z) : Z :=
  match n with
  | Some z => wrap z
  | None => 0
  end.

(** [a >> k] on an operand already converted, [0 <= k < 32]. *)
Definition shr (a k : Z) : Z := Z.shiftr a k.

(** [a & b] on operands already converted. *)
Definition and (a b : Z) : Z := wrap (Z.land a b).

(** [a << k], [0 <= k < 32]. *)
Definition shl (a k : Z) : Z := wrap (Z.shiftl (wrap a) k).

End Int32.

(** ** Choropleth colour mapper *)

Module Color.
Import JSString.

Record ColorSettings := {
  dimmed : string;
  choroLow : string;
  choroHigh : string
}.

(** The defaults of [colorSettings]. *)
Definition defaultSettings : ColorSettings :=
  {| dimmed := "#CCCCCC"; choroLow := "#eff3ff"; choroHigh := "#08519c" |}.

(** [Math.round]: nearest integer, halves towards plus infinity. *)
Definition Math_round (x : Q) : Z := Qfloor (x + (1 # 2)).

Definition red (c : Z) : Z := Int32.and (Int32.shr c 16) 255.
Definition green (c : Z) : Z := Int32.and (Int32.shr c 8) 255.
Definition blue (c : Z) : Z := Int32.and c 255.

Definition mix (a b : Z) (factor : Q) : Z :=
  Math_round (inject_Z a + factor * inject_Z (b - a))%Q.

Definition interpolateColor (color1 color2 : string) (factor : Q) : string :=
  let c1 := Int32.of_number (parseInt (slice1 color1) 16) in
  let c2 := Int32.of_number (parseInt (slice1 color2) 16) in
  let r1 := red c1 in
  let g1 := green c1 in
  let b1 := blue c1 in
  let r2 := red c2 in
  let g2 := green c2 in
  let b2 := blue c2 in
  let r := mix r1 r2 factor in
  let g := mix g1 g2 factor in
  let b := mix b1 b2 factor in
  String "#"
    (slice1 (toString_radix 16
               (Int32.shl 1 24 + Int32.shl r 16 + Int32.shl g 8 + b))).

(** [[...allValues].sort((a, b) => a - b)]: a stable ascending sort. *)
Fixpoint insert_sorted (x : Q) (l : list Q) : list Q :=
  match l with
  | [] => [x]
  | y :: rest =>
      if Qle_bool x y then x :: l else y :: insert_sorted x rest
  end.

Definition sort_ascending (l : list Q) : list Q := foldr insert_sorted [] l.

(** The two ends of the sorted copy; the default of [nth] stands for the
    [undefined] of an out of range read, which the length guard of the
    callers excludes. *)
Definition minOf (allValues : list Q) : Q :=
  nth 0 (sort_ascending allValues) 0%Q.

Definition maxOf (allValues : list Q) : Q :=
  let sortedValues := sort_ascending allValues in
  nth (length sortedValues - 1) sortedValues 0%Q.

(** [getColorForValue(value, metric, allValues)]; a [null] or [undefined]
    value is [None].  The metric name is not used by the body. *)
Definition getColorForValue (cs : ColorSettings) (value : option Q)
    (allValues : list Q) : string :=
  match value with
  | None => dimmed cs
  | Some v =>
      if (length allValues =? 0)%nat then dimmed cs
      else
        let min := minOf allValues in
        let max := maxOf allValues in
        if Qeq_bool max min then
          interpolateColor (choroLow cs) (choroHigh cs) (1 # 2)
        else
          let normalized := ((v - min) / (max - min))%Q in
          interpolateColor (choroLow cs) (choroHigh cs) normalized
  end.

(** Normalization bounds read off the values, [None] when there is no
    value at all. *)
Definition bounds (allValues : list Q) : option (Q * Q) :=
  if (length allValues =? 0)%nat then None
  else Some (minOf allValues, maxOf allValues).

(** [Object.values(dataset).map(d => d[metric]).filter(v => v !== null &&
    v !== undefined)].  A region record seen by the colour mapper maps a
    metric name to a number; a metric that is [null] or missing has no
    entry. *)
Definition allValuesOf (dataset : gmap string (gmap string Q))
    (metric : string) : list Q :=
  omap (λ d : gmap string Q, d !! metric) (map_to_list dataset).*2.

(** The colour assignment of [applyChoropleth] for a census metric at the
    state, county or metro level: [None] when the metric has no value at
    that level (a notice is shown and nothing is painted). *)
Definition applyChoropleth (cs : ColorSettings)
    (dataset : gmap string (gmap string Q)) (metric : string)
    : option (gmap string string) :=
  let allValues := allValuesOf dataset metric in
  if (length allValues =? 0)%nat then None
  else
    Some ((λ d : gmap string Q,
             getColorForValue cs (d !! metric) allValues) <$> dataset).

(** A colour in the form the pickers store it: [#] and six hex digits. *)
Definition is_hex_digit (c : ascii) : bool :=
  match radix_digit 16 c with Some _ => true | None => false end.

Definition is_lower_hex_digit (c : ascii) : bool :=
  let n := code c in
  ((48 <=? n) && (n <=? 57)) || ((97 <=? n) && (n <=? 102)).

Fixpoint all_chars (p : ascii -> bool) (s : string) : bool :=
  match s with
  | EmptyString => true
  | String c rest => p c && all_chars p rest
  end.

Definition is_hex_color (s : string) : bool :=
  match s with
  | String "#" rest => (String.length rest =? 6)%nat && all_chars is_hex_digit rest
  | _ => false
  end.

Definition is_lower_hex_color (s : string) : bool :=
  match s with
  | String "#" rest =>
      (String.length rest =? 6)%nat && all_chars is_lower_hex_digit rest
  | _ => false
  end.

(** Lower case form of a colour string. *)
Definition lower_char (c : ascii) : ascii :=
  let n := code c in
  if (65 <=? n) && (n <=? 90) then ascii_of_N (Z.to_N (n + 32)) else c.

Fixpoint lower_string (s : string) : string :=
  match s with
  | EmptyString => EmptyString
  | String c rest => String (lower_char c) (lower_string rest)
  end.

(** The red, green and blue channels a colour string denotes. *)
Definition redOf (s : string) : Z :=
  red (Int32.of_number (parseInt (slice1 s) 16)).
Definition greenOf (s : string) : Z :=
  green (Int32.of_number (parseInt (slice1 s) 16)).
Definition blueOf (s : string) : Z :=
  blue (Int32.of_number (parseInt (slice1 s) 16)).

(** Two hex digits of a channel value, and the string of three channels. *)
Definition hex2 (v : Z) : string :=
  String (digit_char (v / 16)) (String (digit_char (v mod 16)) EmptyString).

Definition rgb_string (r g b : Z) : string :=
  String "#" (hex2 r +:+ hex2 g +:+ hex2 b).

(** Channel by channel interpolation at position [t], written with six
    hex digits. *)
Definition interpolated (lowColor highColor : string) (t : Q) : string :=
  rgb_string (mix (redOf lowColor) (redOf highColor) t)
             (mix (greenOf lowColor) (greenOf highColor) t)
             (mix (blueOf lowColor) (blueOf highColor) t).


End Color.

(** ** Values of the language *)

Module JS.
Import JSString.

Inductive number :=
| NaN
| PosInf
| NegInf
| Fin (q : Q).

(** A value held by a property: the JSON scalars, plus a reference to a
    nested object or array (such as the [years] sub-mapping of a region
    record), whose inside the modelled code never reads. *)
Inductive value :=
| Undefined
| Null
| Bool (b : bool)
| Num (n : number)
| Str (s : string)
| Ref (r : nat).

(** Conversions of the language that the model leaves uninterpreted. *)
Class Coercions := {
  (** [String(x)] for a finite number that is not an integer of magnitude
      at most [2^53] *)
  OtherNumberToString : Q -> string;
  (** [Number(s)] for a string *)
  StringToNumber : string -> number;
  (** [String(o)] for a nested object or array *)
  RefToString : nat -> string
}.

Definition number_truthy (n : number) : bool :=
  match n with
  | NaN => false
  | Fin q => negb (Qeq_bool q 0)
  | PosInf | NegInf => true
  end.

Definition truthy (v : value) : bool :=
  match v with
  | Undefined | Null => false
  | Bool b => b
  | Num n => number_truthy n
  | Str s => negb (String.eqb s EmptyString)
  | Ref _ => true
  end.

(** [a || b] *)
Definition js_or (a b : value) : value := if truthy a then a else b.

Definition number_eq (a b : number) : bool :=
  match a, b with
  | Fin x, Fin y => Qeq_bool x y
  | PosInf, PosInf | NegInf, NegInf => true
  | _, _ => false
  end.

Definition number_lt (a b : number) : bool :=
  match a, b with
  | NaN, _ | _, NaN => false
  | Fin x, Fin y => negb (Qle_bool y x)
  | NegInf, NegInf => false
  | NegInf, _ => true
  | _, PosInf => match a with PosInf => false | _ => true end
  | _, _ => false
  end.

(** [a === b] *)
Definition strict_eq (a b : value) : bool :=
  match a, b with
  | Undefined, Undefined | Null, Null => true
  | Bool x, Bool y => Bool.eqb x y
  | Num x, Num y => number_eq x y
  | Str x, Str y => String.eqb x y
  | Ref x, Ref y => Nat.eqb x y
  | _, _ => false
  end.

(** [a != null] *)
Definition not_nullish (a : value) : bool :=
  match a with
  | Undefined | Null => false
  | _ => true
  end.

Definition is_integer (q : Q) : bool := (Zpos (Qden (Qred q)) =? 1).

(** The sign used when a number is divided by zero; zero is unsigned. *)
Definition negative (q : Q) : bool := negb (Qle_bool 0 q).

Definition number_neg (n : number) : number :=
  match n with
  | NaN => NaN
  | PosInf => NegInf
  | NegInf => PosInf
  | Fin q => Fin (- q)
  end.

(** [a / b] *)
Definition number_div (a b : number) : number :=
  match a, b with
  | NaN, _ | _, NaN => NaN
  | Fin x, Fin y =>
      if Qeq_bool y 0 then
        if Qeq_bool x 0 then NaN
        else if negative x then NegInf else PosInf
      else Fin (x / y)
  | Fin _, _ => Fin 0
  | _, Fin y => if negative y then number_neg a else a
  | _, _ => NaN
  end.

(** [a * b] *)
Definition number_mul (a b : number) : number :=
  match a, b with
  | NaN, _ | _, NaN => NaN
  | Fin x, Fin y => Fin (x * y)
  | Fin x, inf | inf, Fin x =>
      if Qeq_bool x 0 then NaN
      else if negative x then number_neg inf else inf
  | PosInf, PosInf | NegInf, NegInf => PosInf
  | _, _ => NegInf
  end.

(** Nearest multiple of one tenth, ties away from zero: the number that
    [x.toFixed(1)] prints. *)
Definition round_tenth (q : Q) : Q :=
  if negative q then (- (inject_Z (Qfloor (- q * 10 + (1 # 2))) / 10))%Q
  else (inject_Z (Qfloor (q * 10 + (1 # 2))) / 10)%Q.

(** [parseFloat(x.toFixed(1))]; from [10^21] on, [toFixed] prints the
    number as [String] does and no rounding takes place. *)
Definition parseFloat_toFixed1 (n : number) : number :=
  match n with
  | Fin q =>
      if Qle_bool (inject_Z (10 ^ 21)) (Qabs q) then Fin q
      else Fin (round_tenth q)
  | _ => n
  end.

Section WithCoercions.
Context `{Coercions}.

(** [Number::toString] *)
Definition NumberToString (n : number) : string :=
  match n with
  | NaN => "NaN"
  | PosInf => "Infinity"
  | NegInf => "-Infinity"
  | Fin q =>
      if is_integer q && Qle_bool (Qabs q) (inject_Z (2 ^ 53))
      then toString_radix 10 (Qfloor q)
      else OtherNumberToString q
  end.

(** [String(v)], also the property key [v] selects in [o[v]]. *)
Definition ToString (v : value) : string :=
  match v with
  | Undefined => "undefined"
  | Null => "null"
  | Bool true => "true"
  | Bool false => "false"
  | Num n => NumberToString n
  | Str s => s
  | Ref r => RefToString r
  end.

Definition ToPrimitive (v : value) : value :=
  match v with
  | Ref r => Str (RefToString r)
  | _ => v
  end.

(** [Number(v)] *)
Definition ToNumber (v : value) : number :=
  match v with
  | Undefined => NaN
  | Null => Fin 0
  | Bool true => Fin 1
  | Bool false => Fin 0
  | Num n => n
  | Str s => StringToNumber s
  | Ref r => StringToNumber (RefToString r)
  end.

(** [a > b]: strings compare by code units, anything else as numbers. *)
Definition gt (a b : value) : bool :=
  match ToPrimitive a, ToPrimitive b with
  | Str x, Str y => String.ltb y x
  | x, y => number_lt (ToNumber y) (ToNumber x)
  end.

End WithCoercions.

(** An object used as a record or dictionary. *)
Abbreviation obj := (gmap string value).

(** [o.k]: a missing property reads as [undefined]. *)
Definition get (o : obj) (k : string) : value := default Undefined (o !! k).

End JS.

(** ** Geo-key normalisation *)

Module GeoKey.
Import JSString JS.

Inductive Level := states | counties | cbsas | zips.

Section WithCoercions.
Context `{Coercions}.

(** [String(id).padStart(width, '0')] *)
Definition padKey (width : nat) (id : value) : string :=
  padStart width "0" (ToString id).

(** The key under which the tooltip and the ZIP loader look a region
    up: states are padded to 2, counties and ZIP codes to 5, metro
    areas use the GEOID as it is. *)
Definition regionKey (level : Level) (id : value) : string :=
  match level with
  | states => padKey 2 id
  | counties => padKey 5 id
  | cbsas => ToString id
  | zips => padKey 5 id
  end.

End WithCoercions.

Definition keyWidth (level : Level) : option nat :=
  match level with
  | states => Some 2%nat
  | counties => Some 5%nat
  | cbsas => None
  | zips => Some 5%nat
  end.

(** The canonical key of the specification: the decimal code written
    with exactly [width] digits. *)
Fixpoint fixed_decimal (width : nat) (n : Z) : string :=
  match width with
  | O => EmptyString
  | S w => fixed_decimal w (n / 10) +:+ String (digit_char (n mod 10)) EmptyString
  end.

End GeoKey.

(** ** Dataset merger *)

Module Merger.
Import JSString JS.

Record EconomicData := {
  ed_states : gmap string obj;
  ed_counties : gmap string obj;
  ed_cbsas : gmap string obj
}.

Record RedfinTables := {
  redfinData : gmap string obj;
  redfinStateData : gmap string obj;
  redfinCountyData : gmap string obj;
  redfinCbsaData : gmap string obj
}.

Definition noRedfin : RedfinTables :=
  {| redfinData := ∅; redfinStateData := ∅;
     redfinCountyData := ∅; redfinCbsaData := ∅ |}.

Section WithCoercions.
Context `{Coercions}.

(** [parseFloat(((item[num] / item[den]) * 100).toFixed(1))] *)
Definition rate (item : obj) (num den : string) : number :=
  parseFloat_toFixed1
    (number_mul
       (number_div (ToNumber (get item num)) (ToNumber (get item den)))
       (Fin (inject_Z 100))).

(** One of the two guarded assignments of [loadEconomicData]. *)
Definition deriveRate (field num den : string) (item : obj) : obj :=
  if strict_eq (get item field) Undefined
     && truthy (get item num) && truthy (get item den)
  then <[field := Num (rate item num den)]> item
  else item.

(** Body of the loop over the records of one dataset. *)
Definition deriveRates (item : obj) : obj :=
  deriveRate "homeownershipRate" "ownerOccupied" "occupiedUnits"
    (deriveRate "vacancyRate" "vacantUnits" "totalHousingUnits" item).

Definition deriveAll (ed : EconomicData) : EconomicData :=
  {| ed_states := deriveRates <$> ed_states ed;
     ed_counties := deriveRates <$> ed_counties ed;
     ed_cbsas := deriveRates <$> ed_cbsas ed |}.

(** The first pass of an aggregated overlay loader keeps the greatest
    truthy [PERIOD_END] seen so far; it starts from [null]. *)
Definition latestStep (latestPeriod : value) (row : obj) : value :=
  let p := get row "PERIOD_END" in
  if truthy p && (negb (truthy latestPeriod) || gt p latestPeriod)
  then p else latestPeriod.

Definition latestPeriod (rows : list obj) : value :=
  foldl latestStep Null rows.

(** The test of the second pass. *)
Definition selected (keyField : string) (latest : value) (row : obj) : bool :=
  strict_eq (get row "PERIOD_END") latest
  && strict_eq (get row "PROPERTY_TYPE") (Str "All Residential")
  && truthy (get row keyField).

(** The second pass: [table[row[keyField]] = row] for the selected rows,
    in document order. *)
Definition storeStep (keyField : string) (latest : value)
    (table : gmap string obj) (row : obj) : gmap string obj :=
  if selected keyField latest row
  then <[ToString (get row keyField) := row]> table
  else table.

Definition loadLatest (keyField : string) (rows : list obj)
    (table : gmap string obj) : gmap string obj :=
  foldl (storeStep keyField (latestPeriod rows)) table rows.

Definition loadStateRows := loadLatest "STATE_CODE".
Definition loadCountyRows := loadLatest "COUNTY_FIPS".
Definition loadCbsaRows := loadLatest "TABLE_ID".

(** The ZIP overlay: every row that has a ZIP, no period or category
    test. *)
Definition loadZipRows (rows : list obj) (table : gmap string obj)
    : gmap string obj :=
  foldl (λ t row,
           if not_nullish (get row "ZIP")
           then <[padStart 5 "0" (ToString (get row "ZIP")) := row]> t
           else t)
        table rows.

(** The cross-reference of a region record into its overlay table. *)
Definition stateCode (item : obj) : value :=
  js_or (get item "stateCode") (get item "STATE_CODE").

Definition countyFips (item : obj) : value :=
  js_or (js_or (js_or (get item "fips") (get item "FIPS")) (get item "geoid"))
        (get item "GEOID").

Definition cbsaCode (item : obj) : value :=
  js_or (js_or (js_or (get item "cbsaCode") (get item "CBSA_CODE"))
               (get item "geoid"))
        (get item "GEOID").

(** Body of a merge loop: every property of the matching overlay row is
    copied onto the record. *)
Definition mergeRecord (codeOf : obj -> value) (table : gmap string obj)
    (item : obj) : obj :=
  let code := codeOf item in
  if truthy code then
    match table !! ToString code with
    | Some redfinRow => redfinRow ∪ item
    | None => item
    end
  else item.

Definition mergeLevel (codeOf : obj -> value) (table : gmap string obj)
    (dataset : gmap string obj) : gmap string obj :=
  if (0 <? size table)%nat then mergeRecord codeOf table <$> dataset
  else dataset.

Definition mergeRedfinIntoEconomicData (rf : RedfinTables)
    (ed : EconomicData) : EconomicData :=
  {| ed_states := mergeLevel stateCode (redfinStateData rf) (ed_states ed);
     ed_counties := mergeLevel countyFips (redfinCountyData rf) (ed_counties ed);
     ed_cbsas := mergeLevel cbsaCode (redfinCbsaData rf) (ed_cbsas ed) |}.

(** *** Vocabulary of the statements about the merger *)

(** The row kept under key [k] is selected and has that key. *)
Definition retained (keyField : string) (latest : value) (k : string)
    (row : obj) : Prop :=
  selected keyField latest row = true /\ ToString (get row keyField) = k.

#[export] Instance retained_dec keyField latest k row :
  Decision (retained keyField latest k row).
Proof. unfold retained. apply _. Defined.

(** Every cross-reference field an overlay row carries holds the key the
    row is stored under. *)
Definition row_self_keyed (fields : list string) (k : string) (row : obj)
    : bool :=
  forallb (λ f, match row !! f with
                | Some v => truthy v && String.eqb (ToString v) k
                | None => true
                end) fields.

Definition self_keyed (fields : list string) (table : gmap string obj)
    : bool :=
  forallb (λ kr : string * obj, row_self_keyed fields kr.1 kr.2)
          (map_to_list table).

(** No record of the dataset refers to the overlay key [k]. *)
Definition unjoinable (codeOf : obj -> value) (dataset : gmap string obj)
    (k : string) : bool :=
  forallb (λ kr : string * obj,
             negb (truthy (codeOf kr.2)
                   && String.eqb (ToString (codeOf kr.2)) k))
          (map_to_list dataset).

End WithCoercions.

(** The fields a record's cross-reference is read from, in order. *)
Definition stateXrefs : list string := ["stateCode"; "STATE_CODE"]%string.
Definition countyXrefs : list string :=
  ["fips"; "FIPS"; "geoid"; "GEOID"]%string.
Definition cbsaXrefs : list string :=
  ["cbsaCode"; "CBSA_CODE"; "geoid"; "GEOID"]%string.

(** The first truthy value among the given fields. *)
Fixpoint first_truthy (item : obj) (fields : list string) : option value :=
  match fields with
  | [] => None
  | f :: rest =>
      if truthy (get item f) then Some (get item f)
      else first_truthy item rest
  end.

(** A chain [a || b || ...] over [fields]. *)
Definition picks_first (codeOf : obj -> value) (fields : list string) : Prop :=
  forall item,
    match first_truthy item fields with
    | Some c => codeOf item = c
    | None => truthy (codeOf item) = false
    end.

(** The tables with one key removed from each aggregated overlay. *)
Definition withoutRows (ks kc kb : string) (rf : RedfinTables) : RedfinTables :=
  {| redfinData := redfinData rf;
     redfinStateData := delete ks (redfinStateData rf);
     redfinCountyData := delete kc (redfinCountyData rf);
     redfinCbsaData := delete kb (redfinCbsaData rf) |}.

(** A metric value as the data files hold it: a finite number, [null], or
    nothing. *)
Definition is_number_or_null (v : value) : bool :=
  match v with
  | Undefined | Null | Num (Fin _) => true
  | _ => false
  end.

(** The two derived rates: the field, its numerator and its
    denominator. *)
Definition derivedRates : list (string * string * string) :=
  [("vacancyRate", "vacantUnits", "totalHousingUnits");
   ("homeownershipRate", "ownerOccupied", "occupiedUnits")]%string.

(** The model computes with exact rationals, the code with doubles.  A
    statement that compares a stored rate with the exact percentage [x]
    leaves this much room for the rounding of the division, of the
    multiplication and of [parseFloat], each of relative size [2^-53]. *)
Definition rate_slack (x : Q) : Q := ((Qabs x + 1) / inject_Z (2 ^ 50))%Q.

(** The period of a row is a string, or the row has no usable period. *)
Definition period_is_string (row : obj) : bool :=
  match get row "PERIOD_END" with
  | Str _ => true
  | v => negb (truthy v)
  end.

Definition string_periods (rows : list obj) : bool :=
  forallb period_is_string rows.

End Merger.

(** ** The loading sequence of the map's [load] handler *)

Module Loading.
Import JS Merger.

(** What the network delivers for one URL: [fetch] rejects, or it
    resolves to a response whose status is [ok] or not and whose body
    parses as JSON ([Some]) or does not. *)
Inductive fetched (Doc : Type) :=
| NetworkError
| Response (ok : bool) (body : option Doc).
Arguments NetworkError {Doc}.
Arguments Response {Doc} ok body.

(** What a document holds where the code expects a region record or an
    overlay row: an object, [null], or a number, a string or a boolean.
    Reading a property of [null] throws a [TypeError]; on a number, a
    string or a boolean each property the loaders read is [undefined]. *)
Inductive Entry :=
| Item (item : obj)
| NullEntry
| ScalarEntry.

(** The own properties of a dataset, in the order [Object.values] and
    [Object.keys] enumerate them. *)
Definition Records := list (string * Entry).

(** A baseline document that parsed: an object with a truthy [data]
    member, whose properties are then the dataset; an object without one,
    which is the dataset itself; [null]; or a number, a string or a
    boolean, whose own properties (the characters of a string) are scalars
    and are left out. *)
Inductive BaselineDoc :=
| Envelope (data : Records)
| Bare (records : Records)
| NullDoc
| ScalarDoc.

(** An overlay document: the array under [data], [None] when the document
    has no such array or is not an object. *)
Definition OverlayDoc := option (list Entry).

(** Outcome of [d3.json] for a boundary file: it resolves to the topology
    the page is written for, or it rejects.  A boundary document of
    another shape is not modelled. *)
Inductive geometry := GeoLoaded | GeoFailed.

Record Sources := {
  states_economic : fetched BaselineDoc;
  counties_economic : fetched BaselineDoc;
  cbsas_economic : fetched BaselineDoc;
  states_geometry : geometry;
  counties_geometry : geometry;
  cbsa_geometry : geometry;
  redfin_zip : fetched OverlayDoc;
  redfin_state : fetched OverlayDoc;
  redfin_county : fetched OverlayDoc;
  redfin_cbsa : fetched OverlayDoc
}.

Inductive LoadingOverlay := Spinner | Hidden | ErrorMessage.

(** The global [economicData]. *)
Record RegionData := {
  rd_states : Records;
  rd_counties : Records;
  rd_cbsas : Records
}.

(** The globals the loaders write. *)
Record Session := {
  economicData : RegionData;
  redfin : RedfinTables;
  loadingOverlay : LoadingOverlay
}.

Definition initialSession : Session :=
  {| economicData := {| rd_states := []; rd_counties := []; rd_cbsas := [] |};
     redfin := noRedfin;
     loadingOverlay := Spinner |}.

(** How a statement, or the promise of an [async] function, ends. *)
Inductive completion (A : Type) :=
| Normal (a : A)
| Throw.
Arguments Normal {A} a.
Arguments Throw {A}.

(** A computation over the globals that can throw. *)
Definition Task (A : Type) := Session -> Session * completion A.

Definition ret {A} (a : A) : Task A := λ st, (st, Normal a).
Definition throw {A} : Task A := λ st, (st, Throw).

Definition bind {A B} (m : Task A) (k : A -> Task B) : Task B :=
  λ st, match m st with
        | (st', Normal a) => k a st'
        | (st', Throw) => (st', Throw)
        end.

(** [try { body } catch (e) { handler }] *)
Definition try_catch {A} (body handler : Task A) : Task A :=
  λ st, match body st with
        | (st', Normal a) => (st', Normal a)
        | (st', Throw) => handler st'
        end.

#[export] Instance task_ret : MRet Task := @ret.
#[export] Instance task_bind : MBind Task := λ A B k m, bind m k.

Definition modify (f : Session -> Session) : Task unit :=
  λ st, (f st, Normal tt).

(** [await fetch(url)]: the [ok] flag and the body of the response *)
Definition fetch {Doc} (f : fetched Doc) : Task (bool * option Doc) :=
  match f with
  | NetworkError => throw
  | Response ok body => ret (ok, body)
  end.

(** [await response.json()], given the body of the response *)
Definition json {Doc} (body : option Doc) : Task Doc :=
  match body with
  | Some d => ret d
  | None => throw
  end.

(** [redfinJson.data], on which [forEach] is then called. *)
Definition dataRows (d : OverlayDoc) : Task (list Entry) :=
  match d with
  | Some rows => ret rows
  | None => throw
  end.

(** [await d3.json(url)] *)
Definition d3_json (g : geometry) : Task unit :=
  match g with
  | GeoLoaded => ret tt
  | GeoFailed => throw
  end.

(** [Object.keys(statesResponse)] and ['data' in statesResponse], which
    need an object, followed by [statesResponse.data || statesResponse]. *)
Definition statesDataset (d : BaselineDoc) : Task Records :=
  match d with
  | Envelope data => ret data
  | Bare records => ret records
  | NullDoc | ScalarDoc => throw
  end.

(** [response.data || response]: only [null] has no [data] to read. *)
Definition dataset (d : BaselineDoc) : Task Records :=
  match d with
  | Envelope data => ret data
  | Bare records => ret records
  | NullDoc => throw
  | ScalarDoc => ret []
  end.

(** [Object.values(dataset).forEach(body)]: the entries are visited in
    order and changed in place; [body] throws on an entry where it gives
    [None], which ends the loop.  The flag tells whether the loop ran to
    its end. *)
Fixpoint forEach (body : Entry -> option Entry) (d : Records)
    : Records * bool :=
  match d with
  | [] => ([], true)
  | (key, e) :: rest =>
      match body e with
      | Some e' =>
          let '(rest', completed) := forEach body rest in
          ((key, e') :: rest', completed)
      | None => (d, false)
      end
  end.

(** A loop body that reads properties of the entry and assigns to it
    what [f] says. *)
Definition onItem (f : obj -> obj) (e : Entry) : option Entry :=
  match e with
  | Item item => Some (Item (f item))
  | NullEntry => None
  | ScalarEntry => Some ScalarEntry
  end.

(** A step on one of the three datasets of [economicData]; it throws
    when the flag is down. *)
Definition onStates (f : Records -> Records * bool) : Task unit :=
  λ st, let '(d, completed) := f (rd_states (economicData st)) in
        ({| economicData := {| rd_states := d;
                               rd_counties := rd_counties (economicData st);
                               rd_cbsas := rd_cbsas (economicData st) |};
            redfin := redfin st; loadingOverlay := loadingOverlay st |},
         if completed : bool then Normal tt else Throw).

Definition onCounties (f : Records -> Records * bool) : Task unit :=
  λ st, let '(d, completed) := f (rd_counties (economicData st)) in
        ({| economicData := {| rd_states := rd_states (economicData st);
                               rd_counties := d;
                               rd_cbsas := rd_cbsas (economicData st) |};
            redfin := redfin st; loadingOverlay := loadingOverlay st |},
         if completed : bool then Normal tt else Throw).

Definition onCbsas (f : Records -> Records * bool) : Task unit :=
  λ st, let '(d, completed) := f (rd_cbsas (economicData st)) in
        ({| economicData := {| rd_states := rd_states (economicData st);
                               rd_counties := rd_counties (economicData st);
                               rd_cbsas := d |};
            redfin := redfin st; loadingOverlay := loadingOverlay st |},
         if completed : bool then Normal tt else Throw).

(** [economicData.states = ...] and its two siblings *)
Definition assign (d : Records) (_ : Records) : Records * bool := (d, true).

Definition setRedfin (f : RedfinTables -> RedfinTables) : Task unit :=
  modify (λ st, {| economicData := economicData st; redfin := f (redfin st);
                   loadingOverlay := loadingOverlay st |}).

Definition setOverlay (o : LoadingOverlay) : Task unit :=
  modify (λ st, {| economicData := economicData st; redfin := redfin st;
                   loadingOverlay := o |}).

Definition console_log : Task unit := ret tt.

(** A call into the page or the map SDK that writes none of the globals
    of the session. *)
Definition page_call : Task unit := ret tt.

(** The sample of the first state that [loadEconomicData] logs:
    [firstState.name] throws on [null], ['MEDIAN_SALE_PRICE' in firstState]
    on a number, a string or a boolean.  An empty first key is falsy and
    skips the sample. *)
Definition firstStateSample (states : Records) : Task unit :=
  match states with
  | (firstStateKey, firstState) :: _ =>
      if String.eqb firstStateKey EmptyString then ret tt
      else match firstState with
           | Item _ => ret tt
           | NullEntry | ScalarEntry => throw
           end
  | [] => ret tt
  end.

(** The rows of an overlay array that [forEach] gets through: those
    before the first [null]. *)
Fixpoint beforeNull (rows : list Entry) : list Entry :=
  match rows with
  | [] => []
  | NullEntry :: _ => []
  | e :: rest => e :: beforeNull rest
  end.

Definition is_null (e : Entry) : bool :=
  match e with
  | NullEntry => true
  | _ => false
  end.

Definition hasNull (rows : list Entry) : bool := existsb is_null rows.

(** The rows that are objects; a number, a string or a boolean among the
    rows has no [ZIP], no [PERIOD_END] and no key, and is passed over by
    every test of the loaders. *)
Definition objects (rows : list Entry) : list obj :=
  omap (λ e, match e with Item row => Some row | _ => None end) rows.

Section WithCoercions.
Context `{Coercions}.

(** The year display and [updateMetricDescriptions], which end the [try]
    block, read the metadata and write the page only. *)
Definition loadEconomicData (src : Sources) : Task unit :=
  try_catch
    (statesResponse ← ('(_, body) ← fetch (states_economic src); json body);
     countiesResponse ← ('(_, body) ← fetch (counties_economic src); json body);
     cbsasResponse ← ('(_, body) ← fetch (cbsas_economic src); json body);
     states ← statesDataset statesResponse;
     onStates (assign states);;
     counties ← dataset countiesResponse;
     onCounties (assign counties);;
     cbsas ← dataset cbsasResponse;
     onCbsas (assign cbsas);;
     firstStateSample states;;
     onStates (forEach (onItem deriveRates));;
     onCounties (forEach (onItem deriveRates));;
     onCbsas (forEach (onItem deriveRates));;
     page_call)
    (console_log;; setOverlay ErrorMessage).

(** The ZIP overlay: [row.ZIP] of a [null] row throws inside the [try],
    after the rows before it have been stored. *)
Definition loadRedfinZip (src : Sources) : Task unit :=
  try_catch
    ('(ok, body) ← fetch (redfin_zip src);
     (if ok : bool then ret tt else throw);;
     redfinJson ← json body;
     rows ← dataRows redfinJson;
     setRedfin (λ rf,
       {| redfinData := loadZipRows (objects (beforeNull rows)) (redfinData rf);
          redfinStateData := redfinStateData rf;
          redfinCountyData := redfinCountyData rf;
          redfinCbsaData := redfinCbsaData rf |});;
     if hasNull rows then throw else ret tt)
    console_log.

(** The three aggregated overlays share one shape; [store] says which
    table the rows go to.  The first pass reads [row.PERIOD_END] of every
    row and throws on a [null] row before anything is stored. *)
Definition loadRedfinAggregated (f : fetched OverlayDoc)
    (store : list obj -> RedfinTables -> RedfinTables) : Task unit :=
  try_catch
    ('(ok, body) ← fetch f;
     if ok : bool then
       redfinJson ← json body;
       rows ← dataRows redfinJson;
       (if hasNull rows then throw else ret tt);;
       setRedfin (store (objects rows))
     else ret tt)
    console_log.

Definition storeState (rows : list obj) (rf : RedfinTables) : RedfinTables :=
  {| redfinData := redfinData rf;
     redfinStateData := loadStateRows rows (redfinStateData rf);
     redfinCountyData := redfinCountyData rf;
     redfinCbsaData := redfinCbsaData rf |}.

Definition storeCounty (rows : list obj) (rf : RedfinTables) : RedfinTables :=
  {| redfinData := redfinData rf;
     redfinStateData := redfinStateData rf;
     redfinCountyData := loadCountyRows rows (redfinCountyData rf);
     redfinCbsaData := redfinCbsaData rf |}.

Definition storeCbsa (rows : list obj) (rf : RedfinTables) : RedfinTables :=
  {| redfinData := redfinData rf;
     redfinStateData := redfinStateData rf;
     redfinCountyData := redfinCountyData rf;
     redfinCbsaData := loadCbsaRows rows (redfinCbsaData rf) |}.

(** One of the three loops of [mergeRedfinIntoEconomicData], run only
    when its overlay table has a row: [state.stateCode] of a [null] record
    throws, and nothing in the function catches it. *)
Definition mergeLoop (codeOf : obj -> value) (table : gmap string obj)
    (d : Records) : Records * bool :=
  if (0 <? size table)%nat then forEach (onItem (mergeRecord codeOf table)) d
  else (d, true).

(** [await mergeRedfinIntoEconomicData()] *)
Definition mergeStep : Task unit :=
  λ st, (onStates (mergeLoop stateCode (redfinStateData (redfin st)));;
         onCounties (mergeLoop countyFips (redfinCountyData (redfin st)));;
         onCbsas (mergeLoop cbsaCode (redfinCbsaData (redfin st)))) st.

(** [addBoundariesToMap(); populateRegionList(); setupColorControls();]
    work on the boundaries just loaded and on the page.  The handler of
    the outer [catch] logs, shows the error message and returns
    [Promise.reject(error)]. *)
Definition loadGeoData (src : Sources) : Task unit :=
  try_catch
    (d3_json (states_geometry src);;
     d3_json (counties_geometry src);;
     d3_json (cbsa_geometry src);;
     loadRedfinZip src;;
     loadRedfinAggregated (redfin_state src) storeState;;
     loadRedfinAggregated (redfin_county src) storeCounty;;
     loadRedfinAggregated (redfin_cbsa src) storeCbsa;;
     mergeStep;;
     page_call;;
     setOverlay Hidden)
    (console_log;; setOverlay ErrorMessage;; throw).

(** [applyRedfinDataToZips] writes feature states of the map (see
    [FeatureStates]); its [setFeatureState] calls sit in a [try]. *)
Definition applyRedfinDataToZips : Task unit := page_call.

(** The [load] handler, an [async] function without a [try]:
    [await loadEconomicData(); await loadGeoData();
     await applyRedfinDataToZips();], the same once more for the ZIP level
    when the ZIP table has a row, and [enhanceLabels()].  A [Throw] is a
    rejected promise that nothing handles. *)
Definition onLoad (src : Sources) : Task unit :=
  loadEconomicData src;;
  loadGeoData src;;
  applyRedfinDataToZips;;
  (λ st, if (0 <? size (redfinData (redfin st)))%nat
         then applyRedfinDataToZips st else ret tt st);;
  page_call.

End WithCoercions.

(** *** Vocabulary of the statements about loading *)

Definition geometry_loaded (src : Sources) : bool :=
  match states_geometry src, counties_geometry src, cbsa_geometry src with
  | GeoLoaded, GeoLoaded, GeoLoaded => true
  | _, _, _ => false
  end.


(** How the promise of a task, or of a method, run from a state
    settles. *)
Definition settled {S A} (r : S * completion A) : completion A := r.2.

(** A task that completes normally from every state. *)
Definition safe {A} (m : Task A) : Prop :=
  forall st, exists st' a, m st = (st', Normal a).

(** A property of the globals that a task keeps, however it ends, and a
    property of the value it returns. *)
Definition keeps (P : Session -> Prop) {A} (m : Task A) : Prop :=
  forall st, P st -> P (m st).1.

Definition returns {A} (Q : A -> Prop) (m : Task A) : Prop :=
  forall st st' a, m st = (st', Normal a) -> Q a.

(** A task that leaves the overlay tables and the loading overlay as they
    are. *)
Definition dataset_step (m : Task unit) : Prop :=
  (forall rf, keeps (λ st, redfin st = rf) m) /\
  (forall o, keeps (λ st, loadingOverlay st = o) m).

(** No entry of the dataset is [null]. *)
Definition sound (d : Records) : bool :=
  forallb (λ kv : string * Entry, negb (is_null kv.2)) d.





(** The merge loops get through: a dataset has no [null] entry, or its
    overlay table is empty and its loop is not run. *)
Definition mergeable (rf : RedfinTables) (ed : RegionData) : bool :=
  ((size (redfinStateData rf) =? 0)%nat || sound (rd_states ed))
  && ((size (redfinCountyData rf) =? 0)%nat || sound (rd_counties ed))
  && ((size (redfinCbsaData rf) =? 0)%nat || sound (rd_cbsas ed)).

(** A loop body applied to every record that is an object. *)
Definition mapItems (f : obj -> obj) (d : Records) : Records :=
  (λ kv : string * Entry,
     (kv.1, match kv.2 with Item item => Item (f item) | e => e end)) <$> d.

End Loading.

(** ** The class based variant *)

Module ClassVariant.
Import JSString JS Color Merger.

(** [EconomicMap.getColorForValue(value, allValues)]; the class has its
    own [interpolateColor] with the same body as the script's. *)
Definition getColorForValue (cs : ColorSettings) (value : option Q)
    (allValues : list Q) : string :=
  match value with
  | None => dimmed cs
  | Some v =>
      if (length allValues =? 0)%nat then dimmed cs
      else
        let min := minOf allValues in
        let max := maxOf allValues in
        if Qeq_bool max min then dimmed cs
        else
          let normalized := ((v - min) / (max - min))%Q in
          interpolateColor (choroLow cs) (choroHigh cs) normalized
  end.

Section WithCoercions.
Context `{Coercions}.

Definition assignRate (field num den : string) (item : obj) : obj :=
  if truthy (get item num) && truthy (get item den)
  then <[field := Num (rate item num den)]> item
  else item.

(** Body of the loop of [EconomicMap.calculateDerivedRates]. *)
Definition calculateDerivedRates (item : obj) : obj :=
  assignRate "homeownershipRate" "ownerOccupied" "occupiedUnits"
    (assignRate "vacancyRate" "vacantUnits" "totalHousingUnits" item).

End WithCoercions.

End ClassVariant.

(** ** Two operations as the specification words them *)

Module Spec.
Import JSString Color.



(** Latest-snapshot selection as the specification words it: keep the
    rows of the category of interest whose period is the most recent
    period among the rows of that category. *)
Definition in_category (category : string) (row : JS.obj) : bool :=
  JS.strict_eq (JS.get row "PROPERTY_TYPE") (JS.Str category).

Definition period (row : JS.obj) : string :=
  match JS.get row "PERIOD_END" with
  | JS.Str s => s
  | _ => EmptyString
  end.

Definition latest_of_category (category : string) (rows : list JS.obj)
    : string :=
  foldr (λ row best, if String.ltb best (period row) then period row else best)
        EmptyString (filter (λ row, in_category category row = true) rows).

Definition snapshot (category : string) (rows : list JS.obj)
    : list JS.obj :=
  filter (λ row, in_category category row = true
                 ∧ period row = latest_of_category category rows) rows.

End Spec.

(** ** Concrete inputs used by the examples *)

Module Inputs.
Import JS Merger Loading.

(** An instance of the uninterpreted conversions. *)
Definition demoCoercions : Coercions :=
  {| OtherNumberToString := λ _, "?"%string;
     StringToNumber := λ _, NaN;
     RefToString := λ _, "[object Object]"%string |}.

Definition record (fields : list (string * value)) : obj := list_to_map fields.

(** Two states with their population. *)
Definition scenarioStates : gmap string (gmap string Q) :=
  <["06"%string := {["totalPopulation"%string := 39000000%Q]}]>
    (<["48"%string := {["totalPopulation"%string := 30000000%Q]}]> ∅).

(** A record whose baseline supplies one rate and the counts of the
    other. *)
Definition censusRecord : obj := record
  [("vacantUnits", Num (Fin 123)); ("totalHousingUnits", Num (Fin 1000));
   ("homeownershipRate", Num (Fin 65))]%string.

(** A record whose baseline supplies the vacancy rate and its counts. *)
Definition suppliedRecord : obj := record
  [("vacantUnits", Num (Fin 123)); ("totalHousingUnits", Num (Fin 1000));
   ("vacancyRate", Num (Fin (99 # 10)))]%string.

(** [Number] on the strings of the examples: [0] is the number it
    spells, the other strings are no numbers. *)
Definition textCoercions : Coercions :=
  {| OtherNumberToString := λ _, "?"%string;
     StringToNumber := λ s, if String.eqb s "0" then Fin 0 else NaN;
     RefToString := λ _, "[object Object]"%string |}.

(** Two records with a count written as text. *)
Definition zeroUnitsAsText : obj := record
  [("vacantUnits", Num (Fin 5)); ("totalHousingUnits", Str "0")]%string.

Definition unknownVacancies : obj := record
  [("vacantUnits", Str "n/a"); ("totalHousingUnits", Num (Fin 100))]%string.

Definition noVacancies : obj := record
  [("vacantUnits", Num (Fin 0)); ("totalHousingUnits", Num (Fin 100))]%string.

Definition california : obj := record
  [("name", Str "California"); ("stateCode", Str "CA")]%string.

Definition oneState : EconomicData :=
  {| ed_states := {["06"%string := california]};
     ed_counties := ∅; ed_cbsas := ∅ |}.

Definition allResidentialJune : obj := record
  [("PERIOD_END", Str "2025-06-01"); ("PROPERTY_TYPE", Str "All Residential");
   ("STATE_CODE", Str "CA"); ("MEDIAN_SALE_PRICE", Num (Fin 800000))]%string.

Definition allResidentialMay : obj := record
  [("PERIOD_END", Str "2025-05-01"); ("PROPERTY_TYPE", Str "All Residential");
   ("STATE_CODE", Str "CA"); ("MEDIAN_SALE_PRICE", Num (Fin 790000))]%string.

Definition condoJuly : obj := record
  [("PERIOD_END", Str "2025-07-01"); ("PROPERTY_TYPE", Str "Condo/Co-op");
   ("STATE_CODE", Str "CA"); ("MEDIAN_SALE_PRICE", Num (Fin 650000))]%string.

Definition texasJune : obj := record
  [("PERIOD_END", Str "2025-06-01"); ("PROPERTY_TYPE", Str "All Residential");
   ("STATE_CODE", Str "TX"); ("MEDIAN_SALE_PRICE", Num (Fin 300000))]%string.

(** A row that carries a [stateCode] of its own, for another state. *)
Definition redirectingJune : obj := record
  [("PERIOD_END", Str "2025-06-01"); ("PROPERTY_TYPE", Str "All Residential");
   ("STATE_CODE", Str "CA"); ("stateCode", Str "TX");
   ("MEDIAN_SALE_PRICE", Num (Fin 800000))]%string.

Definition tablesOf (stateRows : list obj) : RedfinTables :=
  {| redfinData := ∅;
     redfinStateData := @loadStateRows demoCoercions stateRows ∅;
     redfinCountyData := ∅;
     redfinCbsaData := ∅ |}.

Definition salePrice (ed : EconomicData) : option value :=
  item ← ed_states ed !! "06"%string; item !! "MEDIAN_SALE_PRICE"%string.


(** Every data source is fine; one boundary file does not load. *)
Definition boundaryFails : Sources :=
  {| states_economic := Response true (Some (Bare [("06"%string, Item california)]));
     counties_economic := Response true (Some (Bare []));
     cbsas_economic := Response true (Some (Bare []));
     states_geometry := GeoLoaded;
     counties_geometry := GeoLoaded;
     cbsa_geometry := GeoFailed;
     redfin_zip := Response true (Some (Some []));
     redfin_state := Response true (Some (Some [Item allResidentialJune]));
     redfin_county := Response true (Some (Some []));
     redfin_cbsa := Response true (Some (Some [])) |}.


End Inputs.

(** ** The legend and the other branches of [applyChoropleth] *)

Module Choropleth.
Import JSString JS Color.

(** [Math.min(...values)] and [Math.max(...values)]; without an argument
    they are plus and minus infinity. *)
Definition Math_min (values : list Q) : number :=
  foldl (λ lowest x,
           match lowest with
           | Fin m => if Qle_bool m x then Fin m else Fin x
           | _ => Fin x
           end) PosInf values.

Definition Math_max (values : list Q) : number :=
  foldl (λ highest x,
           match highest with
           | Fin m => if Qle_bool x m then Fin m else Fin x
           | _ => Fin x
           end) NegInf values.

(** The two numbers [updateLegend] formats into the legend labels; [None]
    when the metric has no value and the labels are left alone. *)
Definition legendBounds (allValues : list Q) : option (number * number) :=
  if (0 <? length allValues)%nat
  then Some (Math_min allValues, Math_max allValues)
  else None.

(** [a + b] and [a - b] *)
Definition number_add (a b : number) : number :=
  match a, b with
  | NaN, _ | _, NaN => NaN
  | Fin x, Fin y => Fin (x + y)
  | PosInf, NegInf | NegInf, PosInf => NaN
  | Fin _, inf | inf, _ => inf
  end.

Definition number_sub (a b : number) : number := number_add a (number_neg b).

(** [Math.round] on any number. *)
Definition round_number (n : number) : number :=
  match n with
  | Fin q => Fin (inject_Z (Math_round q))
  | _ => n
  end.

(** The integer [ToInt32] wraps: not-a-number and the infinities give [0],
    a finite number is truncated towards zero.  [Int32.shl] does the
    wrapping. *)
Definition to_integer (n : number) : Z :=
  match n with
  | Fin q => Z.quot (Qnum q) (Zpos (Qden q))
  | _ => 0
  end.

(** [n.toString(16)] for a number that is an integer when it is finite. *)
Definition number_toString16 (n : number) : string :=
  match n with
  | NaN => "NaN"
  | PosInf => "Infinity"
  | NegInf => "-Infinity"
  | Fin q => toString_radix 16 (Qfloor q)
  end.

(** [interpolateColor] for a factor that need not be finite. *)
Definition interpolateColorNumber (color1 color2 : string) (factor : number)
    : string :=
  let c1 := Int32.of_number (parseInt (slice1 color1) 16) in
  let c2 := Int32.of_number (parseInt (slice1 color2) 16) in
  let mixN (a b : Z) : number :=
    round_number
      (number_add (Fin (inject_Z a))
                  (number_mul factor (Fin (inject_Z (b - a))))) in
  let r := mixN (red c1) (red c2) in
  let g := mixN (green c1) (green c2) in
  let b := mixN (blue c1) (blue c2) in
  String "#"
    (slice1 (number_toString16
               (number_add
                  (number_add
                     (number_add (Fin (inject_Z (Int32.shl 1 24)))
                                 (Fin (inject_Z (Int32.shl (to_integer r) 16))))
                     (Fin (inject_Z (Int32.shl (to_integer g) 8))))
                  b))).

Definition redfinMetrics : list string :=
  ["MEDIAN_SALE_PRICE"; "MEDIAN_SALE_PRICE_YOY"; "HOMES_SOLD"; "INVENTORY";
   "MEDIAN_DOM"]%string.

Definition RANK_METRICS : list string :=
  ["MEDIAN_SALE_PRICE"; "MEDIAN_SALE_PRICE_YOY"; "MEDIAN_DOM"; "INVENTORY";
   "HOMES_SOLD"]%string.

(** [list.includes(x)] *)
Definition includes (l : list string) (x : string) : bool :=
  existsb (String.eqb x) l.

(** The metric whose values drive the colours of a market metric. *)
Definition visualizationMetric (currentMetric : string) : string :=
  if includes RANK_METRICS currentMetric
  then currentMetric +:+ "_RANK" else currentMetric.

(** The branch of [applyChoropleth] for a market metric at the state, county
    or metro level.  Only the regions that have a value get an entry; the
    others fall to the transparent default of the expression. *)
Definition applyRankChoropleth (cs : ColorSettings)
    (dataset : gmap string (gmap string Q)) (currentMetric : string)
    : option (gmap string string) :=
  let useRankVersion := includes RANK_METRICS currentMetric in
  let viz := visualizationMetric currentMetric in
  let allRankValues := allValuesOf dataset viz in
  if (length allRankValues =? 0)%nat then None
  else
    let minRank := if useRankVersion then Fin 0 else Math_min allRankValues in
    let maxRank := if useRankVersion then Fin 1 else Math_max allRankValues in
    Some (omap (λ d : gmap string Q,
                  match d !! viz with
                  | Some rankValue =>
                      let normalized :=
                        number_div (number_sub (Fin rankValue) minRank)
                                   (number_sub maxRank minRank) in
                      Some (interpolateColorNumber (choroLow cs) (choroHigh cs)
                              normalized)
                  | None => None
                  end) dataset).

(** The numeric view of the three baseline datasets and of the ZIP
    overlay. *)
Record Datasets := {
  ds_states : gmap string (gmap string Q);
  ds_counties : gmap string (gmap string Q);
  ds_cbsas : gmap string (gmap string Q);
  ds_zips : gmap string (gmap string Q)
}.

(** The dataset [applyChoropleth] reads for a level: [undefined] for
    anything but the three baseline levels. *)
Definition datasetFor (currentLevel : string) (ds : Datasets)
    : option (gmap string (gmap string Q)) :=
  if String.eqb currentLevel "states" then Some (ds_states ds)
  else if String.eqb currentLevel "counties" then Some (ds_counties ds)
  else if String.eqb currentLevel "cbsas" then Some (ds_cbsas ds)
  else None.

(** What a call of [applyChoropleth] does to the map. *)
Inductive Outcome :=
| ResetFill
| ZipRamp (metric : string) (minViz maxViz : number)
| Notice
| MatchColors (colors : gmap string string)
| TypeError.

(** [applyChoropleth()] as a function of the selection and the data: the
    outcome, and whether the set of highlighted regions is cleared. *)
Definition applyChoroplethAt (cs : ColorSettings)
    (currentLevel currentMetric : string) (ds : Datasets) : Outcome * bool :=
  if String.eqb currentMetric "none" then (ResetFill, true)
  else
    let isRedfinMetric := includes redfinMetrics currentMetric in
    if String.eqb currentLevel "zips" && isRedfinMetric then
      let useRankVersion := includes RANK_METRICS currentMetric in
      let viz := visualizationMetric currentMetric in
      let allValuesForViz := allValuesOf (ds_zips ds) viz in
      let minViz :=
        if useRankVersion then Fin 0
        else if (0 <? length allValuesForViz)%nat
             then Math_min allValuesForViz else Fin 0 in
      let maxViz :=
        if useRankVersion then Fin 1
        else if (0 <? length allValuesForViz)%nat
             then Math_max allValuesForViz else Fin 1 in
      (ZipRamp viz minViz maxViz, false)
    else if String.eqb currentLevel "zips" then (Notice, false)
    else
      match datasetFor currentLevel ds with
      | None => (TypeError, true)
      | Some dataset =>
          if isRedfinMetric then
            match applyRankChoropleth cs dataset currentMetric with
            | Some colors => (MatchColors colors, true)
            | None => (Notice, true)
            end
          else
            match applyChoropleth cs dataset currentMetric with
            | Some colors => (MatchColors colors, true)
            | None => (Notice, true)
            end
      end.

(** The call ends in a [TypeError]. *)
Definition throws (o : Outcome) : bool :=
  match o with
  | TypeError => true
  | _ => false
  end.

(** The values [updateLegend] takes the labels from: the metric itself,
    never its rank companion. *)
Definition legendValues (currentLevel currentMetric : string) (ds : Datasets)
    : list Q :=
  if String.eqb currentLevel "zips" && includes redfinMetrics currentMetric
  then allValuesOf (ds_zips ds) currentMetric
  else
    match datasetFor currentLevel ds with
    | Some dataset => allValuesOf dataset currentMetric
    | None => []
    end.

(** The two numbers [updateLegend] writes into the legend, [None] when
    the labels are left as they are. *)
Definition updateLegend (currentLevel currentMetric : string) (ds : Datasets)
    : option (number * number) :=
  if String.eqb currentMetric "none" then None
  else legendBounds (legendValues currentLevel currentMetric ds).

(** The label under which a record's colour enters the [match]
    expression: the key itself for metro areas, [parseInt(key, 10)]
    otherwise. *)
Definition matchKey (currentLevel key : string) : value :=
  if String.eqb currentLevel "cbsas" then Str key
  else match parseInt key 10 with
       | Some n => Num (Fin (inject_Z n))
       | None => Num NaN
       end.

End Choropleth.

(** ** Feature states: overlay values and highlights

    The one part of the map that is modelled beyond the calls returning:
    [setFeatureState] merges the properties it is given into the state
    kept for the target it names.  A target is a source, a source layer
    when the call names one, and a feature id, compared in its string
    form.  How the paint expressions read the states is not modelled,
    apart from the test of a flag. *)

Module FeatureStates.
Import JSString JS GeoKey Merger.

Record Feature := {
  feature_id : value;
  properties : option obj
}.

(** The fields [applyRedfinDataToZips] copies into a feature's state. *)
Definition stateFields : list string :=
  ["MEDIAN_SALE_PRICE"; "MEDIAN_SALE_PRICE_YOY"; "HOMES_SOLD"; "INVENTORY";
   "MEDIAN_DOM";
   "MEDIAN_SALE_PRICE_LOG"; "HOMES_SOLD_LOG"; "INVENTORY_LOG"; "MEDIAN_DOM_LOG";
   "MEDIAN_SALE_PRICE_RANK"; "MEDIAN_SALE_PRICE_YOY_RANK"; "HOMES_SOLD_RANK";
   "INVENTORY_RANK"; "MEDIAN_DOM_RANK"]%string.

(** The state of the features of the map, by target. *)
Definition States := gmap (string * option string * string) obj.

(** [['boolean', ['feature-state', name], false]] *)
Definition flag (state : obj) (name : string) : bool :=
  match state !! name with
  | Some (Bool b) => b
  | _ => false
  end.

(** [highlightedRegions.add(x)] and [highlightedRegions.delete(x)] on a
    set kept in insertion order. *)
Definition set_add (x : string) (s : list string) : list string :=
  if bool_decide (x ∈ s) then s else s ++ [x].

Definition set_delete (x : string) (s : list string) : list string :=
  filter (λ y, y <> x) s.

Section WithCoercions.
Context `{Coercions}.

(** [map.getFeatureState] and [map.setFeatureState]; the latter merges
    the given properties into the state the feature has. *)
Definition getFeatureState (source : string) (sourceLayer : option string)
    (id : value) (fs : States) : obj :=
  default ∅ (fs !! (source, sourceLayer, ToString id)).

Definition setFeatureState (source : string) (sourceLayer : option string)
    (id : value) (state : obj) (fs : States) : States :=
  <[(source, sourceLayer, ToString id)
    := state ∪ getFeatureState source sourceLayer id fs]> fs.

(** The table [applyRedfinDataToZips] works on, with the source and the
    source layer of the features it is applied to. *)
Definition activeRedfinData (currentLevel : string) (rf : RedfinTables)
    : gmap string obj * option (string * string) :=
  if String.eqb currentLevel "zips" && (0 <? size (redfinData rf))%nat
  then (redfinData rf, Some ("zips", "us-zips-simplified-ahb14j")%string)
  else if String.eqb currentLevel "states"
          && (0 <? size (redfinStateData rf))%nat
  then (redfinStateData rf, Some ("states", "us-states-simplified")%string)
  else if String.eqb currentLevel "counties"
          && (0 <? size (redfinCountyData rf))%nat
  then (redfinCountyData rf,
        Some ("counties", "us-counties-simplified-80n5rl")%string)
  else if String.eqb currentLevel "cbsa"
          && (0 <? size (redfinCbsaData rf))%nat
  then (redfinCbsaData rf, Some ("cbsa", "us-cbsa-simplified-6uc2hv")%string)
  else (∅, None).

(** [feature.properties?.name] *)
Definition property (feature : Feature) (name : string) : value :=
  match properties feature with
  | Some p => get p name
  | None => Undefined
  end.

(** The key [parseInt(s, 10)] selects. *)
Definition parseIntKey (s : string) : string :=
  match parseInt s 10 with
  | Some n => ToString (Num (Fin (inject_Z n)))
  | None => "NaN"
  end.

(** The chain of lookups for a ZIP feature. *)
Definition matchZip (table : gmap string obj) (feature : Feature)
    : option obj :=
  let featureId := feature_id feature in
  let geoidProp := property feature "GEOID" in
  match table !! ToString featureId with
  | Some row => Some row
  | None =>
  match table !! padStart 5 "0" (ToString featureId) with
  | Some row => Some row
  | None =>
  match table !! parseIntKey (ToString featureId) with
  | Some row => Some row
  | None =>
      if truthy geoidProp then
        match table !! ToString geoidProp with
        | Some row => Some row
        | None => table !! padStart 5 "0" (ToString geoidProp)
        end
      else None
  end end end.

(** [code && table[code]] for a property of the feature. *)
Definition matchProperty (table : gmap string obj) (feature : Feature)
    (name : string) : option obj :=
  let code := property feature name in
  if truthy code then table !! ToString code else None.

Definition matchingData (currentLevel : string) (table : gmap string obj)
    (feature : Feature) : option obj :=
  if String.eqb currentLevel "zips" then matchZip table feature
  else if String.eqb currentLevel "states"
  then matchProperty table feature "STUSPS"
  else if String.eqb currentLevel "counties"
  then matchProperty table feature "GEOID"
  else if String.eqb currentLevel "cbsa"
  then matchProperty table feature "GEOID"
  else None.

(** The state object built from the matching row. *)
Definition overlayState (matching : obj) : obj :=
  list_to_map ((λ f, (f, get matching f)) <$> stateFields).

(** Body of the loop of [applyToLoadedFeatures]: the states and the count
    of features served so far. *)
Definition applyToFeature (currentLevel sourceId sourceLayer : string)
    (table : gmap string obj) (acc : States * nat) (feature : Feature)
    : States * nat :=
  match matchingData currentLevel table feature with
  | Some matching =>
      if negb (strict_eq (feature_id feature) Undefined)
      then (setFeatureState sourceId (Some sourceLayer) (feature_id feature)
              (overlayState matching) acc.1, S acc.2)
      else acc
  | None => acc
  end.

Definition applyToLoadedFeatures (currentLevel sourceId sourceLayer : string)
    (table : gmap string obj) (features : list Feature) (fs : States)
    : States * nat :=
  foldl (applyToFeature currentLevel sourceId sourceLayer table) (fs, O)
        features.

(** [applyRedfinDataToZips] once the source is loaded, on the features
    the map has. *)
Definition applyRedfinDataToZips (currentLevel : string) (rf : RedfinTables)
    (features : list Feature) (fs : States) : States :=
  match activeRedfinData currentLevel rf with
  | (active, Some (sourceId, sourceLayer)) =>
      if (size active =? 0)%nat then fs
      else (applyToLoadedFeatures currentLevel sourceId sourceLayer active
              features fs).1
  | (_, None) => fs
  end.

(** A row the ZIP loader stores under key [k]. *)
Definition zipRow (k : string) (row : obj) : Prop :=
  not_nullish (get row "ZIP") = true /\
  padStart 5 "0" (ToString (get row "ZIP")) = k.

#[export] Instance zipRow_dec k row : Decision (zipRow k row).
Proof. unfold zipRow. apply _. Defined.

(** The source [updateHighlights] writes to; it names no source layer. *)
Definition highlightSource (currentLevel : string) : string :=
  if String.eqb currentLevel "states" then "states"
  else if String.eqb currentLevel "counties" then "counties"
  else "cbsas".

Definition updateHighlights (currentLevel : string) (allRegions : list value)
    (highlightedRegions : list string) (fs : States) : States :=
  let sourceId := highlightSource currentLevel in
  let cleared :=
    foldl (λ fs id,
             setFeatureState sourceId None id
               {[ "highlighted"%string := Bool false;
                  "dimmed"%string := Bool false ]} fs)
          fs allRegions in
  if (0 <? length highlightedRegions)%nat then
    let dimmed :=
      foldl (λ fs id,
               setFeatureState sourceId None id
                 {[ "dimmed"%string := Bool true ]} fs)
            cleared allRegions in
    foldl (λ fs regionId,
             setFeatureState sourceId None (Str regionId)
               {[ "highlighted"%string := Bool true;
                  "dimmed"%string := Bool false ]} fs)
          dimmed highlightedRegions
  else cleared.

(** [handleRegionCheckbox] for the checkbox of [regionId]. *)
Definition handleRegionCheckbox (regionId : string) (checked : bool)
    (currentLevel : string) (allRegions : list value)
    (highlightedRegions : list string) (fs : States)
    : list string * States :=
  let highlightedRegions :=
    if checked then set_add regionId highlightedRegions
    else set_delete regionId highlightedRegions in
  (highlightedRegions,
   updateHighlights currentLevel allRegions highlightedRegions fs).

End WithCoercions.

End FeatureStates.

(** ** Names of the regions *)

Module Names.
Import JSString JS GeoKey.

Definition stateFipsToAbbr : gmap Z string :=
  list_to_map
    [(1, "AL"); (2, "AK"); (4, "AZ"); (5, "AR"); (6, "CA"); (8, "CO");
     (9, "CT"); (10, "DE"); (11, "DC"); (12, "FL");
     (13, "GA"); (15, "HI"); (16, "ID"); (17, "IL"); (18, "IN"); (19, "IA");
     (20, "KS"); (21, "KY"); (22, "LA"); (23, "ME");
     (24, "MD"); (25, "MA"); (26, "MI"); (27, "MN"); (28, "MS"); (29, "MO");
     (30, "MT"); (31, "NE"); (32, "NV"); (33, "NH");
     (34, "NJ"); (35, "NM"); (36, "NY"); (37, "NC"); (38, "ND"); (39, "OH");
     (40, "OK"); (41, "OR"); (42, "PA"); (44, "RI");
     (45, "SC"); (46, "SD"); (47, "TN"); (48, "TX"); (49, "UT"); (50, "VT");
     (51, "VA"); (53, "WA"); (54, "WV"); (55, "WI");
     (56, "WY"); (60, "AS"); (66, "GU"); (69, "MP"); (72, "PR");
     (78, "VI")]%string.

(** [s.substring(0, n)] *)
Fixpoint substring0 (n : nat) (s : string) : string :=
  match n, s with
  | S k, String c rest => String c (substring0 k rest)
  | _, _ => EmptyString
  end.

Definition has_hex_prefix (s : string) : bool :=
  match s with
  | String "0" (String "x" _) => true
  | String "0" (String "X" _) => true
  | _ => false
  end.

(** [parseInt(s)] without a radix: decimal, or hexadecimal after a [0x]
    prefix. *)
Definition parseInt_auto (s : string) : option Z :=
  let '(negative, body) := strip_sign (trim_start s) in
  let R := if has_hex_prefix body then 16 else 10 in
  match parse_digits R (strip_hex_prefix body) None with
  | Some n => Some (if negative then - n else n)
  | None => None
  end.

(** [stateFipsToAbbr[n]] for the result of [parseInt]; [NaN] names no
    entry. *)
Definition abbrOf (stateFips : option Z) : option string :=
  match stateFips with
  | Some n => stateFipsToAbbr !! n
  | None => None
  end.

Section WithCoercions.
Context `{Coercions}.

(** [parseInt(String(id).padStart(5, '0').substring(0, 2))] *)
Definition stateFipsOf (id : value) : option Z :=
  parseInt_auto (substring0 2 (padKey 5 id)).

(** The name [populateRegionList] lists a county under. *)
Definition countyListName (id name : value) : value :=
  match abbrOf (stateFipsOf id) with
  | Some stateAbbr =>
      if negb (String.eqb stateAbbr "")
      then Str (ToString name +:+ ", " +:+ stateAbbr)
      else name
  | None => name
  end.

(** [redfinInfo?.name] *)
Definition rowField (redfinInfo : option obj) (name : string) : value :=
  match redfinInfo with
  | Some row => get row name
  | None => Undefined
  end.

(** [getFeatureName(feature, geoLevel)] for a feature with the given id
    and properties. *)
Definition getFeatureName (redfinData : gmap string obj) (id : value)
    (properties : obj) (geoLevel : string) : value :=
  if String.eqb geoLevel "states"
  then js_or (get properties "name") (Str "Unknown State")
  else if String.eqb geoLevel "cbsas"
  then js_or (js_or (get properties "NAME") (get properties "name"))
             (Str "Unknown CBSA")
  else if String.eqb geoLevel "zips" then
    let zipCode := js_or (get properties "GEOID") (get properties "ZIP") in
    let redfinInfo := redfinData !! padKey 5 zipCode in
    let cityName := rowField redfinInfo "CITY_NAME" in
    let stateAbbr := rowField redfinInfo "STATE_ABBREV" in
    if truthy cityName && truthy stateAbbr
    then Str ("ZIP " +:+ ToString zipCode +:+ " - " +:+ ToString cityName
              +:+ ", " +:+ ToString stateAbbr)
    else Str ("ZIP " +:+ ToString zipCode)
  else
    let countyName := js_or (get properties "name") (Str "Unknown County") in
    match abbrOf (stateFipsOf id) with
    | Some stateAbbr =>
        if negb (String.eqb stateAbbr "")
        then Str (ToString countyName +:+ ", " +:+ stateAbbr)
        else countyName
    | None => countyName
    end.

End WithCoercions.

End Names.

(** ** More of the class based variant *)

Module ClassMap.
Import JS Color Merger Loading.

(** The colours [EconomicMap.applyChoropleth] enters into the [match]
    expression: one for every record of the dataset.  The default of the
    expression is the dimmed colour. *)
Definition choroplethColors (cs : ColorSettings)
    (dataset : gmap string (gmap string Q)) (metric : string)
    : gmap string string :=
  let allValues := allValuesOf dataset metric in
  (λ d : gmap string Q,
     ClassVariant.getColorForValue cs (d !! metric) allValues) <$> dataset.

(** An instance of the class: the fields its loaders write, and whether
    [this.usData] holds the state boundaries; the constructor sets it to
    [null]. *)
Record Instance := {
  globals : Session;
  usData : bool
}.

(** A method of the class that can throw. *)
Definition Method (A : Type) := Instance -> Instance * completion A.

#[global] Instance method_ret : MRet Method := λ A a self, (self, Normal a).
#[global] Instance method_bind : MBind Method :=
  λ A B k m self, match m self with
                  | (self', Normal a) => k a self'
                  | (self', Throw) => (self', Throw)
                  end.

(** [try { body } catch (e) { handler }] *)
Definition method_try {A} (body handler : Method A) : Method A :=
  λ self, match body self with
          | (self', Normal a) => (self', Normal a)
          | (self', Throw) => handler self'
          end.

(** A step on the fields that the class shares with the script. *)
Definition lift {A} (m : Task A) : Method A :=
  λ self, let '(st, c) := m (globals self) in
          ({| globals := st; usData := usData self |}, c).

(** [this.usData = us; this.countiesData = counties;] *)
Definition storeBoundaries : Method unit :=
  λ self, ({| globals := globals self; usData := true |}, Normal tt).

(** [EconomicMap.populateRegionList] at the level the constructor sets,
    [states]; [regionList] tells whether the page has the element
    [region-checkboxes].  Without it the method returns at once,
    otherwise it reads [this.usData.objects], which throws while
    [this.usData] is [null]. *)
Definition populateRegionList (regionList : bool) : Method unit :=
  λ self, if regionList && negb (usData self)
          then (self, Throw) else (self, Normal tt).

Section WithCoercions.
Context `{Coercions}.

(** [EconomicMap.loadGeoData]: the state and county boundaries are
    required, the metro boundaries are tried on their own (a response that
    is not [ok] and a failure are both skipped), [addBoundariesToMap]
    works on the boundaries just stored, and the outer [catch] only
    logs. *)
Definition loadGeoData (src : Sources) : Method unit :=
  method_try
    (lift (d3_json (states_geometry src));;
     lift (d3_json (counties_geometry src));;
     storeBoundaries;;
     method_try (lift (d3_json (cbsa_geometry src))) (lift console_log);;
     lift page_call;;
     lift (setOverlay Hidden))
    (lift console_log).

(** [EconomicMap.calculateDerivedRates]: the loops over the three
    datasets. *)
Definition calculateDerivedRates : Task unit :=
  onStates (forEach (onItem ClassVariant.calculateDerivedRates));;
  onCounties (forEach (onItem ClassVariant.calculateDerivedRates));;
  onCbsas (forEach (onItem ClassVariant.calculateDerivedRates)).

(** [EconomicMap.loadEconomicData]: the [catch] only logs.  The method
    writes none of the boundary fields. *)
Definition loadEconomicData (src : Sources) : Method unit :=
  lift
    (try_catch
       (statesRes ← ('(_, body) ← fetch (states_economic src); json body);
        countiesRes ← ('(_, body) ← fetch (counties_economic src); json body);
        cbsasRes ← ('(_, body) ← fetch (cbsas_economic src); json body);
        states ← dataset statesRes;
        onStates (assign states);;
        counties ← dataset countiesRes;
        onCounties (assign counties);;
        cbsas ← dataset cbsasRes;
        onCbsas (assign cbsas);;
        calculateDerivedRates)
       console_log).

(** The [load] handler of the class, an [async] function without a
    [try]: [await this.loadGeoData(); await this.loadEconomicData();
    this.setupInteractions(); this.setupUIControls();
    this.populateRegionList(); this.updateYearDisplay();]. *)
Definition onLoad (regionList : bool) (src : Sources) : Method unit :=
  loadGeoData src;;
  loadEconomicData src;;
  lift page_call;;
  lift page_call;;
  populateRegionList regionList;;
  lift page_call.

End WithCoercions.

(** A fresh instance. *)
Definition newInstance : Instance :=
  {| globals := initialSession; usData := false |}.

(** The two boundary files the class cannot do without. *)
Definition boundaries_loaded (src : Sources) : bool :=
  match states_geometry src, counties_geometry src with
  | GeoLoaded, GeoLoaded => true
  | _, _ => false
  end.

End ClassMap.

(** ** The year shown beside the data *)

Module Years.
Import JS.

(** [Math.max] of two numbers and of a list of numbers. *)
Definition number_max (a b : number) : number :=
  match a, b with
  | NaN, _ | _, NaN => NaN
  | PosInf, _ | _, PosInf => PosInf
  | NegInf, x | x, NegInf => x
  | Fin x, Fin y => if Qle_bool x y then Fin y else Fin x
  end.

Definition Math_max (numbers : list number) : number :=
  foldl number_max NegInf numbers.

(** [Object.values(o).filter(y => typeof y === 'number')] *)
Definition numbersOf (o : obj) : list number :=
  omap (λ kv : string * value,
          match kv.2 with
          | Num n => Some n
          | _ => None
          end) (map_to_list o).

(** The year [loadEconomicData] and [updateYearDisplay] write into the
    page, given the years the metadata name and the year of the clock. *)
Definition maxYear (globalYearMetadata : obj) (currentYear : number) : number :=
  let allYears := numbersOf globalYearMetadata in
  if (0 <? length allYears)%nat then Math_max allYears else currentYear.

End Years.

(** ** What the sources deliver *)

Module Delivery.
Import JS Merger Loading.

(** The rows an overlay source delivers: the response is [ok], its body
    parses and holds an array under [data]. *)
Definition overlayRows (f : fetched OverlayDoc) : option (list Entry) :=
  match f with
  | Response true (Some (Some rows)) => Some rows
  | _ => None
  end.

(** An aggregated table after its loader has run on what the source
    delivers: nothing is stored from an array that holds a [null]. *)
Definition stored (load : list obj -> gmap string obj -> gmap string obj)
    (f : fetched OverlayDoc) (table : gmap string obj) : gmap string obj :=
  match overlayRows f with
  | Some rows => if hasNull rows then table else load (objects rows) table
  | None => table
  end.

Section WithCoercions.
Context `{Coercions}.

(** The ZIP table after its loader has run: the rows before the first
    [null] are stored. *)
Definition storedZips (f : fetched OverlayDoc) (table : gmap string obj)
    : gmap string obj :=
  match overlayRows f with
  | Some rows => loadZipRows (objects (beforeNull rows)) table
  | None => table
  end.

Definition tablesAfter (src : Sources) (rf : RedfinTables) : RedfinTables :=
  {| redfinData := storedZips (redfin_zip src) (redfinData rf);
     redfinStateData :=
       stored loadStateRows (redfin_state src) (redfinStateData rf);
     redfinCountyData :=
       stored loadCountyRows (redfin_county src) (redfinCountyData rf);
     redfinCbsaData :=
       stored loadCbsaRows (redfin_cbsa src) (redfinCbsaData rf) |}.

(** The records of one level with its overlay table merged in. *)
Definition mergedLevel (codeOf : obj -> value) (table : gmap string obj)
    (d : Records) : Records :=
  if (0 <? size table)%nat then mapItems (mergeRecord codeOf table) d else d.

Definition merged (rf : RedfinTables) (ed : RegionData) : RegionData :=
  {| rd_states := mergedLevel stateCode (redfinStateData rf) (rd_states ed);
     rd_counties :=
       mergedLevel countyFips (redfinCountyData rf) (rd_counties ed);
     rd_cbsas := mergedLevel cbsaCode (redfinCbsaData rf) (rd_cbsas ed) |}.

(** The three datasets with the rates derived on every record. *)
Definition derived (states counties cbsas : Records) : RegionData :=
  {| rd_states := mapItems deriveRates states;
     rd_counties := mapItems deriveRates counties;
     rd_cbsas := mapItems deriveRates cbsas |}.

End WithCoercions.



End Delivery.

(** ** Further inputs *)

Module Scenarios.
Import JS Merger Loading Inputs Choropleth FeatureStates.

(** Two states with a sale price and its rank, one without. *)
Definition rankedStates : gmap string (gmap string Q) :=
  <["06"%string := <["MEDIAN_SALE_PRICE"%string := 800000%Q]>
                     {["MEDIAN_SALE_PRICE_RANK"%string := (3 # 4)%Q]}]>
    (<["48"%string := <["MEDIAN_SALE_PRICE"%string := 300000%Q]>
                        {["MEDIAN_SALE_PRICE_RANK"%string := (1 # 4)%Q]}]>
       (<["36"%string := {["totalPopulation"%string := 20000000%Q]}]> ∅)).

Definition populationOnly : Datasets :=
  {| ds_states := scenarioStates; ds_counties := ∅; ds_cbsas := ∅;
     ds_zips := ∅ |}.

(** Two rows for the same ZIP code, written as a number and as a
    string. *)
Definition bostonFirst : obj := record
  [("ZIP", Num (Fin 2134)); ("MEDIAN_SALE_PRICE", Num (Fin 700000))]%string.

Definition bostonLast : obj := record
  [("ZIP", Str "02134"); ("MEDIAN_SALE_PRICE", Num (Fin 710000))]%string.

Definition bostonFeature : Feature :=
  {| feature_id := Num (Fin 2134); properties := None |}.

Definition californiaFeature : Feature :=
  {| feature_id := Num (Fin 6);
     properties := Some (record [("STUSPS", Str "CA")]%string) |}.

(** A state feature that is highlighted, as [updateHighlights] leaves
    it. *)
Definition highlightedCalifornia : States :=
  {[ ("states"%string, None, "6"%string)
     := record [("highlighted", Bool true); ("dimmed", Bool false)]%string ]}.

(** The target of the overlay for that feature, carrying a property that
    is not a market field. *)
Definition markedCalifornia : States :=
  {[ ("states"%string, Some "us-states-simplified"%string, "6"%string)
     := record [("hover", Bool true)]%string ]}.

(** A state feature whose state carries a value beside the flags. *)
Definition pricedCalifornia : States :=
  {[ ("states"%string, None, "6"%string)
     := record [("MEDIAN_SALE_PRICE", Num (Fin 800000))]%string ]}.

(** Only the county overlay delivers rows. *)
Definition losAngelesJune : obj := record
  [("PERIOD_END", Str "2025-06-01"); ("PROPERTY_TYPE", Str "All Residential");
   ("COUNTY_FIPS", Str "06037"); ("MEDIAN_SALE_PRICE", Num (Fin 900000))]%string.

Definition countyOverlayOnly : Sources :=
  {| states_economic := Response true (Some (Bare [("06"%string, Item california)]));
     counties_economic := Response true (Some (Bare []));
     cbsas_economic := Response true (Some (Bare []));
     states_geometry := GeoLoaded;
     counties_geometry := GeoLoaded;
     cbsa_geometry := GeoLoaded;
     redfin_zip := NetworkError;
     redfin_state := Response false None;
     redfin_county := Response true (Some (Some [Item losAngelesJune]));
     redfin_cbsa := Response true None |}.

(** The state boundaries do not load; every data source is in order. *)
Definition noStateBoundaries : Sources :=
  {| states_economic := Response true (Some (Bare [("06"%string, Item california)]));
     counties_economic := Response true (Some (Bare []));
     cbsas_economic := Response true (Some (Bare []));
     states_geometry := GeoFailed;
     counties_geometry := GeoLoaded;
     cbsa_geometry := GeoLoaded;
     redfin_zip := Response true (Some (Some []));
     redfin_state := Response true (Some (Some [Item allResidentialJune]));
     redfin_county := Response true (Some (Some []));
     redfin_cbsa := Response true (Some (Some [])) |}.

(** A record with its counts and no rate. *)
Definition countsOnly : obj := record
  [("vacantUnits", Num (Fin 123)); ("totalHousingUnits", Num (Fin 1000));
   ("ownerOccupied", Num (Fin 500)); ("occupiedUnits", Num (Fin 877))]%string.

(** The years of a metadata block: two numbers and a range. *)
Definition yearsUsed : obj := record
  [("population", Num (Fin 2023)); ("gdp", Num (Fin 2022));
   ("income", Str "2019-2023")]%string.

(** A row without a period. *)
Definition undatedRow : obj := record
  [("PROPERTY_TYPE", Str "All Residential"); ("STATE_CODE", Str "CA");
   ("MEDIAN_SALE_PRICE", Num (Fin 1))]%string.

End Scenarios.

(** * Part II: properties *)

Import JSString JS Color GeoKey Merger Loading Delivery Inputs.

(** ** Strings and digits *)

Section StringFacts.

Lemma append_cons c (a b : string) : String c a +:+ b = String c (a +:+ b).
Proof. reflexivity. Qed.

Lemma append_length (a b : string) :
  String.length (a +:+ b) = (String.length a + String.length b)%nat.
Proof.
  induction a as [|c a IH]; [done|].
  rewrite append_cons. simpl. by rewrite IH.
Qed.

Lemma append_assoc (a b c : string) : (a +:+ b) +:+ c = a +:+ (b +:+ c).
Proof.
  induction a as [|x a IH]; [done|].
  by rewrite !append_cons, IH.
Qed.

Lemma repeat_char_length c n : String.length (repeat_char c n) = n.
Proof. induction n; simpl; [done | by rewrite IHn]. Qed.

Lemma repeat_char_add c m n :
  repeat_char c (m + n) = repeat_char c m +:+ repeat_char c n.
Proof.
  induction m as [|m IH]; [done|].
  simpl. by rewrite append_cons, IH.
Qed.

Lemma padStart_full width c s :
  (width <= String.length s)%nat -> padStart width c s = s.
Proof.
  intros Hw. unfold padStart.
  replace (width - String.length s)%nat with 0%nat by lia. reflexivity.
Qed.

Lemma padStart_snoc width c s d :
  padStart (S width) c (s +:+ String d EmptyString) =
  padStart width c s +:+ String d EmptyString.
Proof.
  unfold padStart. rewrite append_length, append_assoc. simpl.
  by replace (S width - (String.length s + 1))%nat
    with (width - String.length s)%nat by lia.
Qed.

Lemma padStart_zeros width k s :
  (k + String.length s <= width)%nat ->
  padStart width "0" (repeat_char "0" k +:+ s) = padStart width "0" s.
Proof.
  intros Hk. unfold padStart.
  rewrite append_length, repeat_char_length, <- append_assoc, <- repeat_char_add.
  by replace (width - (k + String.length s) + k)%nat
    with (width - String.length s)%nat by lia.
Qed.

(** One more digit at the end. *)
Lemma radix_digits_step R f q d :
  2 <= R -> 0 <= d < R -> 0 < q ->
  radix_digits R (S f) (q * R + d) =
  radix_digits R f q +:+ String (digit_char d) EmptyString.
Proof.
  intros HR Hd Hq. simpl.
  assert (Hge : (q * R + d <? R) = false) by (apply Z.ltb_ge; nia).
  rewrite Hge.
  replace ((q * R + d) / R) with q by (apply Z.div_unique with d; lia).
  replace ((q * R + d) mod R) with d by (apply Z.mod_unique with q; lia).
  reflexivity.
Qed.

Lemma radix_digits_small R f n :
  0 <= n < R -> radix_digits R (S f) n = String (digit_char n) EmptyString.
Proof.
  intros Hn. simpl. assert (Hlt : (n <? R) = true) by (apply Z.ltb_lt; lia).
  by rewrite Hlt.
Qed.

(** Seven hex digits, most significant first. *)
Lemma radix_digits_7 f d6 d5 d4 d3 d2 d1 d0 :
  0 < d6 < 16 -> 0 <= d5 < 16 -> 0 <= d4 < 16 -> 0 <= d3 < 16 ->
  0 <= d2 < 16 -> 0 <= d1 < 16 -> 0 <= d0 < 16 ->
  radix_digits 16 (S (S (S (S (S (S (S f)))))))
    ((((((d6 * 16 + d5) * 16 + d4) * 16 + d3) * 16 + d2) * 16 + d1) * 16 + d0) =
  String (digit_char d6) (String (digit_char d5) (String (digit_char d4)
    (String (digit_char d3) (String (digit_char d2) (String (digit_char d1)
      (String (digit_char d0) EmptyString)))))).
Proof.
  intros H6 H5 H4 H3 H2 H1 H0.
  rewrite !radix_digits_step by lia.
  rewrite radix_digits_small by lia. reflexivity.
Qed.

Lemma toString_radix_nonneg n :
  0 <= n -> toString_radix 10 n = radix_digits 10 (S (Z.to_nat (Z.log2 n))) n.
Proof.
  intros Hn. unfold toString_radix.
  destruct (Z.ltb_spec n 0); [lia|]. by rewrite Z.abs_eq.
Qed.

Lemma log2_fuel n : 0 <= n -> n < 2 ^ Z.of_nat (S (Z.to_nat (Z.log2 n))).
Proof.
  intros Hn. rewrite Nat2Z.inj_succ, Z2Nat.id by apply Z.log2_nonneg.
  destruct (Z.eq_dec n 0) as [->|Hne]; [done|].
  apply Z.log2_spec. lia.
Qed.

Lemma wrap_small n : - 2 ^ 31 <= n < 2 ^ 31 -> Int32.wrap n = n.
Proof.
  intros Hn. unfold Int32.wrap.
  rewrite Z.mod_small by lia. lia.
Qed.

Lemma ltb_leb (a b : string) : String.ltb a b = negb (String.leb b a).
Proof.
  unfold String.ltb, String.leb. rewrite (String.compare_antisym a b).
  by destruct (String.compare b a).
Qed.

Lemma ltb_irrefl (a : string) : String.ltb a a = false.
Proof.
  rewrite ltb_leb. destruct (String.leb_total a a) as [E|E]; by rewrite E.
Qed.

Lemma ltb_later (s p q : string) :
  String.ltb s q = false -> String.ltb s p = true -> String.ltb p q = false.
Proof.
  rewrite !ltb_leb. intros Hq Hp.
  apply negb_false_iff in Hq. apply negb_true_iff in Hp.
  apply negb_false_iff.
  assert (Hsp : String.le s p).
  { apply Is_true_true.
    destruct (String.leb_total s p) as [E|E]; [done | congruence]. }
  assert (Hqs : String.le q s) by (by apply Is_true_true).
  apply Is_true_true. change (String.le q p). by trans s.
Qed.

End StringFacts.

(** ** Colour mapper *)

Section ColorFacts.

Lemma Qfloor_unique (z : Z) (y : Q) :
  (inject_Z z <= y)%Q -> (y < inject_Z (z + 1))%Q -> Qfloor y = z.
Proof.
  intros Hlo Hhi.
  pose proof (Qfloor_le y) as H1. pose proof (Qlt_floor y) as H2.
  assert (Ha : (inject_Z (Qfloor y) < inject_Z (z + 1))%Q)
    by (eapply Qle_lt_trans; eauto).
  assert (Hb : (inject_Z z < inject_Z (Qfloor y + 1))%Q)
    by (eapply Qle_lt_trans; eauto).
  rewrite <- Zlt_Qlt in Ha, Hb. lia.
Qed.

Lemma mix_comp a b (t t' : Q) : (t == t')%Q -> mix a b t = mix a b t'.
Proof.
  intros Ht. unfold mix, Math_round. apply Qfloor_comp. by rewrite Ht.
Qed.

Lemma mix_zero a b : mix a b 0 = a.
Proof.
  unfold mix, Math_round. apply Qfloor_unique.
  - lra.
  - rewrite inject_Z_plus. change (inject_Z 1) with 1%Q. lra.
Qed.

Lemma mix_one a b : mix a b 1 = b.
Proof.
  unfold mix, Math_round. apply Qfloor_unique.
  - unfold Zminus. rewrite inject_Z_plus, inject_Z_opp. lra.
  - unfold Zminus. rewrite !inject_Z_plus, inject_Z_opp.
    change (inject_Z 1) with 1%Q. lra.
Qed.

(** Between two channel values the mix is a channel value. *)
Lemma mix_range a b (t : Q) :
  0 <= a < 256 -> 0 <= b < 256 -> (0 <= t)%Q -> (t <= 1)%Q ->
  0 <= mix a b t < 256.
Proof.
  intros Ha Hb Ht0 Ht1. unfold mix, Math_round.
  assert (HA0 : (0 <= inject_Z a)%Q)
    by (change 0%Q with (inject_Z 0); rewrite <- Zle_Qle; lia).
  assert (HA1 : (inject_Z a <= 255)%Q)
    by (change 255%Q with (inject_Z 255); rewrite <- Zle_Qle; lia).
  assert (HB0 : (0 <= inject_Z b)%Q)
    by (change 0%Q with (inject_Z 0); rewrite <- Zle_Qle; lia).
  assert (HB1 : (inject_Z b <= 255)%Q)
    by (change 255%Q with (inject_Z 255); rewrite <- Zle_Qle; lia).
  assert (E : (inject_Z (b - a) == inject_Z b - inject_Z a)%Q).
  { unfold Zminus. rewrite inject_Z_plus, inject_Z_opp. lra. }
  set (A := inject_Z a) in *. set (B := inject_Z b) in *.
  set (y := (A + t * inject_Z (b - a) + (1 # 2))%Q).
  assert (Hy : (y == A + t * (B - A) + (1 # 2))%Q)
    by (unfold y; rewrite E; reflexivity).
  assert (Hlo : (0 <= y)%Q) by (rewrite Hy; nra).
  assert (Hhi : (y <= 511 # 2)%Q) by (rewrite Hy; nra).
  pose proof (Qfloor_resp_le _ _ Hlo) as L1.
  pose proof (Qfloor_resp_le _ _ Hhi) as L2.
  change (Qfloor 0) with 0 in L1. change (Qfloor (511 # 2)) with 255 in L2.
  lia.
Qed.

Lemma and255_range x : 0 <= Int32.and x 255 < 256.
Proof.
  unfold Int32.and. change 255 with (Z.ones 8).
  rewrite Z.land_ones by lia.
  pose proof (Z.mod_pos_bound x (2 ^ 8) ltac:(lia)).
  rewrite wrap_small; lia.
Qed.

Lemma and255_small x : 0 <= x < 256 -> Int32.and x 255 = x.
Proof.
  intros Hx. unfold Int32.and. change 255 with (Z.ones 8).
  rewrite Z.land_ones by lia. rewrite Z.mod_small by lia.
  apply wrap_small. lia.
Qed.

Lemma and255_low hi lo : 0 <= lo < 256 -> Int32.and (hi * 256 + lo) 255 = lo.
Proof.
  intros Hlo. unfold Int32.and. change 255 with (Z.ones 8).
  rewrite Z.land_ones by lia.
  replace ((hi * 256 + lo) mod 2 ^ 8) with lo
    by (apply Z.mod_unique with hi; lia).
  apply wrap_small. lia.
Qed.

Lemma shiftr_high hi lo k :
  0 <= hi -> 0 <= lo < 2 ^ k -> 0 <= k ->
  Z.shiftr (hi * 2 ^ k + lo) k = hi.
Proof.
  intros Hhi Hlo Hk. rewrite Z.shiftr_div_pow2 by lia.
  symmetry. apply Z.div_unique with lo; lia.
Qed.

Lemma hex2_nibbles hi lo :
  0 <= hi < 16 -> 0 <= lo < 16 ->
  hex2 (hi * 16 + lo) =
  String (digit_char hi) (String (digit_char lo) EmptyString).
Proof.
  intros Hhi Hlo. unfold hex2.
  replace ((hi * 16 + lo) / 16) with hi by (apply Z.div_unique with lo; lia).
  replace ((hi * 16 + lo) mod 16) with lo by (apply Z.mod_unique with hi; lia).
  reflexivity.
Qed.

(** What the last line of [interpolateColor] prints for three channel
    values. *)
Lemma hex_string_of_channels r g b :
  0 <= r < 256 -> 0 <= g < 256 -> 0 <= b < 256 ->
  String "#" (slice1 (toString_radix 16
                        (Int32.shl 1 24 + Int32.shl r 16 + Int32.shl g 8 + b)))
  = rgb_string r g b.
Proof.
  intros Hr Hg Hb.
  assert (H1 : Int32.shl 1 24 = 2 ^ 24) by reflexivity.
  assert (Hrs : Int32.shl r 16 = r * 2 ^ 16).
  { unfold Int32.shl. rewrite (wrap_small r) by lia.
    rewrite Z.shiftl_mul_pow2 by lia. apply wrap_small. lia. }
  assert (Hgs : Int32.shl g 8 = g * 2 ^ 8).
  { unfold Int32.shl. rewrite (wrap_small g) by lia.
    rewrite Z.shiftl_mul_pow2 by lia. apply wrap_small. lia. }
  rewrite H1, Hrs, Hgs.
  set (n := 2 ^ 24 + r * 2 ^ 16 + g * 2 ^ 8 + b).
  assert (Hn : 2 ^ 24 <= n < 2 ^ 25) by (unfold n; lia).
  unfold toString_radix.
  assert (Hneg : (n <? 0) = false) by (apply Z.ltb_ge; lia).
  rewrite Hneg.
  assert (Hlog : Z.log2 (Z.abs n) = 24).
  { rewrite Z.abs_eq by lia. apply Z.log2_unique; lia. }
  rewrite Hlog.
  change (S (Z.to_nat 24)) with (S (S (S (S (S (S (S 18%nat))))))).
  pose proof (Z.div_mod r 16 ltac:(lia)) as Er.
  pose proof (Z.div_mod g 16 ltac:(lia)) as Eg.
  pose proof (Z.div_mod b 16 ltac:(lia)) as Eb.
  pose proof (Z.mod_pos_bound r 16 ltac:(lia)).
  pose proof (Z.mod_pos_bound g 16 ltac:(lia)).
  pose proof (Z.mod_pos_bound b 16 ltac:(lia)).
  assert (0 <= r / 16 < 16)
    by (split; [apply Z.div_pos; lia | apply Z.div_lt_upper_bound; lia]).
  assert (0 <= g / 16 < 16)
    by (split; [apply Z.div_pos; lia | apply Z.div_lt_upper_bound; lia]).
  assert (0 <= b / 16 < 16)
    by (split; [apply Z.div_pos; lia | apply Z.div_lt_upper_bound; lia]).
  replace n with
    ((((((1 * 16 + r / 16) * 16 + r mod 16) * 16 + g / 16) * 16 + g mod 16)
        * 16 + b / 16) * 16 + b mod 16)
    by (unfold n; lia).
  rewrite radix_digits_7 by lia.
  reflexivity.
Qed.

(** For a position in [[0, 1]] the function is the channel-wise
    interpolation. *)
Lemma interpolateColor_interpolated color1 color2 (t : Q) :
  (0 <= t)%Q -> (t <= 1)%Q ->
  interpolateColor color1 color2 t = interpolated color1 color2 t.
Proof.
  intros Ht0 Ht1. unfold interpolateColor, interpolated, redOf, greenOf, blueOf.
  apply hex_string_of_channels; apply mix_range;
    unfold red, green, blue; auto using and255_range.
Qed.

Lemma interpolateColor_comp color1 color2 (t t' : Q) :
  (t == t')%Q ->
  interpolateColor color1 color2 t = interpolateColor color1 color2 t'.
Proof.
  intros Ht. unfold interpolateColor.
  by rewrite !(mix_comp _ _ t t' Ht).
Qed.

Lemma interpolated_comp color1 color2 (t t' : Q) :
  (t == t')%Q -> interpolated color1 color2 t = interpolated color1 color2 t'.
Proof.
  intros Ht. unfold interpolated. by rewrite !(mix_comp _ _ t t' Ht).
Qed.

End ColorFacts.

(** ** Colour strings *)

Section ColorStrings.

Lemma hex_digit_facts c :
  is_hex_digit c = true ->
  exists v, radix_digit 16 c = Some v /\ 0 <= v < 16 /\
            digit_char v = lower_char c /\ is_white_space c = false.
Proof.
  destruct c as [[] [] [] [] [] [] [] []]; vm_compute; intros Hc;
    try discriminate Hc;
    (eexists; split; [reflexivity|]; split; [split; congruence|];
     split; reflexivity).
Qed.

Lemma hex_digit_strip_sign c rest :
  is_hex_digit c = true -> strip_sign (String c rest) = (false, String c rest).
Proof.
  destruct c as [[] [] [] [] [] [] [] []]; vm_compute; intros Hc;
    try discriminate Hc; reflexivity.
Qed.

Lemma hex_digit_strip_prefix c1 c2 rest :
  is_hex_digit c2 = true ->
  strip_hex_prefix (String c1 (String c2 rest)) = String c1 (String c2 rest).
Proof.
  intros Hc.
  destruct c1 as [[] [] [] [] [] [] [] []]; try reflexivity.
  destruct c2 as [[] [] [] [] [] [] [] []]; try reflexivity;
    vm_compute in Hc; discriminate Hc.
Qed.

Lemma lower_hex_digit_facts c :
  is_lower_hex_digit c = true -> is_hex_digit c = true /\ lower_char c = c.
Proof.
  destruct c as [[] [] [] [] [] [] [] []]; vm_compute; intros Hc;
    try discriminate Hc; split; reflexivity.
Qed.

(** The channels of a well formed colour print back as its lower case
    form. *)
Lemma rgb_string_channels s :
  is_hex_color s = true ->
  rgb_string (redOf s) (greenOf s) (blueOf s) = lower_string s.
Proof.
  unfold is_hex_color.
  destruct s as [|c0 s]; [done|].
  destruct (Ascii.eqb c0 "#") eqn:E0;
    [apply Ascii.eqb_eq in E0 as ->
    | destruct c0 as [[] [] [] [] [] [] [] []]; try discriminate; done ].
  destruct s as [|c1 [|c2 [|c3 [|c4 [|c5 [|c6 [|c7 s]]]]]]]; try discriminate.
  simpl. rewrite !andb_true_r.
  intros Hall.
  repeat (apply andb_prop in Hall as [? Hall]).
  destruct (hex_digit_facts c1) as (v1 & P1 & B1 & D1 & W1); [done|].
  destruct (hex_digit_facts c2) as (v2 & P2 & B2 & D2 & W2); [done|].
  destruct (hex_digit_facts c3) as (v3 & P3 & B3 & D3 & W3); [done|].
  destruct (hex_digit_facts c4) as (v4 & P4 & B4 & D4 & W4); [done|].
  destruct (hex_digit_facts c5) as (v5 & P5 & B5 & D5 & W5); [done|].
  destruct (hex_digit_facts c6) as (v6 & P6 & B6 & D6 & W6); [done|].
  set (v := ((((v1 * 16 + v2) * 16 + v3) * 16 + v4) * 16 + v5) * 16 + v6).
  assert (Hparse :
    parseInt (String c1 (String c2 (String c3 (String c4 (String c5
                (String c6 EmptyString)))))) 16 = Some v).
  { unfold parseInt. simpl trim_start. rewrite W1.
    rewrite hex_digit_strip_sign by done.
    change (16 =? 16) with true. cbv iota.
    rewrite hex_digit_strip_prefix by done.
    simpl parse_digits. rewrite P1, P2, P3, P4, P5, P6. reflexivity. }
  unfold redOf, greenOf, blueOf. simpl slice1. rewrite Hparse.
  unfold Int32.of_number. rewrite (wrap_small v) by (unfold v; lia).
  assert (Hr : red v = v1 * 16 + v2).
  { unfold red, Int32.shr.
    replace v with ((v1 * 16 + v2) * 2 ^ 16
                    + (((v3 * 16 + v4) * 16 + v5) * 16 + v6))
      by (unfold v; lia).
    rewrite shiftr_high by lia. apply and255_small. lia. }
  assert (Hg : green v = v3 * 16 + v4).
  { unfold green, Int32.shr.
    replace v with (((v1 * 16 + v2) * 256 + (v3 * 16 + v4)) * 2 ^ 8
                    + (v5 * 16 + v6))
      by (unfold v; lia).
    rewrite shiftr_high by lia. apply and255_low. lia. }
  assert (Hb : blue v = v5 * 16 + v6).
  { unfold blue.
    replace v with ((((v1 * 16 + v2) * 16 + v3) * 16 + v4) * 256
                    + (v5 * 16 + v6))
      by (unfold v; lia).
    apply and255_low. lia. }
  rewrite Hr, Hg, Hb. unfold rgb_string.
  rewrite !hex2_nibbles by lia.
  rewrite D1, D2, D3, D4, D5, D6. reflexivity.
Qed.

Lemma lower_hex_color_fixed s :
  is_lower_hex_color s = true -> is_hex_color s = true /\ lower_string s = s.
Proof.
  unfold is_lower_hex_color, is_hex_color.
  destruct s as [|c0 s]; [done|].
  destruct (Ascii.eqb c0 "#") eqn:E0;
    [apply Ascii.eqb_eq in E0 as ->
    | destruct c0 as [[] [] [] [] [] [] [] []]; try discriminate; done ].
  destruct s as [|c1 [|c2 [|c3 [|c4 [|c5 [|c6 [|c7 s]]]]]]]; try discriminate.
  simpl. rewrite !andb_true_r.
  intros Hall.
  repeat (apply andb_prop in Hall as [? Hall]).
  destruct (lower_hex_digit_facts c1) as [-> ->]; [done|].
  destruct (lower_hex_digit_facts c2) as [-> ->]; [done|].
  destruct (lower_hex_digit_facts c3) as [-> ->]; [done|].
  destruct (lower_hex_digit_facts c4) as [-> ->]; [done|].
  destruct (lower_hex_digit_facts c5) as [-> ->]; [done|].
  destruct (lower_hex_digit_facts c6) as [-> ->]; [done|].
  done.
Qed.

End ColorStrings.

(** ** Digits printed and read back *)

Lemma code_digit_char d :
  0 <= d < 36 -> code (digit_char d) = if d <? 10 then 48 + d else 87 + d.
Proof.
  intros Hd. unfold code, digit_char.
  rewrite N_ascii_embedding; [| destruct (d <? 10); lia].
  destruct (d <? 10); lia.
Qed.

Lemma digit_value_digit_char d :
  0 <= d < 36 -> digit_value (digit_char d) = Some d.
Proof.
  intros Hd. unfold digit_value. rewrite code_digit_char by done.
  destruct (d <? 10) eqn:E.
  - apply Z.ltb_lt in E.
    replace ((48 <=? 48 + d) && (48 + d <=? 57)) with true
      by (symmetry; apply andb_true_iff; split; apply Z.leb_le; lia).
    f_equal. lia.
  - apply Z.ltb_ge in E.
    replace ((48 <=? 87 + d) && (87 + d <=? 57)) with false
      by (symmetry; apply andb_false_iff; right; apply Z.leb_gt; lia).
    replace ((97 <=? 87 + d) && (87 + d <=? 122)) with true
      by (symmetry; apply andb_true_iff; split; apply Z.leb_le; lia).
    f_equal. lia.
Qed.

Lemma radix_digit_digit_char R d :
  0 <= d < R -> R <= 36 -> radix_digit R (digit_char d) = Some d.
Proof.
  intros Hd HR. unfold radix_digit. rewrite digit_value_digit_char by lia.
  by replace (d <? R) with true by (symmetry; apply Z.ltb_lt; lia).
Qed.

Lemma digit_char_hex d : 0 <= d < 16 -> is_hex_digit (digit_char d) = true.
Proof.
  intros Hd. unfold is_hex_digit. by rewrite radix_digit_digit_char by lia.
Qed.

Lemma trim_start_digits (s : string) :
  all_chars is_hex_digit s = true -> trim_start s = s.
Proof.
  destruct s as [|c s]; [done|]. simpl. intros Hc.
  apply andb_true_iff in Hc as [Hc _].
  destruct (hex_digit_facts c Hc) as (v & _ & _ & _ & Hws). by rewrite Hws.
Qed.

(** Reading back six printed digits. *)
Lemma parseInt_hex6 d5 d4 d3 d2 d1 d0 :
  0 <= d5 < 16 -> 0 <= d4 < 16 -> 0 <= d3 < 16 ->
  0 <= d2 < 16 -> 0 <= d1 < 16 -> 0 <= d0 < 16 ->
  parseInt (String (digit_char d5) (String (digit_char d4) (String (digit_char d3)
             (String (digit_char d2) (String (digit_char d1)
               (String (digit_char d0) EmptyString)))))) 16
  = Some (((((d5 * 16 + d4) * 16 + d3) * 16 + d2) * 16 + d1) * 16 + d0).
Proof.
  intros H5 H4 H3 H2 H1 H0. unfold parseInt.
  rewrite trim_start_digits
    by (cbn [all_chars]; rewrite !digit_char_hex by lia; reflexivity).
  rewrite hex_digit_strip_sign by (by apply digit_char_hex).
  change (16 =? 16) with true. cbv iota.
  rewrite hex_digit_strip_prefix by (by apply digit_char_hex).
  cbn [parse_digits].
  rewrite !radix_digit_digit_char by lia.
  reflexivity.
Qed.

Lemma nibbles v : 0 <= v < 256 -> 0 <= v / 16 < 16 /\ 0 <= v mod 16 < 16.
Proof.
  intros Hv. split; [|apply Z.mod_pos_bound; lia].
  split; [apply Z.div_pos | apply Z.div_lt_upper_bound]; lia.
Qed.

Lemma channels_of_rgb_string r g b :
  0 <= r < 256 -> 0 <= g < 256 -> 0 <= b < 256 ->
  redOf (rgb_string r g b) = r /\ greenOf (rgb_string r g b) = g /\
  blueOf (rgb_string r g b) = b.
Proof.
  intros Hr Hg Hb.
  destruct (nibbles r Hr) as [Hr1 Hr0], (nibbles g Hg) as [Hg1 Hg0],
    (nibbles b Hb) as [Hb1 Hb0].
  assert (Hp : Int32.of_number (parseInt (slice1 (rgb_string r g b)) 16)
               = (r * 256 + g) * 256 + b).
  { unfold rgb_string, hex2. cbn [slice1]. rewrite !append_cons.
    repeat change (EmptyString +:+ ?x) with x.
    rewrite parseInt_hex6 by done.
    unfold Int32.of_number. rewrite wrap_small by lia.
    rewrite (Z.div_mod r 16) at 3 by lia.
    rewrite (Z.div_mod g 16) at 3 by lia.
    rewrite (Z.div_mod b 16) at 3 by lia. ring. }
  unfold redOf, greenOf, blueOf. rewrite Hp.
  unfold red, green, blue, Int32.shr.
  split; [| split].
  - replace ((r * 256 + g) * 256 + b) with (r * 2 ^ 16 + (g * 256 + b)) by ring.
    rewrite shiftr_high by lia. by apply and255_small.
  - replace ((r * 256 + g) * 256 + b) with ((r * 256 + g) * 2 ^ 8 + b) by ring.
    rewrite shiftr_high by lia. by apply and255_low.
  - by apply and255_low.
Qed.

Lemma lower_hex_digit_char d :
  0 <= d < 16 -> is_lower_hex_digit (digit_char d) = true.
Proof.
  intros Hd. unfold is_lower_hex_digit. rewrite code_digit_char by lia.
  destruct (d <? 10) eqn:E; [apply Z.ltb_lt in E | apply Z.ltb_ge in E].
  - apply orb_true_iff. left. apply andb_true_iff. split; apply Z.leb_le; lia.
  - apply orb_true_iff. right. apply andb_true_iff. split; apply Z.leb_le; lia.
Qed.

Lemma rgb_string_lower r g b :
  0 <= r < 256 -> 0 <= g < 256 -> 0 <= b < 256 ->
  is_lower_hex_color (rgb_string r g b) = true.
Proof.
  intros Hr Hg Hb. unfold rgb_string, hex2. rewrite !append_cons.
  repeat change (EmptyString +:+ ?x) with x.
  cbn [is_lower_hex_color String.length all_chars Nat.eqb andb].
  destruct (nibbles r Hr), (nibbles g Hg), (nibbles b Hb).
  by rewrite !lower_hex_digit_char.
Qed.

Lemma channel_ranges s :
  0 <= redOf s < 256 /\ 0 <= greenOf s < 256 /\ 0 <= blueOf s < 256.
Proof.
  unfold redOf, greenOf, blueOf, red, green, blue. auto using and255_range.
Qed.

Lemma interpolateColor_channels color1 color2 (t : Q) :
  (0 <= t)%Q -> (t <= 1)%Q ->
  redOf (interpolateColor color1 color2 t) = mix (redOf color1) (redOf color2) t /\
  greenOf (interpolateColor color1 color2 t)
    = mix (greenOf color1) (greenOf color2) t /\
  blueOf (interpolateColor color1 color2 t) = mix (blueOf color1) (blueOf color2) t.
Proof.
  intros Ht0 Ht1.
  rewrite interpolateColor_interpolated by done. unfold interpolated.
  destruct (channel_ranges color1) as (Hr1 & Hg1 & Hb1).
  destruct (channel_ranges color2) as (Hr2 & Hg2 & Hb2).
  apply channels_of_rgb_string; by apply mix_range.
Qed.

(** ** Bounds of the values of a metric *)

Section Bounds.

Lemma insert_sorted_perm x l : Permutation (insert_sorted x l) (x :: l).
Proof.
  induction l as [|y l IH]; simpl; [done|].
  destruct (Qle_bool x y); [done|].
  rewrite IH. apply perm_swap.
Qed.

Lemma sort_ascending_perm l : Permutation (sort_ascending l) l.
Proof.
  induction l as [|x l IH]; simpl; [done|].
  rewrite insert_sorted_perm. by constructor.
Qed.

Lemma insert_sorted_sorted x l :
  StronglySorted Qle l -> StronglySorted Qle (insert_sorted x l).
Proof.
  induction 1 as [|y l Hs IH Hall]; simpl.
  - repeat constructor.
  - destruct (Qle_bool x y) eqn:E.
    + apply Qle_bool_iff in E. constructor; [by constructor|].
      constructor; [done|].
      eapply Forall_impl; [exact Hall|]. intros z Hz. simpl in Hz. lra.
    + assert (Hyx : (y <= x)%Q).
      { destruct (Qlt_le_dec y x) as [Hlt|Hle]; [lra|].
        apply Qle_bool_iff in Hle. congruence. }
      constructor; [done|].
      rewrite insert_sorted_perm. by constructor.
Qed.

Lemma sort_ascending_sorted l : StronglySorted Qle (sort_ascending l).
Proof.
  induction l; simpl; [constructor | by apply insert_sorted_sorted].
Qed.

Lemma sorted_first_least (l : list Q) x :
  StronglySorted Qle l -> x ∈ l -> (nth 0 l 0 <= x)%Q.
Proof.
  intros Hs Hx. destruct Hs as [|y l Hs Hall]; [by apply elem_of_nil in Hx|].
  simpl. apply elem_of_cons in Hx as [->|Hx]; [lra|].
  rewrite Forall_forall in Hall. by apply Hall.
Qed.

Lemma sorted_last_greatest (l : list Q) :
  StronglySorted Qle l ->
  forall x, x ∈ l -> (x <= nth (length l - 1) l 0)%Q.
Proof.
  induction 1 as [|y l Hs IH Hall]; intros x Hx;
    [by apply elem_of_nil in Hx|].
  destruct l as [|z l].
  - apply list_elem_of_singleton in Hx as ->. simpl. lra.
  - replace (length (y :: z :: l) - 1)%nat with (S (length (z :: l) - 1))
      by (simpl; lia).
    change (nth (S (length (z :: l) - 1)) (y :: z :: l) 0%Q)
      with (nth (length (z :: l) - 1) (z :: l) 0%Q).
    apply elem_of_cons in Hx as [->|Hx]; [|by apply IH].
    assert (Hz : (y <= z)%Q)
      by (rewrite Forall_forall in Hall; apply Hall; left).
    assert (Hzl : (z <= nth (length (z :: l) - 1) (z :: l) 0)%Q)
      by (apply IH; left).
    lra.
Qed.

Lemma sort_nonempty l : l <> [] -> sort_ascending l <> [].
Proof.
  intros Hl Hs. apply Hl. apply Permutation_nil. rewrite <- Hs.
  apply sort_ascending_perm.
Qed.

Lemma minOf_member l : l <> [] -> minOf l ∈ l.
Proof.
  intros Hl. rewrite <- (sort_ascending_perm l) at 2.
  pose proof (sort_nonempty l Hl) as Hs. unfold minOf.
  destruct (sort_ascending l); [done | left].
Qed.

Lemma maxOf_member l : l <> [] -> maxOf l ∈ l.
Proof.
  intros Hl. rewrite <- (sort_ascending_perm l) at 2.
  pose proof (sort_nonempty l Hl) as Hs. unfold maxOf.
  apply list_elem_of_In, nth_In.
  destruct (sort_ascending l); [done|]. simpl. lia.
Qed.

(** [minOf] and [maxOf] are the least and the greatest of the values. *)
Lemma minOf_least l x : x ∈ l -> (minOf l <= x)%Q.
Proof.
  intros Hx. apply sorted_first_least; [apply sort_ascending_sorted|].
  by rewrite sort_ascending_perm.
Qed.

Lemma maxOf_greatest l x : x ∈ l -> (x <= maxOf l)%Q.
Proof.
  intros Hx. apply sorted_last_greatest; [apply sort_ascending_sorted|].
  by rewrite sort_ascending_perm.
Qed.

Lemma bounds_Some l mn mx :
  bounds l = Some (mn, mx) -> l <> [] /\ mn = minOf l /\ mx = maxOf l.
Proof.
  unfold bounds. destruct l as [|x l]; simpl; [done|].
  intros [= <- <-]. done.
Qed.

(** The bounds are attained and enclose every value. *)
Lemma bounds_enclose l mn mx :
  bounds l = Some (mn, mx) ->
  mn ∈ l /\ mx ∈ l /\ forall x, x ∈ l -> (mn <= x)%Q /\ (x <= mx)%Q.
Proof.
  intros Hb. apply bounds_Some in Hb as (Hl & -> & ->).
  split; [by apply minOf_member|]. split; [by apply maxOf_member|].
  intros x Hx. split; [by apply minOf_least | by apply maxOf_greatest].
Qed.

Lemma all_equal_degenerate (l : list Q) :
  l <> [] -> (forall x y, x ∈ l -> y ∈ l -> (x == y)%Q) ->
  exists mn mx, bounds l = Some (mn, mx) /\ (mn == mx)%Q.
Proof.
  intros Hl Hall. exists (minOf l), (maxOf l). split.
  - unfold bounds. destruct l; [done|]. reflexivity.
  - apply Hall; [by apply minOf_member | by apply maxOf_member].
Qed.

(** The value of every region is one of the values the bounds are taken
    over. *)
Lemma region_value_among_all (dataset : gmap string (gmap string Q))
    metric key d v :
  dataset !! key = Some d -> d !! metric = Some v ->
  v ∈ allValuesOf dataset metric.
Proof.
  intros Hd Hv. unfold allValuesOf. apply list_elem_of_omap.
  exists d. split; [|done].
  apply list_elem_of_fmap. exists (key, d). split; [done|].
  by apply elem_of_map_to_list.
Qed.

End Bounds.

(** ** The colour of a value *)

Section ColorForValue.

Lemma getColorForValue_bounds cs allValues mn mx v :
  bounds allValues = Some (mn, mx) ->
  getColorForValue cs (Some v) allValues =
  if Qeq_bool mx mn then interpolateColor (choroLow cs) (choroHigh cs) (1 # 2)
  else interpolateColor (choroLow cs) (choroHigh cs) ((v - mn) / (mx - mn)).
Proof.
  unfold bounds, getColorForValue.
  destruct (length allValues =? 0)%nat; [done|].
  by intros [= <- <-].
Qed.

Lemma Qeq_bool_lt (mn mx : Q) : (mn < mx)%Q -> Qeq_bool mx mn = false.
Proof.
  intros Hlt. destruct (Qeq_bool mx mn) eqn:E; [|done].
  apply Qeq_bool_iff in E. lra.
Qed.

Lemma normalized_range (mn mx v : Q) :
  (mn < mx)%Q -> (mn <= v)%Q -> (v <= mx)%Q ->
  (0 <= (v - mn) / (mx - mn))%Q /\ ((v - mn) / (mx - mn) <= 1)%Q.
Proof.
  intros Hlt Hlo Hhi. split.
  - apply Qle_shift_div_l; lra.
  - apply Qle_shift_div_r; lra.
Qed.

Lemma normalized_at_min (mn mx : Q) :
  (mn < mx)%Q -> ((mn - mn) / (mx - mn) == 0)%Q.
Proof. intros Hlt. field. lra. Qed.

Lemma normalized_at_max (mn mx : Q) :
  (mn < mx)%Q -> ((mx - mn) / (mx - mn) == 1)%Q.
Proof. intros Hlt. field. lra. Qed.

(** The bounds the mapper works with are the least and the greatest of
    the values, whatever their order in the list. *)
Lemma bounds_of_extremes (l : list Q) mn mx :
  mn ∈ l -> mx ∈ l ->
  (forall x, x ∈ l -> (mn <= x)%Q /\ (x <= mx)%Q) ->
  exists mn' mx',
    bounds l = Some (mn', mx') /\ (mn' == mn)%Q /\ (mx' == mx)%Q.
Proof.
  intros Hmn Hmx Hall.
  assert (Hne : l <> []) by (intros ->; by apply elem_of_nil in Hmn).
  exists (minOf l), (maxOf l). split.
  { unfold bounds. destruct l; [done | reflexivity]. }
  pose proof (minOf_member l Hne) as H1. pose proof (maxOf_member l Hne) as H2.
  pose proof (minOf_least l mn Hmn). pose proof (maxOf_greatest l mx Hmx).
  destruct (Hall _ H1), (Hall _ H2). split; lra.
Qed.

Lemma getColorForValue_extremes cs (l : list Q) mn mx v :
  mn ∈ l -> mx ∈ l ->
  (forall x, x ∈ l -> (mn <= x)%Q /\ (x <= mx)%Q) ->
  (mn < mx)%Q ->
  getColorForValue cs (Some v) l =
  interpolateColor (choroLow cs) (choroHigh cs) ((v - mn) / (mx - mn)).
Proof.
  intros Hmn Hmx Hall Hlt.
  destruct (bounds_of_extremes l mn mx Hmn Hmx Hall) as (mn' & mx' & Hb & E1 & E2).
  rewrite (getColorForValue_bounds _ _ _ _ v Hb).
  rewrite Qeq_bool_lt by lra.
  apply interpolateColor_comp. rewrite E1, E2. reflexivity.
Qed.


(** At position one half the channel is the mean of the two ends, halves
    rounded up. *)
Lemma mix_half a b : mix a b (1 # 2) = (a + b + 1) / 2.
Proof.
  unfold mix, Math_round.
  pose proof (Z.div_mod (a + b + 1) 2 ltac:(lia)) as Hdm.
  pose proof (Z.mod_pos_bound (a + b + 1) 2 ltac:(lia)) as Hm.
  set (z := (a + b + 1) / 2) in *.
  assert (Hlo : 2 * z <= a + b + 1) by lia.
  assert (Hhi : a + b + 1 < 2 * (z + 1)) by lia.
  rewrite Zle_Qle in Hlo. rewrite Zlt_Qlt in Hhi.
  rewrite !inject_Z_plus, !inject_Z_mult in Hlo, Hhi.
  rewrite inject_Z_plus in Hhi.
  change (inject_Z 1) with 1%Q in *. change (inject_Z 2) with 2%Q in *.
  unfold Zminus. rewrite inject_Z_plus, inject_Z_opp.
  apply Qfloor_unique.
  - lra.
  - rewrite inject_Z_plus. change (inject_Z 1) with 1%Q. lra.
Qed.

(** The printed colour is a [#] and six lower case hex digits. *)
Lemma interpolateColor_lower color1 color2 (t : Q) :
  (0 <= t)%Q -> (t <= 1)%Q ->
  is_lower_hex_color (interpolateColor color1 color2 t) = true.
Proof.
  intros Ht0 Ht1.
  rewrite interpolateColor_interpolated by done. unfold interpolated.
  destruct (channel_ranges color1) as (Hr1 & Hg1 & Hb1).
  destruct (channel_ranges color2) as (Hr2 & Hg2 & Hb2).
  apply rgb_string_lower; by apply mix_range.
Qed.

(** C1, as stated, fails for one of the two colour mappers it is about:
    with all values equal the class based copy returns the dimmed colour
    [#CCCCCC], not the midpoint [#7ca2ce] of the gradient. *)
Lemma degenerate_bounds_class_copy_dimmed :
  bounds [5%Q; 5%Q] = Some (5%Q, 5%Q) /\
  interpolateColor (choroLow defaultSettings) (choroHigh defaultSettings) (1 # 2)
    = "#7ca2ce"%string /\
  ClassVariant.getColorForValue defaultSettings (Some 5%Q) [5%Q; 5%Q]
    = "#CCCCCC"%string /\
  ClassVariant.getColorForValue defaultSettings (Some 5%Q) [5%Q; 5%Q] <>
  interpolateColor (choroLow defaultSettings) (choroHigh defaultSettings) (1 # 2).
Proof.
  split; [reflexivity|]. split; [vm_compute; reflexivity|].
  split; [vm_compute; reflexivity|]. vm_compute. discriminate.
Qed.

(** C1, amended.  When all values of the active metric are equal, so that
    the bounds are degenerate, [getColorForValue] of the script returns for
    every value the colour interpolated at position [1/2] between the low
    and the high colour: a [#] and six hex digits, each channel the mean of
    the two ends with a half rounded up.  The class based copy returns the
    dimmed colour instead.  Neither divides. *)
Theorem degenerate_bounds_midpoint cs allValues v :
  allValues <> [] ->
  (forall x y, x ∈ allValues -> y ∈ allValues -> (x == y)%Q) ->
  let c := getColorForValue cs (Some v) allValues in
  (exists mn mx, bounds allValues = Some (mn, mx) /\ (mn == mx)%Q) /\
  c = interpolateColor (choroLow cs) (choroHigh cs) (1 # 2) /\
  is_lower_hex_color c = true /\
  (forall channel, channel ∈ [redOf; greenOf; blueOf] ->
     channel c = (channel (choroLow cs) + channel (choroHigh cs) + 1) / 2) /\
  ClassVariant.getColorForValue cs (Some v) allValues = dimmed cs.
Proof.
  intros Hne Hall c.
  destruct (all_equal_degenerate _ Hne Hall) as (mn & mx & Hb & Heq).
  assert (E : Qeq_bool mx mn = true) by (apply Qeq_bool_iff; by symmetry).
  assert (Ec : c = interpolateColor (choroLow cs) (choroHigh cs) (1 # 2)).
  { subst c. rewrite (getColorForValue_bounds _ _ _ _ _ Hb). by rewrite E. }
  split; [by exists mn, mx|]. split; [done|]. rewrite Ec.
  split; [apply interpolateColor_lower; lra|]. split.
  - intros channel Hch.
    destruct (interpolateColor_channels (choroLow cs) (choroHigh cs) (1 # 2))
      as (Er & Eg & Eb); [lra | lra |].
    apply list_elem_of_In in Hch. simpl in Hch.
    destruct Hch as [<- | [<- | [<- | []]]];
      [rewrite Er | rewrite Eg | rewrite Eb]; apply mix_half.
  - apply bounds_Some in Hb as (_ & -> & ->).
    unfold ClassVariant.getColorForValue.
    destruct (length allValues =? 0)%nat; [done|]. by rewrite E.
Qed.

Lemma degenerate_bounds_midpoint_witness :
  [5%Q; 5%Q] <> [] /\
  (forall x y, x ∈ [5%Q; 5%Q] -> y ∈ [5%Q; 5%Q] -> (x == y)%Q) /\
  getColorForValue defaultSettings (Some 5%Q) [5%Q; 5%Q] = "#7ca2ce"%string /\
  redOf (getColorForValue defaultSettings (Some 5%Q) [5%Q; 5%Q])
    = (239 + 8 + 1) / 2 /\
  ClassVariant.getColorForValue defaultSettings (Some 5%Q) [5%Q; 5%Q]
    = "#CCCCCC"%string.
Proof.
  assert (Hall : forall x y, x ∈ [5%Q; 5%Q] -> y ∈ [5%Q; 5%Q] -> (x == y)%Q).
  { intros x y Hx Hy.
    repeat (apply elem_of_cons in Hx as [->|Hx]);
      repeat (apply elem_of_cons in Hy as [->|Hy]);
      first [reflexivity | by apply elem_of_nil in Hx
            | by apply elem_of_nil in Hy]. }
  pose proof (degenerate_bounds_midpoint defaultSettings [5%Q; 5%Q] 5
                ltac:(discriminate) Hall) as (_ & Ec & _ & Hch & Hclass).
  split; [discriminate|]. split; [exact Hall|].
  split; [etransitivity; [exact Ec | reflexivity]|].
  split; [exact (Hch redOf (list_elem_of_here _ _)) | exact Hclass].
Defined.

(** Every region that has a value is painted with the midpoint colour when
    all values of the metric are equal. *)
Lemma degenerate_dataset_midpoint cs
    (dataset : gmap string (gmap string Q)) metric colors key d v :
  (forall x y, x ∈ allValuesOf dataset metric ->
               y ∈ allValuesOf dataset metric -> (x == y)%Q) ->
  applyChoropleth cs dataset metric = Some colors ->
  dataset !! key = Some d -> d !! metric = Some v ->
  colors !! key = Some (interpolateColor (choroLow cs) (choroHigh cs) (1 # 2)).
Proof.
  intros Hall Happly Hd Hv. unfold applyChoropleth in Happly.
  destruct (length (allValuesOf dataset metric) =? 0)%nat eqn:El; [done|].
  injection Happly as <-. rewrite lookup_fmap, Hd. simpl. rewrite Hv.
  assert (Hne : allValuesOf dataset metric <> []).
  { intros E. rewrite E in El. discriminate. }
  destruct (all_equal_degenerate _ Hne Hall) as (mn & mx & Hb & Heq).
  rewrite (getColorForValue_bounds _ _ _ _ _ Hb).
  assert (E : Qeq_bool mx mn = true) by (apply Qeq_bool_iff; by symmetry).
  by rewrite E.
Qed.




(** The caller only passes values that lie between the bounds. *)
Lemma region_value_within_bounds (dataset : gmap string (gmap string Q))
    metric key d v mn mx :
  bounds (allValuesOf dataset metric) = Some (mn, mx) ->
  dataset !! key = Some d -> d !! metric = Some v ->
  (mn <= v)%Q /\ (v <= mx)%Q.
Proof.
  intros Hb Hd Hv. apply (bounds_enclose _ _ _ Hb).
  by apply (region_value_among_all dataset metric key d).
Qed.

(** C7.  Let [mn < mx] be the least and the greatest of the values,
    wherever they stand in the list, and let the gradient run between two
    well formed colours.  Then the bounds the mapper computes are [mn] and
    [mx], [mn] is painted with the low colour and [mx] with the high
    colour: the result is the colour's lower case spelling, hence the very
    string when the colour is stored in lower case.  For the two states
    with populations 39000000 (key 06) and 30000000 (key 48) and the
    gradient [#eff3ff] to [#08519c] the bounds are (30000000, 39000000),
    region 06 gets [#08519c] and region 48 gets [#eff3ff]. *)
Theorem bounds_round_trip cs allValues mn mx :
  mn ∈ allValues -> mx ∈ allValues ->
  (forall x, x ∈ allValues -> (mn <= x)%Q /\ (x <= mx)%Q) ->
  (mn < mx)%Q ->
  is_hex_color (choroLow cs) = true -> is_hex_color (choroHigh cs) = true ->
  (exists mn' mx', bounds allValues = Some (mn', mx') /\
                   (mn' == mn)%Q /\ (mx' == mx)%Q) /\
  (getColorForValue cs (Some mn) allValues = lower_string (choroLow cs) /\
   getColorForValue cs (Some mx) allValues = lower_string (choroHigh cs)) /\
  (is_lower_hex_color (choroLow cs) = true ->
   getColorForValue cs (Some mn) allValues = choroLow cs) /\
  (is_lower_hex_color (choroHigh cs) = true ->
   getColorForValue cs (Some mx) allValues = choroHigh cs) /\
  (bounds (allValuesOf scenarioStates "totalPopulation")
     = Some (30000000%Q, 39000000%Q) /\
   exists colors,
     applyChoropleth defaultSettings scenarioStates "totalPopulation"
       = Some colors /\
     colors !! "06"%string = Some "#08519c"%string /\
     colors !! "48"%string = Some "#eff3ff"%string).
Proof.
  intros Hmn Hmx Hall Hlt Hlow Hhigh.
  assert (Emin : getColorForValue cs (Some mn) allValues
                 = lower_string (choroLow cs)).
  { rewrite (getColorForValue_extremes cs _ mn mx mn) by done.
    rewrite (interpolateColor_comp _ _ _ 0 (normalized_at_min mn mx Hlt)).
    rewrite interpolateColor_interpolated by lra.
    rewrite <- (rgb_string_channels _ Hlow).
    unfold interpolated. by rewrite !mix_zero. }
  assert (Emax : getColorForValue cs (Some mx) allValues
                 = lower_string (choroHigh cs)).
  { rewrite (getColorForValue_extremes cs _ mn mx mx) by done.
    rewrite (interpolateColor_comp _ _ _ 1 (normalized_at_max mn mx Hlt)).
    rewrite interpolateColor_interpolated by lra.
    rewrite <- (rgb_string_channels _ Hhigh).
    unfold interpolated. by rewrite !mix_one. }
  split; [by apply bounds_of_extremes|].
  split; [done|]. split.
  { intros Hl. rewrite Emin. by apply lower_hex_color_fixed. }
  split.
  { intros Hl. rewrite Emax. by apply lower_hex_color_fixed. }
  split; [vm_compute; reflexivity|].
  eexists. split; [vm_compute; reflexivity|].
  split; vm_compute; reflexivity.
Qed.

Lemma bounds_round_trip_witness :
  30000000%Q ∈ [39000000%Q; 30000000%Q] /\
  39000000%Q ∈ [39000000%Q; 30000000%Q] /\
  (forall x, x ∈ [39000000%Q; 30000000%Q] ->
     (30000000 <= x)%Q /\ (x <= 39000000)%Q) /\
  (30000000 < 39000000)%Q /\
  is_hex_color (choroLow defaultSettings) = true /\
  is_hex_color (choroHigh defaultSettings) = true /\
  bounds [39000000%Q; 30000000%Q] = Some (30000000%Q, 39000000%Q) /\
  getColorForValue defaultSettings (Some 30000000%Q)
    [39000000%Q; 30000000%Q] = "#eff3ff"%string /\
  getColorForValue defaultSettings (Some 39000000%Q)
    [39000000%Q; 30000000%Q] = "#08519c"%string.
Proof.
  assert (Hall : forall x, x ∈ [39000000%Q; 30000000%Q] ->
                   (30000000 <= x)%Q /\ (x <= 39000000)%Q).
  { intros x Hx.
    repeat (apply elem_of_cons in Hx as [->|Hx]);
      first [by apply elem_of_nil in Hx | split; discriminate]. }
  assert (Hlo : 30000000%Q ∈ [39000000%Q; 30000000%Q])
    by apply list_elem_of_further, list_elem_of_here.
  assert (Hhi : 39000000%Q ∈ [39000000%Q; 30000000%Q])
    by apply list_elem_of_here.
  pose proof (bounds_round_trip defaultSettings [39000000%Q; 30000000%Q]
                30000000 39000000 Hlo Hhi Hall eq_refl eq_refl eq_refl)
    as (_ & _ & Emin & Emax & _).
  split; [exact Hlo|]. split; [exact Hhi|]. split; [exact Hall|].
  split; [reflexivity|]. split; [reflexivity|]. split; [reflexivity|].
  split; [reflexivity|].
  split; [apply Emin | apply Emax]; reflexivity.
Defined.

End ColorForValue.

(** ** Geo-key normalisation *)

Section GeoKeyFacts.
Context `{Coercions}.

Lemma fixed_decimal_length width n :
  String.length (fixed_decimal width n) = width.
Proof.
  revert n. induction width as [|w IH]; intros n; simpl; [done|].
  rewrite append_length, IH. simpl. lia.
Qed.

Lemma fixed_decimal_zero width : fixed_decimal width 0 = repeat_char "0" width.
Proof.
  induction width as [|w IH]; simpl; [done|].
  change (0 / 10) with 0. rewrite IH.
  change (String (digit_char (0 mod 10)) EmptyString) with (repeat_char "0" 1).
  rewrite <- repeat_char_add. by replace (w + 1)%nat with (S w) by lia.
Qed.

(** Padding the decimal digits of a code gives its fixed width form. *)
Lemma padStart_radix_digits width fuel n :
  0 <= n < 10 ^ Z.of_nat width -> n < 2 ^ Z.of_nat (S fuel) ->
  (1 <= width)%nat ->
  padStart width "0" (radix_digits 10 (S fuel) n) = fixed_decimal width n.
Proof.
  revert fuel n. induction width as [|w IH]; intros fuel n Hn Hfuel Hw; [lia|].
  destruct (Z.ltb_spec n 10) as [Hsmall|Hbig].
  - rewrite radix_digits_small by lia.
    simpl fixed_decimal.
    rewrite (Z.div_small n 10), (Z.mod_small n 10) by lia.
    rewrite fixed_decimal_zero.
    unfold padStart. simpl String.length.
    by replace (S w - 1)%nat with w by lia.
  - destruct fuel as [|fuel].
    { change (2 ^ Z.of_nat 1) with 2 in Hfuel. lia. }
    assert (Hdm := Z.div_mod n 10 ltac:(lia)).
    assert (Hm := Z.mod_pos_bound n 10 ltac:(lia)).
    assert (Hq : 0 < n / 10) by (apply Z.div_str_pos; lia).
    rewrite Nat2Z.inj_succ, Z.pow_succ_r in Hn, Hfuel by lia.
    replace n with (n / 10 * 10 + n mod 10) at 1 by lia.
    rewrite radix_digits_step by lia.
    rewrite padStart_snoc. simpl fixed_decimal. f_equal.
    apply IH.
    + split; [lia|]. apply Z.div_lt_upper_bound; lia.
    + apply Z.div_lt_upper_bound; lia.
    + destruct w; [|lia]. change (10 ^ Z.of_nat 0) with 1 in Hn. lia.
Qed.

(** [String(n)] for an integer within the exactly represented range. *)
Lemma ToString_integer n :
  Z.abs n <= 2 ^ 53 -> ToString (Num (Fin (inject_Z n))) = toString_radix 10 n.
Proof.
  intros Hn. unfold ToString, NumberToString, is_integer.
  rewrite Qcanon.Qred_identity by (simpl; apply Z.gcd_1_r).
  rewrite Qfloor_Z.
  assert (Hle : Qle_bool (Qabs (inject_Z n)) (inject_Z (2 ^ 53)) = true).
  { apply Qle_bool_iff. unfold Qle. simpl. lia. }
  rewrite Hle. reflexivity.
Qed.

Lemma padKey_number width n :
  (1 <= width)%nat -> 0 <= n < 10 ^ Z.of_nat width -> n <= 2 ^ 53 ->
  padKey width (Num (Fin (inject_Z n))) = fixed_decimal width n.
Proof.
  intros Hw Hn H53. unfold padKey.
  rewrite ToString_integer by lia.
  rewrite toString_radix_nonneg by lia.
  apply padStart_radix_digits; [done | apply log2_fuel; lia | done].
Qed.

Lemma padKey_padded width k n :
  (1 <= width)%nat -> 0 <= n < 10 ^ Z.of_nat width ->
  (k + String.length (toString_radix 10 n) <= width)%nat ->
  padKey width (Str (repeat_char "0" k +:+ toString_radix 10 n))
  = fixed_decimal width n.
Proof.
  intros Hw Hn Hk. unfold padKey. simpl ToString.
  rewrite padStart_zeros by done.
  rewrite toString_radix_nonneg by lia.
  apply padStart_radix_digits; [done | apply log2_fuel; lia | done].
Qed.

Lemma padKey_canonical width n :
  padKey width (Str (fixed_decimal width n)) = fixed_decimal width n.
Proof.
  unfold padKey. simpl ToString. apply padStart_full.
  by rewrite fixed_decimal_length.
Qed.

(** C8.  At a level whose keys have a fixed width (2 for states, 5 for
    counties and ZIP codes) a code given as a number, as its zero padded
    string, or as a string with fewer leading zeros, normalises to the same
    key: the decimal code written with exactly that many digits.  The number
    6 and the string 06 both give 06 at state level. *)
Theorem numeric_and_padded_keys_agree level width n :
  keyWidth level = Some width -> 0 <= n < 10 ^ Z.of_nat width ->
  regionKey level (Num (Fin (inject_Z n))) = fixed_decimal width n /\
  regionKey level (Str (fixed_decimal width n)) = fixed_decimal width n /\
  (forall k, (k + String.length (toString_radix 10 n) <= width)%nat ->
     regionKey level (Str (repeat_char "0" k +:+ toString_radix 10 n))
     = fixed_decimal width n) /\
  String.length (fixed_decimal width n) = width /\
  regionKey states (Num (Fin 6)) = "06"%string /\
  regionKey states (Str "06") = "06"%string.
Proof.
  intros Hlevel Hn.
  assert (Hw : (1 <= width)%nat /\ 10 ^ Z.of_nat width <= 2 ^ 53).
  { destruct level; simpl in Hlevel; inversion Hlevel; subst; split; try lia;
      vm_compute; discriminate. }
  destruct Hw as [Hw H53].
  assert (Hreg : forall id, regionKey level id = padKey width id).
  { intros id. destruct level; simpl in Hlevel; inversion Hlevel; subst;
      reflexivity. }
  rewrite !Hreg.
  split; [apply padKey_number; lia|].
  split; [apply padKey_canonical|].
  split; [intros k Hk; rewrite Hreg; by apply padKey_padded|].
  split; [apply fixed_decimal_length|].
  split.
  - change (Fin 6) with (Fin (inject_Z 6)). simpl regionKey.
    rewrite padKey_number;
      [reflexivity | lia | vm_compute; split; congruence | lia].
  - reflexivity.
Qed.

End GeoKeyFacts.

Lemma numeric_and_padded_keys_agree_witness :
  keyWidth counties = Some 5%nat /\ 0 <= 6037 < 10 ^ Z.of_nat 5 /\
  @regionKey demoCoercions counties (Num (Fin 6037)) = "06037"%string /\
  @regionKey demoCoercions counties (Str "06037") = "06037"%string.
Proof.
  split; [reflexivity|]. split; [lia|].
  pose proof (@numeric_and_padded_keys_agree demoCoercions counties 5%nat 6037
                eq_refl ltac:(lia)) as (Hnum & Hstr & _).
  split; [exact Hnum | exact Hstr].
Defined.

(** ** Records *)

Section ObjectFacts.

Lemma get_Some (o : obj) k v : o !! k = Some v -> get o k = v.
Proof. intros Hv. unfold get. by rewrite Hv. Qed.

Lemma get_None (o : obj) k : o !! k = None -> get o k = Undefined.
Proof. intros Hv. unfold get. by rewrite Hv. Qed.

Lemma get_union_Some (row item : obj) f v :
  row !! f = Some v -> get (row ∪ item) f = v.
Proof. intros Hv. unfold get. by rewrite (lookup_union_Some_l _ _ _ _ Hv). Qed.

Lemma get_union_None (row item : obj) f :
  row !! f = None -> get (row ∪ item) f = get item f.
Proof. intros Hv. unfold get. by rewrite lookup_union_r. Qed.

Lemma union_absorb (row item : obj) : row ∪ (row ∪ item) = row ∪ item.
Proof. by rewrite (assoc_L (∪)), (idemp_L (∪)). Qed.

Lemma strict_eq_Undefined v : strict_eq v Undefined = true <-> v = Undefined.
Proof. destruct v; simpl; split; congruence. Qed.

Lemma truthy_number_or_null v :
  is_number_or_null v = true -> truthy v = true ->
  exists q, v = Num (Fin q) /\ ~ (q == 0)%Q.
Proof.
  destruct v as [| | |[| | |q]| |]; simpl; try discriminate.
  intros _ Hq. exists q. split; [done|].
  intros Hz. apply Qeq_bool_iff in Hz. by rewrite Hz in Hq.
Qed.

(** [toFixed(1)] moves a number by at most one twentieth, onto a multiple
    of one tenth. *)
Lemma round_tenth_close (q : Q) : (Qabs (round_tenth q - q) <= 1 # 20)%Q.
Proof.
  apply Qabs_Qle_condition. unfold round_tenth.
  destruct (negative q).
  - pose proof (Qfloor_le (- q * 10 + (1 # 2))) as H1.
    pose proof (Qlt_floor (- q * 10 + (1 # 2))) as H2.
    rewrite inject_Z_plus in H2. change (inject_Z 1) with 1%Q in H2.
    set (z := inject_Z (Qfloor (- q * 10 + (1 # 2)))) in *.
    assert (E : (z / 10 == z * (1 # 10))%Q) by field.
    rewrite E. split; lra.
  - pose proof (Qfloor_le (q * 10 + (1 # 2))) as H1.
    pose proof (Qlt_floor (q * 10 + (1 # 2))) as H2.
    rewrite inject_Z_plus in H2. change (inject_Z 1) with 1%Q in H2.
    set (z := inject_Z (Qfloor (q * 10 + (1 # 2)))) in *.
    assert (E : (z / 10 == z * (1 # 10))%Q) by field.
    rewrite E. split; lra.
Qed.

Lemma round_tenth_tenths (q : Q) :
  exists z : Z, (round_tenth q * 10 == inject_Z z)%Q.
Proof.
  unfold round_tenth. destruct (negative q).
  - exists (- Qfloor (- q * 10 + (1 # 2))). rewrite inject_Z_opp. field.
  - exists (Qfloor (q * 10 + (1 # 2))). field.
Qed.

Lemma parseFloat_toFixed1_finite (q : Q) :
  (Qabs q < inject_Z (10 ^ 21))%Q ->
  parseFloat_toFixed1 (Fin q) = Fin (round_tenth q).
Proof.
  intros Hq. unfold parseFloat_toFixed1.
  destruct (Qle_bool (inject_Z (10 ^ 21)) (Qabs q)) eqn:E; [|done].
  apply Qle_bool_iff in E. lra.
Qed.

Lemma parseFloat_toFixed1_Fin q : exists q', parseFloat_toFixed1 (Fin q) = Fin q'.
Proof. unfold parseFloat_toFixed1. destruct (Qle_bool _ _); eauto. Qed.

End ObjectFacts.

(** ** Derived rates *)

Section DeriveFacts.
Context `{Coercions}.

Lemma lookup_deriveRate_ne field num den item k :
  k <> field -> deriveRate field num den item !! k = item !! k.
Proof.
  intros Hk. unfold deriveRate.
  destruct (_ && _); [by rewrite lookup_insert_ne | done].
Qed.

Lemma get_deriveRate_ne field num den item k :
  k <> field -> get (deriveRate field num den item) k = get item k.
Proof. intros Hk. unfold get. by rewrite lookup_deriveRate_ne. Qed.

Lemma rate_deriveRate field num den item num' den' :
  num' <> field -> den' <> field ->
  rate (deriveRate field num den item) num' den' = rate item num' den'.
Proof.
  intros Hn Hd. unfold rate. by rewrite !get_deriveRate_ne.
Qed.

(** The field after one guarded assignment. *)
Lemma lookup_deriveRate field num den item :
  deriveRate field num den item !! field =
  if strict_eq (get item field) Undefined
     && truthy (get item num) && truthy (get item den)
  then Some (Num (rate item num den)) else item !! field.
Proof.
  unfold deriveRate. destruct (_ && _); [by rewrite lookup_insert_eq | done].
Qed.

Lemma deriveRate_supplied field num den item v :
  item !! field = Some v -> v <> Undefined ->
  deriveRate field num den item = item.
Proof.
  intros Hv Hne. unfold deriveRate. rewrite (get_Some _ _ _ Hv).
  destruct (strict_eq v Undefined) eqn:E; [|done].
  by apply strict_eq_Undefined in E.
Qed.

Lemma deriveRate_falsy field num den item :
  truthy (get item num) = false \/ truthy (get item den) = false ->
  deriveRate field num den item = item.
Proof.
  intros [Hf|Hf]; unfold deriveRate; rewrite Hf;
    by rewrite ?andb_false_r.
Qed.

Lemma rate_finite item num den (a b : Q) :
  get item num = Num (Fin a) -> get item den = Num (Fin b) ->
  ~ (b == 0)%Q ->
  rate item num den = parseFloat_toFixed1 (Fin (a / b * 100)).
Proof.
  intros Ha Hb Hb0. unfold rate. rewrite Ha, Hb. simpl.
  destruct (Qeq_bool b 0) eqn:E; [by apply Qeq_bool_iff in E|].
  reflexivity.
Qed.

(** The stored rate lies on a multiple of one tenth and within one
    twentieth of the exact percentage. *)
Lemma rate_value item num den (a b : Q) :
  get item num = Num (Fin a) -> get item den = Num (Fin b) ->
  ~ (b == 0)%Q -> (Qabs (a / b * 100) < inject_Z (10 ^ 21))%Q ->
  exists (q : Q) (n : Z),
    rate item num den = Fin q /\
    (Qabs (q - inject_Z n / 10) <= rate_slack (a / b * 100))%Q /\
    (Qabs (inject_Z n / 10 - a / b * 100)
     <= (1 # 20) + rate_slack (a / b * 100))%Q.
Proof.
  intros Ha Hb Hb0 Hx.
  destruct (round_tenth_tenths (a / b * 100)) as [n Hn].
  exists (round_tenth (a / b * 100)), n.
  rewrite (rate_finite _ _ _ a b) by done.
  split; [by apply parseFloat_toFixed1_finite|].
  assert (Hs : (0 <= rate_slack (a / b * 100))%Q).
  { unfold rate_slack. apply Qle_shift_div_l; [reflexivity|].
    pose proof (Qabs_nonneg (a / b * 100)). lra. }
  assert (En : (inject_Z n / 10 == round_tenth (a / b * 100))%Q).
  { rewrite <- Hn. field. }
  set (w := (inject_Z n / 10)%Q) in *.
  pose proof (round_tenth_close (a / b * 100)) as Hc.
  apply Qabs_Qle_condition in Hc.
  split; apply Qabs_Qle_condition; split; lra.
Qed.

Lemma lookup_assignRate_ne field num den item k :
  k <> field -> ClassVariant.assignRate field num den item !! k = item !! k.
Proof.
  intros Hk. unfold ClassVariant.assignRate.
  destruct (_ && _); [by rewrite lookup_insert_ne | done].
Qed.

Lemma get_assignRate_ne field num den item k :
  k <> field -> get (ClassVariant.assignRate field num den item) k = get item k.
Proof. intros Hk. unfold get. by rewrite lookup_assignRate_ne. Qed.

Lemma lookup_assignRate field num den item :
  ClassVariant.assignRate field num den item !! field =
  if truthy (get item num) && truthy (get item den)
  then Some (Num (rate item num den)) else item !! field.
Proof.
  unfold ClassVariant.assignRate.
  destruct (_ && _); [by rewrite lookup_insert_eq | done].
Qed.

(** What each of the two loops leaves in a rate field. *)
Lemma lookup_deriveRates field num den item :
  (field, num, den) ∈ derivedRates ->
  deriveRates item !! field =
  if strict_eq (get item field) Undefined
     && truthy (get item num) && truthy (get item den)
  then Some (Num (rate item num den)) else item !! field.
Proof.
  intros Hin. unfold derivedRates in Hin.
  apply elem_of_cons in Hin as [[= -> -> ->]|Hin];
    [|apply list_elem_of_singleton in Hin as [= -> -> ->]];
    unfold deriveRates.
  - rewrite lookup_deriveRate_ne by done. apply lookup_deriveRate.
  - rewrite lookup_deriveRate, !get_deriveRate_ne, rate_deriveRate by done.
    by rewrite lookup_deriveRate_ne.
Qed.

Lemma lookup_calculateDerivedRates field num den item :
  (field, num, den) ∈ derivedRates ->
  ClassVariant.calculateDerivedRates item !! field =
  if truthy (get item num) && truthy (get item den)
  then Some (Num (rate item num den)) else item !! field.
Proof.
  intros Hin. unfold derivedRates in Hin.
  apply elem_of_cons in Hin as [[= -> -> ->]|Hin];
    [|apply list_elem_of_singleton in Hin as [= -> -> ->]];
    unfold ClassVariant.calculateDerivedRates.
  - rewrite lookup_assignRate_ne by done. apply lookup_assignRate.
  - rewrite lookup_assignRate, !get_assignRate_ne by done.
    rewrite lookup_assignRate_ne by done.
    unfold rate. by rewrite !get_assignRate_ne.
Qed.

(** C2, as stated, fails for one of the two loops it is about: the class
    based copy has no test for a supplied rate.  A record that supplies a
    vacancy rate of 9.9 beside the counts 123 and 1000 keeps it in the
    script and has it overwritten with 12.3 by [calculateDerivedRates]. *)
Lemma class_variant_overwrites_supplied_rate :
  suppliedRecord !! "vacancyRate"%string = Some (Num (Fin (99 # 10))) /\
  @deriveRates demoCoercions suppliedRecord !! "vacancyRate"%string
    = Some (Num (Fin (99 # 10))) /\
  @ClassVariant.calculateDerivedRates demoCoercions suppliedRecord
    !! "vacancyRate"%string = Some (Num (Fin (123 # 10))) /\
  @ClassVariant.calculateDerivedRates demoCoercions suppliedRecord
    !! "vacancyRate"%string <> suppliedRecord !! "vacancyRate"%string.
Proof.
  split; [vm_compute; reflexivity|]. split; [vm_compute; reflexivity|].
  split; [vm_compute; reflexivity|]. vm_compute. discriminate.
Qed.

(** C2, amended.  In the script a rate that the baseline record supplies
    is kept as it is, and a rate is derived only for a record that lacks
    it and has two truthy counts.  The derived number lies, up to the
    rounding of the double arithmetic ([rate_slack]), on a multiple of one
    tenth that is within one twentieth of
    [numerator / denominator * 100]: the percentage rounded to one decimal
    place.  No other field changes.  The class based copy assigns the rate
    whenever the two counts are truthy, over a supplied value too. *)
Theorem baseline_rates_take_precedence item :
  (forall field num den v, (field, num, den) ∈ derivedRates ->
     item !! field = Some v -> v <> Undefined ->
     deriveRates item !! field = Some v) /\
  (forall field num den, (field, num, den) ∈ derivedRates ->
     item !! field = None ->
     truthy (get item num) = true -> truthy (get item den) = true ->
     deriveRates item !! field = Some (Num (rate item num den))) /\
  (forall num den (a b : Q),
     get item num = Num (Fin a) -> get item den = Num (Fin b) ->
     ~ (b == 0)%Q -> (Qabs (a / b * 100) < inject_Z (10 ^ 21))%Q ->
     exists (q : Q) (n : Z),
       rate item num den = Fin q /\
       (Qabs (q - inject_Z n / 10) <= rate_slack (a / b * 100))%Q /\
       (Qabs (inject_Z n / 10 - a / b * 100)
        <= (1 # 20) + rate_slack (a / b * 100))%Q) /\
  (forall k, k <> "vacancyRate"%string -> k <> "homeownershipRate"%string ->
     deriveRates item !! k = item !! k /\
     ClassVariant.calculateDerivedRates item !! k = item !! k) /\
  (forall field num den, (field, num, den) ∈ derivedRates ->
     truthy (get item num) = true -> truthy (get item den) = true ->
     ClassVariant.calculateDerivedRates item !! field
     = Some (Num (rate item num den))).
Proof.
  split.
  { intros field num den v Hin Hv Hne.
    rewrite (lookup_deriveRates _ _ _ _ Hin), (get_Some _ _ _ Hv).
    destruct (strict_eq v Undefined) eqn:E; [|done].
    by apply strict_eq_Undefined in E. }
  split.
  { intros field num den Hin Hnone Hn Hd.
    by rewrite (lookup_deriveRates _ _ _ _ Hin), (get_None _ _ Hnone), Hn, Hd. }
  split; [apply rate_value|].
  split.
  { intros k H1 H2. split.
    - unfold deriveRates. by rewrite !lookup_deriveRate_ne.
    - unfold ClassVariant.calculateDerivedRates.
      by rewrite !lookup_assignRate_ne. }
  intros field num den Hin Hn Hd.
  by rewrite (lookup_calculateDerivedRates _ _ _ _ Hin), Hn, Hd.
Qed.

(** C10, amended.  When one of the two counts of a rate is falsy (zero,
    [null] or missing) neither the script nor the class based copy derives
    the rate, and the field stays as it was, absent if it was absent.  For
    a record whose two counts are numbers or [null], a value that either
    loop writes into a rate field comes from two finite counts that are
    not zero, so that no division by zero takes place, and the value is a
    finite number as long as the quotient stays below [10^300] in
    magnitude. *)
Theorem falsy_counts_derive_no_rate item :
  (forall field num den, (field, num, den) ∈ derivedRates ->
     truthy (get item num) = false \/ truthy (get item den) = false ->
     deriveRates item !! field = item !! field /\
     ClassVariant.calculateDerivedRates item !! field = item !! field) /\
  (forall k,
     item !! k = None \/ item !! k = Some Null \/
     (exists q, item !! k = Some (Num (Fin q)) /\ (q == 0)%Q) ->
     truthy (get item k) = false) /\
  (forall field num den v, (field, num, den) ∈ derivedRates ->
     is_number_or_null (get item num) = true ->
     is_number_or_null (get item den) = true ->
     deriveRates item !! field = Some v \/
     ClassVariant.calculateDerivedRates item !! field = Some v ->
     item !! field <> Some v ->
     exists a b : Q,
       get item num = Num (Fin a) /\ get item den = Num (Fin b) /\
       ~ (a == 0)%Q /\ ~ (b == 0)%Q /\
       ((Qabs (a / b) <= inject_Z (10 ^ 300))%Q -> exists q, v = Num (Fin q))).
Proof.
  split.
  { intros field num den Hin Hf.
    rewrite (lookup_deriveRates _ _ _ _ Hin),
      (lookup_calculateDerivedRates _ _ _ _ Hin).
    destruct Hf as [-> | ->]; by rewrite ?andb_false_r. }
  split.
  { intros k [Hk|[Hk|(q & Hk & Hq)]].
    - by rewrite (get_None _ _ Hk).
    - by rewrite (get_Some _ _ _ Hk).
    - rewrite (get_Some _ _ _ Hk). simpl.
      apply Qeq_bool_iff in Hq. by rewrite Hq. }
  intros field num den v Hin Nn Nd Hv Hne.
  assert (Hw : truthy (get item num) = true /\ truthy (get item den) = true /\
               v = Num (rate item num den)).
  { rewrite (lookup_deriveRates _ _ _ _ Hin),
      (lookup_calculateDerivedRates _ _ _ _ Hin) in Hv.
    destruct (truthy (get item num)), (truthy (get item den));
      rewrite ?andb_false_r, ?andb_true_r in Hv; simpl in Hv;
      try (destruct Hv; congruence).
    destruct (strict_eq (get item field) Undefined);
      destruct Hv as [Hv|Hv]; by simplify_eq. }
  destruct Hw as (Tn & Td & ->).
  destruct (truthy_number_or_null _ Nn Tn) as (a & Ea & Ha).
  destruct (truthy_number_or_null _ Nd Td) as (b & Eb & Hb).
  exists a, b. repeat (split; [done|]). intros _.
  rewrite (rate_finite item num den a b) by done.
  destruct (parseFloat_toFixed1_Fin (a / b * 100)) as [q ->]. by exists q.
Qed.

End DeriveFacts.

Lemma baseline_rates_take_precedence_witness :
  ("homeownershipRate", "ownerOccupied", "occupiedUnits")%string
    ∈ derivedRates /\
  censusRecord !! "homeownershipRate"%string = Some (Num (Fin 65)) /\
  Num (Fin 65) <> Undefined /\
  @deriveRates demoCoercions censusRecord !! "homeownershipRate"%string
    = Some (Num (Fin 65)) /\
  get censusRecord "vacantUnits" = Num (Fin 123) /\
  get censusRecord "totalHousingUnits" = Num (Fin 1000) /\
  ~ (1000 == 0)%Q /\ (Qabs (123 / 1000 * 100) < inject_Z (10 ^ 21))%Q /\
  exists (q : Q) (n : Z),
    @rate demoCoercions censusRecord "vacantUnits" "totalHousingUnits" = Fin q /\
    (Qabs (q - inject_Z n / 10) <= rate_slack (123 / 1000 * 100))%Q /\
    (Qabs (inject_Z n / 10 - 123 / 1000 * 100)
     <= (1 # 20) + rate_slack (123 / 1000 * 100))%Q.
Proof.
  assert (Hin : ("homeownershipRate", "ownerOccupied", "occupiedUnits")%string
                  ∈ derivedRates)
    by apply list_elem_of_further, list_elem_of_here.
  pose proof (@baseline_rates_take_precedence demoCoercions censusRecord)
    as (Hkept & _ & Hvalue & _).
  split; [exact Hin|]. split; [reflexivity|]. split; [discriminate|].
  split; [exact (Hkept _ _ _ _ Hin eq_refl ltac:(discriminate))|].
  split; [reflexivity|]. split; [reflexivity|].
  split; [discriminate|]. split; [reflexivity|].
  apply (Hvalue "vacantUnits"%string "totalHousingUnits"%string 123%Q 1000%Q);
    [reflexivity | reflexivity | discriminate | reflexivity].
Defined.

(** C10, as stated, fails: the guard tests truthiness, not the type.  A
    count that the document gives as text is truthy: with [5] vacant units
    of ["0"] units the loop divides by zero and stores [Infinity], and
    with ["n/a"] vacant units it stores [NaN]; the class based copy does
    the same. *)
Lemma textual_count_stores_infinity :
  truthy (get zeroUnitsAsText "totalHousingUnits") = true /\
  zeroUnitsAsText !! "vacancyRate"%string = None /\
  @deriveRates textCoercions zeroUnitsAsText !! "vacancyRate"%string
    = Some (Num PosInf) /\
  @ClassVariant.calculateDerivedRates textCoercions zeroUnitsAsText
    !! "vacancyRate"%string = Some (Num PosInf) /\
  @deriveRates textCoercions unknownVacancies !! "vacancyRate"%string
    = Some (Num NaN) /\
  @ClassVariant.calculateDerivedRates textCoercions unknownVacancies
    !! "vacancyRate"%string = Some (Num NaN).
Proof. repeat split; vm_compute; reflexivity. Qed.

Lemma falsy_counts_derive_no_rate_witness :
  ("vacancyRate", "vacantUnits", "totalHousingUnits")%string ∈ derivedRates /\
  truthy (get noVacancies "vacantUnits") = false /\
  @deriveRates demoCoercions noVacancies !! "vacancyRate"%string = None /\
  is_number_or_null (get censusRecord "vacantUnits") = true /\
  is_number_or_null (get censusRecord "totalHousingUnits") = true /\
  @deriveRates demoCoercions censusRecord !! "vacancyRate"%string
    = Some (Num (Fin (123 # 10))) /\
  censusRecord !! "vacancyRate"%string <> Some (Num (Fin (123 # 10))) /\
  exists a b : Q,
    get censusRecord "vacantUnits" = Num (Fin a) /\
    get censusRecord "totalHousingUnits" = Num (Fin b) /\
    ~ (a == 0)%Q /\ ~ (b == 0)%Q.
Proof.
  assert (Hin : ("vacancyRate", "vacantUnits", "totalHousingUnits")%string
                  ∈ derivedRates) by apply list_elem_of_here.
  pose proof (@falsy_counts_derive_no_rate demoCoercions noVacancies)
    as (Hfalsy & _).
  pose proof (@falsy_counts_derive_no_rate demoCoercions censusRecord)
    as (_ & _ & Hstored).
  assert (Ev : @deriveRates demoCoercions censusRecord !! "vacancyRate"%string
               = Some (Num (Fin (123 # 10)))) by (vm_compute; reflexivity).
  assert (Hne : censusRecord !! "vacancyRate"%string
                <> Some (Num (Fin (123 # 10)))) by discriminate.
  split; [exact Hin|]. split; [reflexivity|].
  split.
  { destruct (Hfalsy _ _ _ Hin (or_introl eq_refl)) as [E _].
    etransitivity; [exact E | reflexivity]. }
  split; [reflexivity|]. split; [reflexivity|].
  split; [exact Ev|]. split; [exact Hne|].
  destruct (Hstored _ _ _ _ Hin eq_refl eq_refl (or_introl Ev) Hne)
    as (a & b & Ea & Eb & Ha & Hb & _).
  by exists a, b.
Defined.

(** ** Latest snapshot of an aggregated overlay *)

Section LoaderFacts.
Context `{Coercions}.

Lemma latestPeriod_snoc rows row :
  latestPeriod (rows ++ [row]) = latestStep (latestPeriod rows) row.
Proof. unfold latestPeriod. by rewrite foldl_snoc. Qed.

Lemma string_periods_snoc rows row :
  string_periods (rows ++ [row]) = true ->
  string_periods rows = true /\ period_is_string row = true.
Proof.
  unfold string_periods. rewrite forallb_app. simpl. rewrite andb_true_r.
  apply andb_prop.
Qed.

Lemma period_is_string_truthy row :
  period_is_string row = true -> truthy (get row "PERIOD_END") = true ->
  exists p, get row "PERIOD_END" = Str p /\ p <> EmptyString.
Proof.
  unfold period_is_string.
  destruct (get row "PERIOD_END") as [| |b|n|p|r] eqn:E; intros Hs Ht;
    try (rewrite Ht in Hs; discriminate Hs); try discriminate Ht.
  exists p. split; [done|]. intros ->. discriminate Ht.
Qed.

Lemma falsy_period_string row q :
  truthy (get row "PERIOD_END") = false -> get row "PERIOD_END" = Str q ->
  q = EmptyString.
Proof.
  intros Ht Hq. rewrite Hq in Ht. simpl in Ht.
  by apply negb_false_iff, String.eqb_eq in Ht.
Qed.

Lemma ltb_empty (l : string) : String.ltb l EmptyString = false.
Proof. by destruct l. Qed.

(** With string periods, the first pass ends on the greatest period of all
    rows, whatever their category, or on [null] when no row has a period. *)
Lemma latestPeriod_strings rows :
  string_periods rows = true ->
  (latestPeriod rows = Null /\
   forall row, row ∈ rows -> truthy (get row "PERIOD_END") = false) \/
  (exists l, latestPeriod rows = Str l /\ l <> EmptyString /\
     (exists row, row ∈ rows /\ get row "PERIOD_END" = Str l) /\
     forall row p, row ∈ rows -> get row "PERIOD_END" = Str p ->
                   String.ltb l p = false).
Proof.
  induction rows as [|row rows IH] using rev_ind; intros Hstr.
  - left. split; [done|]. intros row Hrow. by apply elem_of_nil in Hrow.
  - apply string_periods_snoc in Hstr as [Hstr Hrow].
    specialize (IH Hstr).
    rewrite latestPeriod_snoc. unfold latestStep.
    destruct (truthy (get row "PERIOD_END")) eqn:T.
    + destruct (period_is_string_truthy row Hrow T) as (p & Hp & Hpne).
      rewrite Hp.
      destruct IH as [[-> Hnone]|(l & -> & Hl & (r0 & Hr0 & Er0) & Hmax)].
      * simpl. right. exists p. split; [done|]. split; [done|]. split.
        { exists row. split; [apply elem_of_app; right; left | done]. }
        intros r q Hr Hq. apply elem_of_app in Hr as [Hr|Hr].
        -- rewrite (falsy_period_string r q (Hnone r Hr) Hq).
           apply ltb_empty.
        -- apply list_elem_of_singleton in Hr as ->.
           rewrite Hp in Hq. inversion Hq; subst. apply ltb_irrefl.
      * assert (Tl : truthy (Str l) = true).
        { simpl. apply negb_true_iff. by apply String.eqb_neq. }
        rewrite Tl. simpl negb. simpl orb. simpl andb.
        change (gt (Str p) (Str l)) with (String.ltb l p).
        destruct (String.ltb l p) eqn:Elp.
        -- right. exists p. split; [done|]. split; [done|]. split.
           { exists row. split; [apply elem_of_app; right; left | done]. }
           intros r q Hr Hq. apply elem_of_app in Hr as [Hr|Hr].
           ++ apply (ltb_later l); [by apply (Hmax r) | done].
           ++ apply list_elem_of_singleton in Hr as ->.
              rewrite Hp in Hq. inversion Hq; subst. apply ltb_irrefl.
        -- right. exists l. split; [done|]. split; [done|]. split.
           { exists r0. split; [apply elem_of_app; by left | done]. }
           intros r q Hr Hq. apply elem_of_app in Hr as [Hr|Hr].
           ++ by apply (Hmax r).
           ++ apply list_elem_of_singleton in Hr as ->.
              rewrite Hp in Hq. by inversion Hq; subst.
    + simpl.
      destruct IH as [[-> Hnone]|(l & -> & Hl & (r0 & Hr0 & Er0) & Hmax)].
      * left. split; [done|]. intros r Hr.
        apply elem_of_app in Hr as [Hr|Hr]; [by apply Hnone|].
        by apply list_elem_of_singleton in Hr as ->.
      * right. exists l. split; [done|]. split; [done|]. split.
        { exists r0. split; [apply elem_of_app; by left | done]. }
        intros r q Hr Hq.
        apply elem_of_app in Hr as [Hr|Hr]; [by apply (Hmax r)|].
        apply list_elem_of_singleton in Hr as ->.
        rewrite (falsy_period_string row q T Hq). apply ltb_empty.
Qed.

(** What the second pass leaves under a key. *)
Lemma storeStep_fold_lookup keyField latest rows (table : gmap string obj) k :
  foldl (storeStep keyField latest) table rows !! k =
  match last (filter (retained keyField latest k) rows) with
  | Some row => Some row
  | None => table !! k
  end.
Proof.
  revert table. induction rows as [|row rows IH]; intros table; [done|].
  simpl foldl. rewrite IH. rewrite filter_cons. unfold storeStep.
  destruct (selected keyField latest row) eqn:S.
  - destruct (decide (ToString (get row keyField) = k)) as [E|E].
    + rewrite decide_True by done.
      rewrite last_cons. destruct (last _); [done|].
      by rewrite E, lookup_insert_eq.
    + rewrite decide_False by (intros [_ ?]; done).
      destruct (last _); [done|]. by rewrite lookup_insert_ne.
  - rewrite decide_False by (intros [? _]; congruence). done.
Qed.

(** C4, amended.  For an aggregated overlay (state, county, metro) the row
    kept under a key is the last row, in document order, whose [PERIOD_END]
    equals the latest period of the source, whose [PROPERTY_TYPE] is
    [All Residential] and whose key field is truthy and names that key;
    every other row is dropped.  The latest period is taken over all rows of
    the source, whatever their category: with string periods it is a period
    of some row that no row exceeds, or [null] when no row has a period. *)
Theorem latest_snapshot_selection keyField rows k :
  loadLatest keyField rows ∅ !! k =
    last (filter (retained keyField (latestPeriod rows) k) rows) /\
  (string_periods rows = true ->
   (latestPeriod rows = Null /\
    forall row, row ∈ rows -> truthy (get row "PERIOD_END") = false) \/
   (exists l, latestPeriod rows = Str l /\ l <> EmptyString /\
      (exists row, row ∈ rows /\ get row "PERIOD_END" = Str l) /\
      forall row p, row ∈ rows -> get row "PERIOD_END" = Str p ->
                    String.ltb l p = false)).
Proof.
  split; [|apply latestPeriod_strings].
  unfold loadLatest. rewrite storeStep_fold_lookup, lookup_empty.
  by destruct (last _).
Qed.

End LoaderFacts.

(** C4, as stated, fails: the latest period is not taken within the category
    of interest.  When the most recent period of the source only has rows
    of another category, no row is kept, although the category of interest
    has rows for its own most recent period. *)
Lemma latest_period_ignores_category :
  let rows := [allResidentialJune; condoJuly] in
  Spec.snapshot "All Residential" rows = [allResidentialJune] /\
  @latestPeriod demoCoercions rows = Str "2025-07-01" /\
  map_to_list (@loadStateRows demoCoercions rows ∅) = [] /\
  (map_to_list (@loadStateRows demoCoercions rows ∅)).*2 <>
  Spec.snapshot "All Residential" rows.
Proof.
  split; [vm_compute; reflexivity|]. split; [vm_compute; reflexivity|].
  split; [vm_compute; reflexivity|]. vm_compute. discriminate.
Qed.

Lemma latest_snapshot_selection_witness :
  string_periods [allResidentialMay; allResidentialJune] = true /\
  @loadStateRows demoCoercions [allResidentialMay; allResidentialJune] ∅
    !! "CA"%string = Some allResidentialJune /\
  ((@latestPeriod demoCoercions [allResidentialMay; allResidentialJune] = Null /\
    forall row, row ∈ [allResidentialMay; allResidentialJune] ->
                truthy (get row "PERIOD_END") = false) \/
   (exists l,
      @latestPeriod demoCoercions [allResidentialMay; allResidentialJune]
        = Str l /\ l <> EmptyString /\
      (exists row, row ∈ [allResidentialMay; allResidentialJune] /\
                   get row "PERIOD_END" = Str l) /\
      forall row p, row ∈ [allResidentialMay; allResidentialJune] ->
                    get row "PERIOD_END" = Str p -> String.ltb l p = false)).
Proof.
  pose proof (@latest_snapshot_selection demoCoercions "STATE_CODE"
                [allResidentialMay; allResidentialJune] "CA")
    as [Hlookup Hlatest].
  split; [reflexivity|]. split.
  - unfold loadStateRows. rewrite Hlookup. vm_compute. reflexivity.
  - apply Hlatest. reflexivity.
Defined.

(** The ZIP overlay is stored without a period or category test. *)
Lemma zip_overlay_keeps_every_row :
  let rows := [record [("ZIP", Num (Fin 2134)); ("PERIOD_END", Str "2025-05-01");
                       ("PROPERTY_TYPE", Str "Condo/Co-op")]%string] in
  dom (@loadZipRows demoCoercions rows ∅) = {["02134"%string]}.
Proof. vm_compute. reflexivity. Qed.

(** ** Merging the overlays into the records *)

Section MergeFacts.
Context `{Coercions}.

Lemma mergeRecord_empty codeOf item : mergeRecord codeOf ∅ item = item.
Proof.
  unfold mergeRecord. destruct (truthy _); [|done]. by rewrite lookup_empty.
Qed.

(** The emptiness guard of a merge loop only saves work. *)
Lemma mergeLevel_fmap codeOf table (dataset : gmap string obj) :
  mergeLevel codeOf table dataset = mergeRecord codeOf table <$> dataset.
Proof.
  unfold mergeLevel.
  destruct (Nat.ltb_spec 0 (size table)) as [Hs|Hs]; [done|].
  assert (table = ∅) as -> by (apply map_size_empty_iff; lia).
  apply map_eq. intros k. rewrite lookup_fmap.
  destruct (dataset !! k); simpl; [by rewrite mergeRecord_empty | done].
Qed.

Lemma mergeLevel_dom codeOf table (dataset : gmap string obj) :
  dom (mergeLevel codeOf table dataset) = dom dataset.
Proof. rewrite mergeLevel_fmap. apply dom_fmap_L. Qed.

Lemma mergeLevel_lookup codeOf table (dataset : gmap string obj) k :
  mergeLevel codeOf table dataset !! k
  = mergeRecord codeOf table <$> dataset !! k.
Proof. by rewrite mergeLevel_fmap, lookup_fmap. Qed.

Lemma unjoinable_lookup codeOf (dataset : gmap string obj) k key item :
  unjoinable codeOf dataset k = true -> dataset !! key = Some item ->
  truthy (codeOf item) = true -> ToString (codeOf item) <> k.
Proof.
  intros Hun Hitem Ht Hk. unfold unjoinable in Hun.
  rewrite forallb_forall in Hun.
  assert (Hin : In (key, item) (map_to_list dataset)).
  { apply list_elem_of_In. by apply elem_of_map_to_list. }
  specialize (Hun _ Hin). simpl in Hun.
  rewrite Ht, Hk, String.eqb_refl in Hun. discriminate.
Qed.

Lemma mergeLevel_unjoinable codeOf table dataset k :
  unjoinable codeOf dataset k = true ->
  mergeLevel codeOf (delete k table) dataset = mergeLevel codeOf table dataset.
Proof.
  intros Hun. apply map_eq. intros key. rewrite !mergeLevel_lookup.
  destruct (dataset !! key) as [item|] eqn:E; simpl; [|done].
  f_equal. unfold mergeRecord.
  destruct (truthy (codeOf item)) eqn:T; [|done].
  rewrite lookup_delete_ne; [done|].
  intros Hk. by apply (unjoinable_lookup codeOf dataset k key item).
Qed.

(** C5.  A merge leaves the set of region keys of every level as it was,
    and an overlay row whose key no record refers to has no effect at all:
    the merge gives the same records with and without that row. *)
Theorem unjoinable_rows_leave_records_alone rf ed :
  (dom (ed_states (mergeRedfinIntoEconomicData rf ed)) = dom (ed_states ed) /\
   dom (ed_counties (mergeRedfinIntoEconomicData rf ed))
     = dom (ed_counties ed) /\
   dom (ed_cbsas (mergeRedfinIntoEconomicData rf ed)) = dom (ed_cbsas ed)) /\
  (forall ks kc kb,
     unjoinable stateCode (ed_states ed) ks = true ->
     unjoinable countyFips (ed_counties ed) kc = true ->
     unjoinable cbsaCode (ed_cbsas ed) kb = true ->
     mergeRedfinIntoEconomicData (withoutRows ks kc kb rf) ed =
     mergeRedfinIntoEconomicData rf ed).
Proof.
  split.
  - unfold mergeRedfinIntoEconomicData. simpl.
    by rewrite !mergeLevel_dom.
  - intros ks kc kb Hs Hc Hb. unfold mergeRedfinIntoEconomicData. simpl.
    by rewrite !mergeLevel_unjoinable.
Qed.

Lemma self_keyed_lookup fields table k row f v :
  self_keyed fields table = true -> table !! k = Some row ->
  f ∈ fields -> row !! f = Some v ->
  truthy v = true /\ ToString v = k.
Proof.
  intros Hs Hk Hf Hv. unfold self_keyed in Hs.
  rewrite forallb_forall in Hs.
  assert (Hin : In (k, row) (map_to_list table)).
  { apply list_elem_of_In. by apply elem_of_map_to_list. }
  specialize (Hs _ Hin). simpl in Hs. unfold row_self_keyed in Hs.
  rewrite forallb_forall in Hs.
  assert (Hinf : In f fields) by (by apply list_elem_of_In).
  specialize (Hs f Hinf). rewrite Hv in Hs.
  apply andb_prop in Hs as [Ht He].
  split; [done|]. by apply String.eqb_eq.
Qed.

(** Copying a row whose cross-reference fields hold its own key does not
    change the key a record refers to. *)
Lemma first_truthy_union fields (row item : obj) k c :
  (forall f v, f ∈ fields -> row !! f = Some v ->
               truthy v = true /\ ToString v = k) ->
  first_truthy item fields = Some c -> ToString c = k ->
  exists c', first_truthy (row ∪ item) fields = Some c' /\
             truthy c' = true /\ ToString c' = k.
Proof.
  induction fields as [|f rest IH]; intros Hrow Hfirst Hc; [done|].
  simpl in *.
  destruct (row !! f) as [v|] eqn:Ev.
  - destruct (Hrow f v) as [Tv Kv]; [left | done |].
    rewrite (get_union_Some _ _ _ _ Ev), Tv. eauto.
  - rewrite (get_union_None _ _ _ Ev).
    destruct (truthy (get item f)) eqn:T.
    + inversion Hfirst; subst. eauto.
    + apply IH; [|done|done]. intros f' v' Hf'. apply Hrow. by right.
Qed.

Lemma stateCode_first : picks_first stateCode stateXrefs.
Proof.
  intros item. unfold stateCode, js_or. simpl.
  destruct (truthy (get item "stateCode")); [done|].
  destruct (truthy (get item "STATE_CODE")) eqn:E; done.
Qed.

Lemma countyFips_first : picks_first countyFips countyXrefs.
Proof.
  intros item. unfold countyFips, js_or. simpl.
  destruct (truthy (get item "fips")) eqn:E1; simpl; rewrite ?E1; [done|].
  destruct (truthy (get item "FIPS")) eqn:E2; simpl; rewrite ?E2; [done|].
  destruct (truthy (get item "geoid")) eqn:E3; simpl; rewrite ?E3; [done|].
  destruct (truthy (get item "GEOID")) eqn:E4; done.
Qed.

Lemma cbsaCode_first : picks_first cbsaCode cbsaXrefs.
Proof.
  intros item. unfold cbsaCode, js_or. simpl.
  destruct (truthy (get item "cbsaCode")) eqn:E1; simpl; rewrite ?E1; [done|].
  destruct (truthy (get item "CBSA_CODE")) eqn:E2; simpl; rewrite ?E2; [done|].
  destruct (truthy (get item "geoid")) eqn:E3; simpl; rewrite ?E3; [done|].
  destruct (truthy (get item "GEOID")) eqn:E4; done.
Qed.

Lemma mergeRecord_idempotent codeOf fields table item :
  picks_first codeOf fields -> self_keyed fields table = true ->
  mergeRecord codeOf table (mergeRecord codeOf table item) =
  mergeRecord codeOf table item.
Proof.
  intros Hpick Hself. unfold mergeRecord at 2.
  destruct (truthy (codeOf item)) eqn:T; [|by unfold mergeRecord; rewrite T].
  destruct (table !! ToString (codeOf item)) as [row|] eqn:Erow;
    [|by unfold mergeRecord; rewrite T, Erow].
  pose proof (Hpick item) as Hitem.
  destruct (first_truthy item fields) as [c|] eqn:Ef; [|congruence].
  subst c.
  destruct (first_truthy_union fields row item (ToString (codeOf item))
              (codeOf item))
    as (c' & Ef' & Tc' & Kc'); [|done|done|].
  { intros f v Hf Hv. by apply (self_keyed_lookup fields table _ row f v). }
  pose proof (Hpick (row ∪ item)) as Hunion. rewrite Ef' in Hunion.
  unfold mergeRecord. rewrite Hunion, Tc', Kc', T, Erow.
  apply union_absorb.
Qed.

Lemma mergeLevel_idempotent codeOf fields table dataset :
  picks_first codeOf fields -> self_keyed fields table = true ->
  mergeLevel codeOf table (mergeLevel codeOf table dataset) =
  mergeLevel codeOf table dataset.
Proof.
  intros Hpick Hself. rewrite !mergeLevel_fmap, <- map_fmap_compose.
  apply map_fmap_ext. intros k item _. simpl.
  by apply (mergeRecord_idempotent codeOf fields).
Qed.

(** C6, amended.  Merging the same overlay tables a second time changes no
    field of any record, provided every cross-reference field that an
    overlay row carries ([stateCode], [STATE_CODE]; [fips], [FIPS], [geoid],
    [GEOID]; [cbsaCode], [CBSA_CODE], [geoid], [GEOID]) holds the key the
    row is stored under. *)
Theorem merge_twice_same_as_once rf ed :
  self_keyed stateXrefs (redfinStateData rf) = true ->
  self_keyed countyXrefs (redfinCountyData rf) = true ->
  self_keyed cbsaXrefs (redfinCbsaData rf) = true ->
  mergeRedfinIntoEconomicData rf (mergeRedfinIntoEconomicData rf ed) =
  mergeRedfinIntoEconomicData rf ed.
Proof.
  intros Hs Hc Hb. unfold mergeRedfinIntoEconomicData. simpl.
  rewrite (mergeLevel_idempotent _ _ _ _ stateCode_first Hs).
  rewrite (mergeLevel_idempotent _ _ _ _ countyFips_first Hc).
  by rewrite (mergeLevel_idempotent _ _ _ _ cbsaCode_first Hb).
Qed.

End MergeFacts.

Lemma unjoinable_rows_leave_records_alone_witness :
  @unjoinable demoCoercions stateCode (ed_states oneState) "TX" = true /\
  @unjoinable demoCoercions countyFips (ed_counties oneState) "06037" = true /\
  @unjoinable demoCoercions cbsaCode (ed_cbsas oneState) "31080" = true /\
  @mergeRedfinIntoEconomicData demoCoercions
    (withoutRows "TX" "06037" "31080" (tablesOf [allResidentialJune; texasJune]))
    oneState =
  @mergeRedfinIntoEconomicData demoCoercions
    (tablesOf [allResidentialJune; texasJune]) oneState /\
  dom (ed_states (@mergeRedfinIntoEconomicData demoCoercions
                    (tablesOf [allResidentialJune; texasJune]) oneState))
  = dom (ed_states oneState).
Proof.
  pose proof (@unjoinable_rows_leave_records_alone demoCoercions
                (tablesOf [allResidentialJune; texasJune]) oneState)
    as [[Hdom _] Hsame].
  split; [reflexivity|]. split; [reflexivity|]. split; [reflexivity|].
  split; [apply Hsame; reflexivity | exact Hdom].
Defined.

(** C6, as stated, fails: an overlay row that carries a cross-reference
    field of its own redirects the second merge.  The record of key 06
    refers to CA; the row stored under CA carries [stateCode: "TX"], which
    the first merge copies onto the record, so the second merge copies the
    row of TX. *)
Lemma second_merge_follows_copied_reference :
  let tables := tablesOf [redirectingJune; texasJune] in
  let once := @mergeRedfinIntoEconomicData demoCoercions tables oneState in
  let twice := @mergeRedfinIntoEconomicData demoCoercions tables once in
  salePrice once = Some (Num (Fin 800000)) /\
  salePrice twice = Some (Num (Fin 300000)) /\
  twice <> once.
Proof.
  split; [vm_compute; reflexivity|]. split; [vm_compute; reflexivity|].
  intros Heq. apply (f_equal salePrice) in Heq. vm_compute in Heq.
  discriminate.
Qed.

Lemma merge_twice_same_as_once_witness :
  let tables := tablesOf [allResidentialMay; allResidentialJune; texasJune] in
  @self_keyed demoCoercions stateXrefs (redfinStateData tables) = true /\
  @self_keyed demoCoercions countyXrefs (redfinCountyData tables) = true /\
  @self_keyed demoCoercions cbsaXrefs (redfinCbsaData tables) = true /\
  @mergeRedfinIntoEconomicData demoCoercions tables
    (@mergeRedfinIntoEconomicData demoCoercions tables oneState) =
  @mergeRedfinIntoEconomicData demoCoercions tables oneState /\
  salePrice (@mergeRedfinIntoEconomicData demoCoercions tables oneState)
    = Some (Num (Fin 800000)).
Proof.
  split; [vm_compute; reflexivity|]. split; [reflexivity|].
  split; [reflexivity|]. split.
  - apply (@merge_twice_same_as_once demoCoercions);
      first [reflexivity | vm_compute; reflexivity].
  - vm_compute. reflexivity.
Defined.

(** The scenario of the specification: the overlay row of CA lands on the
    record keyed 06 through its [stateCode], and the fields the record had
    are still there. *)
Lemma scenario_overlay_lands_on_record :
  let merged := @mergeRedfinIntoEconomicData demoCoercions
                  (tablesOf [allResidentialJune]) oneState in
  salePrice merged = Some (Num (Fin 800000)) /\
  (item ← ed_states merged !! "06"%string; item !! "name"%string)
    = Some (Str "California").
Proof. split; vm_compute; reflexivity. Qed.

(** ** The loading sequence *)

Section TaskFacts.

Lemma safe_ret {A} (a : A) : safe (ret a).
Proof. intros st. by exists st, a. Qed.



(** A [try] whose handler completes normally completes normally. *)
Lemma safe_try_catch {A} (body handler : Task A) :
  safe handler -> safe (try_catch body handler).
Proof.
  intros Hh st. unfold try_catch.
  destruct (body st) as [st' [a|]]; [by exists st', a | apply Hh].
Qed.


Lemma bind_normal {A B} (m : Task A) (k : A -> Task B) st st' a :
  m st = (st', Normal a) -> (m ≫= k) st = k a st'.
Proof. intros E. unfold mbind, task_bind, bind. by rewrite E. Qed.

Lemma bind_throw {A B} (m : Task A) (k : A -> Task B) st st' :
  m st = (st', Throw) -> (m ≫= k) st = (st', Throw).
Proof. intros E. unfold mbind, task_bind, bind. by rewrite E. Qed.

Lemma keeps_ret P {A} (a : A) : keeps P (ret a).
Proof. by intros st. Qed.

Lemma keeps_throw P {A} : keeps P (@throw A).
Proof. by intros st. Qed.

Lemma keeps_bind P {A B} (Q : A -> Prop) (m : Task A) (k : A -> Task B) :
  keeps P m -> returns Q m -> (forall a, Q a -> keeps P (k a)) ->
  keeps P (m ≫= k).
Proof.
  intros Hm Hr Hk st HP. unfold mbind, task_bind, bind.
  specialize (Hm st HP). destruct (m st) as [st' [a|]] eqn:E; [|done].
  apply (Hk a); [by eapply Hr | done].
Qed.

Lemma keeps_seq P {A B} (m : Task A) (k : Task B) :
  keeps P m -> keeps P k -> keeps P (m ≫= λ _, k).
Proof.
  intros Hm Hk. apply (keeps_bind P (λ _, True)); [done | done | auto].
Qed.

Lemma keeps_try_catch P {A} (body handler : Task A) :
  keeps P body -> keeps P handler -> keeps P (try_catch body handler).
Proof.
  intros Hb Hh st HP. unfold try_catch. specialize (Hb st HP).
  destruct (body st) as [st' [a|]]; [done | by apply Hh].
Qed.

End TaskFacts.

Section RecordsFacts.

Lemma forEach_flag f d : (forEach (onItem f) d).2 = sound d.
Proof.
  induction d as [|[k e] d IH]; [done|]. cbn [forEach sound forallb snd].
  destruct e; cbn [onItem is_null negb andb]; [|done|];
    destruct (forEach (onItem f) d) as [d' c]; exact IH.
Qed.

Lemma forEach_sound f d :
  sound d = true -> forEach (onItem f) d = (mapItems f d, true).
Proof.
  induction d as [|[k e] d IH]; [done|]. cbn [forEach sound forallb snd].
  destruct e; cbn [onItem is_null negb andb]; [|done|];
    intros Hs; by rewrite (IH Hs).
Qed.


End RecordsFacts.

Section LoadingFacts.
Context `{Coercions}.

(** *** Steps on one dataset *)

Lemma onStates_run f s c b rf o :
  onStates f {| economicData := {| rd_states := s; rd_counties := c;
                                   rd_cbsas := b |};
                redfin := rf; loadingOverlay := o |}
  = ({| economicData := {| rd_states := (f s).1; rd_counties := c;
                           rd_cbsas := b |};
        redfin := rf; loadingOverlay := o |},
     if (f s).2 then Normal tt else Throw).
Proof. unfold onStates. cbn. by destruct (f s). Qed.

Lemma onCounties_run f s c b rf o :
  onCounties f {| economicData := {| rd_states := s; rd_counties := c;
                                     rd_cbsas := b |};
                  redfin := rf; loadingOverlay := o |}
  = ({| economicData := {| rd_states := s; rd_counties := (f c).1;
                           rd_cbsas := b |};
        redfin := rf; loadingOverlay := o |},
     if (f c).2 then Normal tt else Throw).
Proof. unfold onCounties. cbn. by destruct (f c). Qed.

Lemma onCbsas_run f s c b rf o :
  onCbsas f {| economicData := {| rd_states := s; rd_counties := c;
                                  rd_cbsas := b |};
               redfin := rf; loadingOverlay := o |}
  = ({| economicData := {| rd_states := s; rd_counties := c;
                           rd_cbsas := (f b).1 |};
        redfin := rf; loadingOverlay := o |},
     if (f b).2 then Normal tt else Throw).
Proof. unfold onCbsas. cbn. by destruct (f b). Qed.

(** A step on a dataset keeps the tables and the loading overlay, and
    keeps the datasets free of [null] when its loop does. *)
Lemma onStates_step f : dataset_step (onStates f).
Proof.
  split; intros x [[s c b] rf o] Hx; rewrite onStates_run; exact Hx.
Qed.

Lemma onCounties_step f : dataset_step (onCounties f).
Proof.
  split; intros x [[s c b] rf o] Hx; rewrite onCounties_run; exact Hx.
Qed.

Lemma onCbsas_step f : dataset_step (onCbsas f).
Proof.
  split; intros x [[s c b] rf o] Hx; rewrite onCbsas_run; exact Hx.
Qed.





(** *** The baseline loader *)




Lemma fetch_json_keeps P (f : fetched BaselineDoc) :
  keeps P ('(_, body) ← fetch f; json body).
Proof. intros st HP. by destruct f as [|ok [d'|]]. Qed.




Lemma dataset_keeps P d : keeps P (dataset d).
Proof. intros st HP. by destruct d. Qed.





(** *** The overlay loaders *)



Lemma loadRedfinZip_run src ed z s c m o :
  loadRedfinZip src
    {| economicData := ed;
       redfin := {| redfinData := z; redfinStateData := s;
                    redfinCountyData := c; redfinCbsaData := m |};
       loadingOverlay := o |} =
  ({| economicData := ed;
      redfin := {| redfinData := storedZips (redfin_zip src) z;
                   redfinStateData := s; redfinCountyData := c;
                   redfinCbsaData := m |};
      loadingOverlay := o |}, Normal tt).
Proof.
  unfold loadRedfinZip, storedZips.
  destruct (redfin_zip src) as [|[] [[rows|]|]]; try reflexivity.
  cbn. unfold try_catch, mbind, task_bind, bind. cbn.
  by destruct (hasNull rows).
Qed.

Lemma loadRedfinAggregated_run f store ed rf o :
  loadRedfinAggregated f store
    {| economicData := ed; redfin := rf; loadingOverlay := o |} =
  ({| economicData := ed;
      redfin := match overlayRows f with
                | Some rows =>
                    if hasNull rows then rf else store (objects rows) rf
                | None => rf
                end;
      loadingOverlay := o |}, Normal tt).
Proof.
  destruct f as [|[] [[rows|]|]]; try reflexivity.
  cbn. unfold loadRedfinAggregated, try_catch, mbind, task_bind, bind. cbn.
  by destruct (hasNull rows).
Qed.



(** *** The merge *)

Lemma mergeLoop_flag codeOf table d :
  (mergeLoop codeOf table d).2 = (size table =? 0)%nat || sound d.
Proof.
  unfold mergeLoop. destruct (size table); [done|]. apply forEach_flag.
Qed.

Lemma mergeLoop_done codeOf table d :
  (size table =? 0)%nat || sound d = true ->
  (mergeLoop codeOf table d).1 = mergedLevel codeOf table d.
Proof.
  unfold mergeLoop, mergedLevel. destruct (size table); [done|].
  cbn. intros Hs. by rewrite forEach_sound.
Qed.

Lemma mergeStep_done ed rf o :
  mergeable rf ed = true ->
  mergeStep {| economicData := ed; redfin := rf; loadingOverlay := o |}
  = ({| economicData := merged rf ed; redfin := rf; loadingOverlay := o |},
     Normal tt).
Proof.
  destruct ed as [s c b]. unfold mergeable.
  cbn [rd_states rd_counties rd_cbsas]. intros Hm.
  apply andb_prop in Hm as [Hm Hb]. apply andb_prop in Hm as [Hs Hc].
  unfold mergeStep. cbn [redfin].
  erewrite bind_normal;
    [|rewrite onStates_run, mergeLoop_flag, Hs; reflexivity].
  erewrite bind_normal;
    [|rewrite onCounties_run, mergeLoop_flag, Hc; reflexivity].
  rewrite onCbsas_run, mergeLoop_flag, Hb.
  unfold merged. cbn [fst rd_states rd_counties rd_cbsas].
  by rewrite !mergeLoop_done by done.
Qed.

Lemma mergeStep_throws ed rf o :
  mergeable rf ed = false ->
  exists ed',
    mergeStep {| economicData := ed; redfin := rf; loadingOverlay := o |}
    = ({| economicData := ed'; redfin := rf; loadingOverlay := o |}, Throw).
Proof.
  destruct ed as [s c b]. unfold mergeable.
  cbn [rd_states rd_counties rd_cbsas]. intros Hm.
  unfold mergeStep. cbn [redfin].
  destruct ((size (redfinStateData rf) =? 0)%nat || sound s) eqn:Hs.
  2:{ eexists. erewrite bind_throw;
        [reflexivity | rewrite onStates_run, mergeLoop_flag, Hs; reflexivity]. }
  erewrite bind_normal;
    [|rewrite onStates_run, mergeLoop_flag, Hs; reflexivity].
  destruct ((size (redfinCountyData rf) =? 0)%nat || sound c) eqn:Hc.
  2:{ eexists. erewrite bind_throw;
        [reflexivity | rewrite onCounties_run, mergeLoop_flag, Hc; reflexivity]. }
  erewrite bind_normal;
    [|rewrite onCounties_run, mergeLoop_flag, Hc; reflexivity].
  cbn [andb] in Hm. eexists. rewrite onCbsas_run, mergeLoop_flag, Hm.
  reflexivity.
Qed.


(** *** The overlay loader as a whole *)

Lemma loadGeoData_tables src ed z s c m o :
  geometry_loaded src = true ->
  (d3_json (states_geometry src);;
   d3_json (counties_geometry src);;
   d3_json (cbsa_geometry src);;
   loadRedfinZip src;;
   loadRedfinAggregated (redfin_state src) storeState;;
   loadRedfinAggregated (redfin_county src) storeCounty;;
   loadRedfinAggregated (redfin_cbsa src) storeCbsa;;
   mergeStep;; page_call;; setOverlay Hidden)
    {| economicData := ed;
       redfin := {| redfinData := z; redfinStateData := s;
                    redfinCountyData := c; redfinCbsaData := m |};
       loadingOverlay := o |}
  = (mergeStep;; page_call;; setOverlay Hidden)
      {| economicData := ed;
         redfin := tablesAfter src {| redfinData := z; redfinStateData := s;
                                      redfinCountyData := c;
                                      redfinCbsaData := m |};
         loadingOverlay := o |}.
Proof.
  intros Hg. unfold geometry_loaded in Hg.
  destruct (states_geometry src), (counties_geometry src), (cbsa_geometry src);
    try discriminate.
  rewrite (bind_normal (d3_json GeoLoaded) _ _ _ tt eq_refl).
  rewrite (bind_normal (d3_json GeoLoaded) _ _ _ tt eq_refl).
  rewrite (bind_normal (d3_json GeoLoaded) _ _ _ tt eq_refl).
  rewrite (bind_normal _ _ _ _ tt (loadRedfinZip_run src ed z s c m o)).
  rewrite (bind_normal _ _ _ _ tt (loadRedfinAggregated_run _ _ _ _ _)).
  rewrite (bind_normal _ _ _ _ tt (loadRedfinAggregated_run _ _ _ _ _)).
  rewrite (bind_normal _ _ _ _ tt (loadRedfinAggregated_run _ _ _ _ _)).
  unfold tablesAfter, stored.
  cbn [redfinData redfinStateData redfinCountyData redfinCbsaData].
  destruct (overlayRows (redfin_state src)) as [r1|],
    (overlayRows (redfin_county src)) as [r2|],
    (overlayRows (redfin_cbsa src)) as [r3|];
    try destruct (hasNull r1); try destruct (hasNull r2);
    try destruct (hasNull r3); reflexivity.
Qed.

Lemma loadGeoData_done src st :
  geometry_loaded src = true ->
  mergeable (tablesAfter src (redfin st)) (economicData st) = true ->
  loadGeoData src st =
  ({| economicData := merged (tablesAfter src (redfin st)) (economicData st);
      redfin := tablesAfter src (redfin st); loadingOverlay := Hidden |},
   Normal tt).
Proof.
  intros Hg Hm. destruct st as [ed [z s c m] o]. cbn [redfin economicData] in *.
  unfold loadGeoData, try_catch. rewrite (loadGeoData_tables _ _ _ _ _ _ _ Hg).
  by rewrite (bind_normal _ _ _ _ tt (mergeStep_done _ _ _ Hm)).
Qed.

Lemma loadGeoData_merge_throws src st :
  geometry_loaded src = true ->
  mergeable (tablesAfter src (redfin st)) (economicData st) = false ->
  exists ed',
    loadGeoData src st =
    ({| economicData := ed'; redfin := tablesAfter src (redfin st);
        loadingOverlay := ErrorMessage |}, Throw).
Proof.
  intros Hg Hm. destruct st as [ed [z s c m] o]. cbn [redfin economicData] in *.
  destruct (mergeStep_throws _ _ o Hm) as [ed' E]. exists ed'.
  unfold loadGeoData, try_catch. rewrite (loadGeoData_tables _ _ _ _ _ _ _ Hg).
  by rewrite (bind_throw _ _ _ _ E).
Qed.


(** *** The handler *)




End LoadingFacts.


(** So does a boundary file that fails to load, with every data source in
    order. *)
Lemma boundary_failure_rejects_load_handler :
  geometry_loaded boundaryFails = false /\
  settled (@onLoad demoCoercions boundaryFails initialSession) = Throw.
Proof. split; vm_compute; reflexivity. Qed.


(** * Part II, continued: further properties of the code *)

Import Choropleth FeatureStates Names Scenarios.

(** ** Colours read back *)

(** X1.  The colour [interpolateColor] prints for a position in [[0, 1]]
    reads back: it is a [#] followed by six lower case hex digits, and
    parsing it the way [interpolateColor] parses its own arguments gives
    the three channel values that were mixed.  The output of the function
    is thus a valid input of it. *)
Theorem printed_colour_reads_back color1 color2 (t : Q) :
  (0 <= t)%Q -> (t <= 1)%Q ->
  let c := interpolateColor color1 color2 t in
  is_lower_hex_color c = true /\
  redOf c = mix (redOf color1) (redOf color2) t /\
  greenOf c = mix (greenOf color1) (greenOf color2) t /\
  blueOf c = mix (blueOf color1) (blueOf color2) t.
Proof.
  intros Ht0 Ht1 c. subst c.
  split; [|by apply interpolateColor_channels].
  rewrite interpolateColor_interpolated by done. unfold interpolated.
  destruct (channel_ranges color1) as (Hr1 & Hg1 & Hb1).
  destruct (channel_ranges color2) as (Hr2 & Hg2 & Hb2).
  apply rgb_string_lower; by apply mix_range.
Qed.

Lemma printed_colour_reads_back_witness :
  (0 <= 1 # 4)%Q /\ ((1 # 4) <= 1)%Q /\
  interpolateColor "#eff3ff" "#08519c" (1 # 4) = "#b5cbe6"%string /\
  redOf (interpolateColor "#eff3ff" "#08519c" (1 # 4)) = 181 /\
  greenOf (interpolateColor "#eff3ff" "#08519c" (1 # 4)) = 203 /\
  blueOf (interpolateColor "#eff3ff" "#08519c" (1 # 4)) = 230.
Proof.
  pose proof (printed_colour_reads_back "#eff3ff" "#08519c" (1 # 4))
    as Hp.
  destruct Hp as (_ & Hr & Hg & Hb); [discriminate | discriminate |].
  split; [discriminate|]. split; [discriminate|]. split; [reflexivity|].
  split; [exact Hr|]. split; [exact Hg | exact Hb].
Defined.

Lemma mix_same a (t : Q) : mix a a t = a.
Proof.
  unfold mix, Math_round. rewrite Z.sub_diag. apply Qfloor_unique.
  - change (inject_Z 0) with 0%Q. lra.
  - rewrite inject_Z_plus. change (inject_Z 0) with 0%Q.
    change (inject_Z 1) with 1%Q. lra.
Qed.

Lemma interpolateColor_same c (t : Q) :
  is_hex_color c = true -> interpolateColor c c t = lower_string c.
Proof.
  intros Hc. unfold interpolateColor. cbv zeta. rewrite !mix_same.
  rewrite hex_string_of_channels by apply and255_range.
  by apply rgb_string_channels.
Qed.

(** X2.  When both ends of the gradient are set to the same colour, every
    region that has a value is painted in that colour (in its lower case
    spelling), whatever the value and the other values are: no position,
    in range or not, moves a channel. *)
Theorem equal_ends_single_colour cs allValues (v : Q) :
  is_hex_color (choroLow cs) = true -> choroHigh cs = choroLow cs ->
  allValues <> [] ->
  getColorForValue cs (Some v) allValues = lower_string (choroLow cs).
Proof.
  intros Hc Heq Hne.
  assert (Hb : bounds allValues = Some (minOf allValues, maxOf allValues)).
  { unfold bounds. destruct allValues; [done | reflexivity]. }
  rewrite (getColorForValue_bounds _ _ _ _ v Hb), Heq.
  destruct (Qeq_bool _ _); by apply interpolateColor_same.
Qed.

Lemma equal_ends_single_colour_witness :
  is_hex_color "#3182BD" = true /\ [1%Q; 7%Q; 9%Q] <> [] /\
  getColorForValue
    {| dimmed := "#CCCCCC"; choroLow := "#3182BD"; choroHigh := "#3182BD" |}
    (Some 7%Q) [1%Q; 7%Q; 9%Q] = "#3182bd"%string.
Proof.
  split; [reflexivity|]. split; [discriminate|].
  apply (equal_ends_single_colour
           {| dimmed := "#CCCCCC"; choroLow := "#3182BD"; choroHigh := "#3182BD" |}
           [1%Q; 7%Q; 9%Q] 7); [reflexivity | reflexivity | discriminate].
Defined.

Lemma Math_round_mono (x y : Q) : (x <= y)%Q -> Math_round x <= Math_round y.
Proof. intros Hxy. unfold Math_round. apply Qfloor_resp_le. lra. Qed.

Lemma mix_mono a b (t t' : Q) :
  (t <= t')%Q ->
  (a <= b -> mix a b t <= mix a b t') /\ (b <= a -> mix a b t' <= mix a b t).
Proof.
  intros Ht. unfold mix. split; intros Hab; apply Math_round_mono.
  - assert (0 <= inject_Z (b - a))%Q
      by (change 0%Q with (inject_Z 0); rewrite <- Zle_Qle; lia).
    nra.
  - assert (inject_Z (b - a) <= 0)%Q
      by (change 0%Q with (inject_Z 0); rewrite <- Zle_Qle; lia).
    nra.
Qed.

Lemma normalized_mono (mn mx v v' : Q) :
  (mn < mx)%Q -> (v <= v')%Q ->
  ((v - mn) / (mx - mn) <= (v' - mn) / (mx - mn))%Q.
Proof.
  intros Hlt Hv.
  assert (E : forall x, ((x - mn) / (mx - mn) == (x - mn) * / (mx - mn))%Q)
    by (intros; reflexivity).
  rewrite !E.
  assert (0 < / (mx - mn))%Q by (apply Qinv_lt_0_compat; lra).
  nra.
Qed.

(** X3.  The colour mapper is monotone along the gradient.  For bounds
    with [min < max] and two values [v <= v'] between them, each of the
    three channels of the colour of [v'] is at least as far from the low
    colour's channel as that of [v]: where the high colour has the larger
    channel the channel grows with the value, where it has the smaller one
    it shrinks, and it never leaves the interval between the two ends. *)
Theorem larger_value_further_along_gradient cs allValues mn mx (v v' : Q) :
  bounds allValues = Some (mn, mx) -> (mn < mx)%Q ->
  (mn <= v)%Q -> (v <= v')%Q -> (v' <= mx)%Q ->
  forall channel, channel ∈ [redOf; greenOf; blueOf] ->
    let c := getColorForValue cs (Some v) allValues in
    let c' := getColorForValue cs (Some v') allValues in
    (channel (choroLow cs) <= channel (choroHigh cs) ->
     channel (choroLow cs) <= channel c <= channel c' /\
     channel c' <= channel (choroHigh cs)) /\
    (channel (choroHigh cs) <= channel (choroLow cs) ->
     channel (choroHigh cs) <= channel c' <= channel c /\
     channel c <= channel (choroLow cs)).
Proof.
  intros Hb Hlt Hlo Hvv Hhi channel Hch c c'. subst c c'.
  rewrite !(getColorForValue_bounds _ _ _ _ _ Hb), (Qeq_bool_lt _ _ Hlt).
  destruct (normalized_range mn mx v Hlt ltac:(lra) ltac:(lra)) as [Ht0 Ht1].
  destruct (normalized_range mn mx v' Hlt ltac:(lra) ltac:(lra)) as [Ht0' Ht1'].
  pose proof (normalized_mono mn mx v v' Hlt Hvv) as Hm.
  set (t := ((v - mn) / (mx - mn))%Q) in *.
  set (t' := ((v' - mn) / (mx - mn))%Q) in *.
  destruct (interpolateColor_channels (choroLow cs) (choroHigh cs) t Ht0 Ht1)
    as (Er & Eg & Eb).
  destruct (interpolateColor_channels (choroLow cs) (choroHigh cs) t' Ht0' Ht1')
    as (Er' & Eg' & Eb').
  assert (Hmix : forall a b,
    (a <= b -> a <= mix a b t <= mix a b t' /\ mix a b t' <= b) /\
    (b <= a -> b <= mix a b t' <= mix a b t /\ mix a b t <= a)).
  { intros a b.
    destruct (mix_mono a b 0 t Ht0) as [M1 M1'].
    destruct (mix_mono a b t t' Hm) as [M2 M2'].
    destruct (mix_mono a b t' 1 Ht1') as [M3 M3'].
    rewrite mix_zero in M1, M1'. rewrite mix_one in M3, M3'.
    split; intros Hab; auto with zarith. }
  apply list_elem_of_In in Hch. simpl in Hch.
  destruct Hch as [<- | [<- | [<- | []]]].
  - rewrite Er, Er'. apply Hmix.
  - rewrite Eg, Eg'. apply Hmix.
  - rewrite Eb, Eb'. apply Hmix.
Qed.

Lemma larger_value_further_along_gradient_witness :
  bounds [10%Q; 20%Q; 40%Q] = Some (10%Q, 40%Q) /\ (10 < 40)%Q /\
  (10 <= 20)%Q /\ (20 <= 40)%Q /\ (40 <= 40)%Q /\
  redOf (choroHigh defaultSettings) <= redOf (choroLow defaultSettings) /\
  redOf (getColorForValue defaultSettings (Some 40%Q) [10%Q; 20%Q; 40%Q])
  <= redOf (getColorForValue defaultSettings (Some 20%Q) [10%Q; 20%Q; 40%Q]).
Proof.
  pose proof (larger_value_further_along_gradient defaultSettings
                [10%Q; 20%Q; 40%Q] 10 40 20 40) as Hmono.
  destruct (Hmono eq_refl) with (channel := redOf) as [_ Hdown];
    [reflexivity | discriminate | discriminate | discriminate
     | apply list_elem_of_here |].
  split; [reflexivity|]. split; [reflexivity|].
  split; [discriminate|]. split; [discriminate|]. split; [discriminate|].
  split; [vm_compute; discriminate|].
  apply Hdown. vm_compute. discriminate.
Defined.

(** X4.  The colour mapper of the class based variant and that of the
    script agree on every input whose bounds are not degenerate: they
    differ only in what they return when the greatest and the least value
    are equal. *)
Theorem class_variant_colours_agree cs value allValues :
  Qeq_bool (maxOf allValues) (minOf allValues) = false ->
  ClassVariant.getColorForValue cs value allValues
  = getColorForValue cs value allValues.
Proof.
  intros Hne. unfold ClassVariant.getColorForValue, getColorForValue.
  destruct value as [v|]; [|done].
  destruct (length allValues =? 0)%nat; [done|]. by rewrite Hne.
Qed.

Lemma class_variant_colours_agree_witness :
  Qeq_bool (maxOf [0%Q; 4%Q]) (minOf [0%Q; 4%Q]) = false /\
  ClassVariant.getColorForValue defaultSettings (Some 1%Q) [0%Q; 4%Q]
  = "#b5cbe6"%string.
Proof.
  split; [reflexivity|].
  rewrite (class_variant_colours_agree defaultSettings (Some 1%Q) [0%Q; 4%Q]);
    reflexivity.
Defined.

(** ** The legend and the branches of [applyChoropleth] *)

Lemma Math_min_fold (l : list Q) (m : Q) :
  exists m', foldl (λ lowest x,
                      match lowest with
                      | Fin m => if Qle_bool m x then Fin m else Fin x
                      | _ => Fin x
                      end) (Fin m) l = Fin m' /\
             (m' = m \/ m' ∈ l) /\ (m' <= m)%Q /\
             forall x, x ∈ l -> (m' <= x)%Q.
Proof.
  revert m. induction l as [|y l IH]; intros m; simpl.
  - exists m. split; [done|]. split; [by left|]. split; [lra|].
    intros x Hx. by apply elem_of_nil in Hx.
  - destruct (Qle_bool m y) eqn:E.
    + apply Qle_bool_iff in E.
      destruct (IH m) as (m' & -> & Hmem & Hm & Hle). exists m'.
      split; [done|]. split.
      { destruct Hmem as [-> | Hmem]; [by left | right; by right]. }
      split; [done|].
      intros x Hx. apply elem_of_cons in Hx as [-> | Hx]; [lra | by apply Hle].
    + assert (y < m)%Q.
      { destruct (Qlt_le_dec y m) as [|Hc]; [done|].
        apply Qle_bool_iff in Hc. congruence. }
      destruct (IH y) as (m' & -> & Hmem & Hm & Hle). exists m'.
      split; [done|]. split.
      { right. destruct Hmem as [-> | Hmem]; [by left | by right]. }
      split; [lra|].
      intros x Hx. apply elem_of_cons in Hx as [-> | Hx]; [done | by apply Hle].
Qed.

Lemma Math_max_fold (l : list Q) (m : Q) :
  exists m', foldl (λ highest x,
                      match highest with
                      | Fin m => if Qle_bool x m then Fin m else Fin x
                      | _ => Fin x
                      end) (Fin m) l = Fin m' /\
             (m' = m \/ m' ∈ l) /\ (m <= m')%Q /\
             forall x, x ∈ l -> (x <= m')%Q.
Proof.
  revert m. induction l as [|y l IH]; intros m; simpl.
  - exists m. split; [done|]. split; [by left|]. split; [lra|].
    intros x Hx. by apply elem_of_nil in Hx.
  - destruct (Qle_bool y m) eqn:E.
    + apply Qle_bool_iff in E.
      destruct (IH m) as (m' & -> & Hmem & Hm & Hle). exists m'.
      split; [done|]. split.
      { destruct Hmem as [-> | Hmem]; [by left | right; by right]. }
      split; [done|].
      intros x Hx. apply elem_of_cons in Hx as [-> | Hx]; [lra | by apply Hle].
    + assert (m < y)%Q.
      { destruct (Qlt_le_dec m y) as [|Hc]; [done|].
        apply Qle_bool_iff in Hc. congruence. }
      destruct (IH y) as (m' & -> & Hmem & Hm & Hle). exists m'.
      split; [done|]. split.
      { right. destruct Hmem as [-> | Hmem]; [by left | by right]. }
      split; [lra|].
      intros x Hx. apply elem_of_cons in Hx as [-> | Hx]; [done | by apply Hle].
Qed.

Lemma Math_min_least (l : list Q) :
  l <> [] ->
  exists m, Math_min l = Fin m /\ m ∈ l /\ forall x, x ∈ l -> (m <= x)%Q.
Proof.
  destruct l as [|y l]; [done|]. intros _. unfold Math_min. simpl.
  destruct (Math_min_fold l y) as (m & E & Hmem & Hm & Hle). exists m.
  split; [done|]. split.
  - destruct Hmem as [-> | Hmem]; [by left | by right].
  - intros x Hx. apply elem_of_cons in Hx as [-> | Hx]; [done | by apply Hle].
Qed.

Lemma Math_max_greatest (l : list Q) :
  l <> [] ->
  exists m, Math_max l = Fin m /\ m ∈ l /\ forall x, x ∈ l -> (x <= m)%Q.
Proof.
  destruct l as [|y l]; [done|]. intros _. unfold Math_max. simpl.
  destruct (Math_max_fold l y) as (m & E & Hmem & Hm & Hle). exists m.
  split; [done|]. split.
  - destruct Hmem as [-> | Hmem]; [by left | by right].
  - intros x Hx. apply elem_of_cons in Hx as [-> | Hx]; [done | by apply Hle].
Qed.

Lemma datasetFor_not_zips level ds dataset :
  datasetFor level ds = Some dataset -> String.eqb level "zips" = false.
Proof.
  unfold datasetFor. intros Hd.
  destruct (String.eqb level "zips") eqn:E; [|done].
  apply String.eqb_eq in E. subst level. discriminate.
Qed.

(** X5.  At the state, county and metro level the two numbers
    [updateLegend] writes under the gradient are the bounds the colour
    mapper normalises with: [Math.min] and [Math.max] of the values of the
    metric are finite and equal the first and the last element of the
    sorted copy [getColorForValue] takes its bounds from. *)
Theorem legend_shows_colour_bounds level metric ds dataset mn mx :
  String.eqb metric "none" = false ->
  datasetFor level ds = Some dataset ->
  bounds (allValuesOf dataset metric) = Some (mn, mx) ->
  exists lo hi,
    updateLegend level metric ds = Some (Fin lo, Fin hi) /\
    (lo == mn)%Q /\ (hi == mx)%Q.
Proof.
  intros Hm Hd Hb.
  destruct (bounds_enclose _ _ _ Hb) as (Hmn & Hmx & Hall).
  apply bounds_Some in Hb as (Hne & -> & ->).
  destruct (Math_min_least _ Hne) as (lo & Elo & Hlo & Hleast).
  destruct (Math_max_greatest _ Hne) as (hi & Ehi & Hhi & Hgreatest).
  exists lo, hi. unfold updateLegend, legendValues, legendBounds.
  rewrite Hm, (datasetFor_not_zips _ _ _ Hd), Hd. simpl.
  destruct (allValuesOf dataset metric) as [|y l] eqn:El; [done|].
  simpl. rewrite <- El in *. rewrite Elo, Ehi.
  split; [done|]. split.
  - apply Qle_antisym; [by apply Hleast | by apply Hall].
  - apply Qle_antisym; [by apply Hall | by apply Hgreatest].
Qed.

Lemma legend_shows_colour_bounds_witness :
  datasetFor "states" populationOnly = Some scenarioStates /\
  bounds (allValuesOf scenarioStates "totalPopulation")
  = Some (30000000%Q, 39000000%Q) /\
  exists lo hi,
    updateLegend "states" "totalPopulation" populationOnly
    = Some (Fin lo, Fin hi) /\
    (lo == 30000000)%Q /\ (hi == 39000000)%Q.
Proof.
  split; [reflexivity|]. split; [reflexivity|].
  apply (legend_shows_colour_bounds "states" "totalPopulation" populationOnly
           scenarioStates); reflexivity.
Defined.

Lemma includes_redfin_rank metric :
  includes redfinMetrics metric = true -> includes RANK_METRICS metric = true.
Proof.
  unfold includes, redfinMetrics, RANK_METRICS. cbn [existsb].
  intros Hm.
  repeat match type of Hm with
         | (_ || _)%bool = true => apply orb_true_iff in Hm as [Hm | Hm]
         end; try discriminate; apply String.eqb_eq in Hm; by subst metric.
Qed.

Lemma Z_quot_inject z : Z.quot (Qnum (inject_Z z)) (Zpos (Qden (inject_Z z))) = z.
Proof. simpl. apply Z.quot_1_r. Qed.

Lemma interpolateColorNumber_Fin color1 color2 (t : Q) :
  interpolateColorNumber color1 color2 (Fin t) = interpolateColor color1 color2 t.
Proof.
  unfold interpolateColorNumber, interpolateColor. cbv zeta.
  cbn [number_mul number_add round_number to_integer].
  rewrite !Z_quot_inject. cbn [number_toString16].
  fold (mix (red (Int32.of_number (parseInt (slice1 color1) 16)))
            (red (Int32.of_number (parseInt (slice1 color2) 16))) t).
  fold (mix (green (Int32.of_number (parseInt (slice1 color1) 16)))
            (green (Int32.of_number (parseInt (slice1 color2) 16))) t).
  fold (mix (blue (Int32.of_number (parseInt (slice1 color1) 16)))
            (blue (Int32.of_number (parseInt (slice1 color2) 16))) t).
  do 3 f_equal. rewrite <- !inject_Z_plus. apply Qfloor_Z.
Qed.

(** X6.  For a market metric at the state, county or metro level the
    colour of a region depends on that region alone: it is the colour
    interpolated at the region's own percentile rank (the field
    [<metric>_RANK]), normalised against the fixed range from 0 to 1 and
    never against the values of the other regions, and a region without a
    rank gets no entry at all, so that it falls to the transparent default
    of the expression.  Every market metric has a rank companion, so the
    branch that would take the bounds from the data never runs. *)
Theorem market_metric_coloured_by_own_rank cs
    (dataset : gmap string (gmap string Q)) metric colors key d :
  includes redfinMetrics metric = true ->
  applyRankChoropleth cs dataset metric = Some colors ->
  dataset !! key = Some d ->
  colors !! key =
  interpolateColor (choroLow cs) (choroHigh cs) <$> d !! (metric +:+ "_RANK").
Proof.
  intros Hm Ha Hd. apply includes_redfin_rank in Hm.
  unfold applyRankChoropleth, visualizationMetric in Ha. rewrite Hm in Ha.
  destruct (length _ =? 0)%nat; [done|]. injection Ha as <-.
  rewrite lookup_omap, Hd. simpl.
  destruct (d !! (metric +:+ "_RANK")) as [rank|]; [|done]. simpl.
  f_equal. rewrite interpolateColorNumber_Fin.
  apply interpolateColor_comp. field.
Qed.

Lemma market_metric_coloured_by_own_rank_witness :
  includes redfinMetrics "MEDIAN_SALE_PRICE" = true /\
  exists colors,
    applyRankChoropleth defaultSettings rankedStates "MEDIAN_SALE_PRICE"
    = Some colors /\
    colors !! "06"%string = Some "#427ab5"%string /\
    colors !! "48"%string = Some "#b5cbe6"%string /\
    colors !! "36"%string = None.
Proof.
  split; [reflexivity|].
  destruct (applyRankChoropleth defaultSettings rankedStates "MEDIAN_SALE_PRICE")
    as [colors|] eqn:E; [|vm_compute in E; discriminate E].
  exists colors. split; [reflexivity|].
  pose proof (market_metric_coloured_by_own_rank defaultSettings rankedStates
                "MEDIAN_SALE_PRICE" colors) as Hown.
  split; [|split].
  - rewrite (Hown "06"%string _ eq_refl E eq_refl). reflexivity.
  - rewrite (Hown "48"%string _ eq_refl E eq_refl). reflexivity.
  - rewrite (Hown "36"%string _ eq_refl E eq_refl). reflexivity.
Defined.

(** X7.  At the ZIP level [applyChoropleth] never consults the baseline
    data and never takes bounds from the overlay either.  With no metric
    it resets the fill and clears the selection; for a market metric it
    installs a ramp over the rank companion of the metric that runs from 0
    to 1 whatever the data are, and keeps the selection; for any other
    metric it only shows a notice. *)
Theorem zip_level_outcomes cs metric ds :
  applyChoroplethAt cs "zips" metric ds =
  if String.eqb metric "none" then (ResetFill, true)
  else if includes redfinMetrics metric
       then (ZipRamp (metric +:+ "_RANK") (Fin 0) (Fin 1), false)
       else (Notice, false).
Proof.
  unfold applyChoroplethAt. destruct (String.eqb metric "none"); [done|].
  change (String.eqb "zips" "zips") with true. cbn [andb].
  destruct (includes redfinMetrics metric) eqn:E; [|done].
  unfold visualizationMetric. by rewrite (includes_redfin_rank _ E).
Qed.

Lemma all_chars_app p (a b : string) :
  all_chars p (a +:+ b) = all_chars p a && all_chars p b.
Proof.
  induction a as [|c a IH]; [done|].
  rewrite append_cons. simpl. by rewrite IH, andb_assoc.
Qed.

Lemma fixed_decimal_digits width n :
  all_chars is_hex_digit (fixed_decimal width n) = true.
Proof.
  revert n. induction width as [|w IH]; intros n; [done|].
  simpl. rewrite all_chars_app, IH. simpl.
  rewrite digit_char_hex; [done|].
  pose proof (Z.mod_pos_bound n 10). lia.
Qed.

Lemma parse_digits_snoc R (s : string) acc d :
  0 <= d < R -> R <= 36 ->
  all_chars (λ c, bool_decide (is_Some (radix_digit R c))) s = true ->
  parse_digits R (s +:+ String (digit_char d) EmptyString) acc =
  Some (match parse_digits R s acc with Some a => a * R + d | None => d end).
Proof.
  intros Hd HR Hall.
  revert acc. induction s as [|c s IH]; intros acc.
  - change (EmptyString +:+ ?x) with x. simpl.
    by rewrite radix_digit_digit_char.
  - rewrite append_cons. simpl in *.
    apply andb_true_iff in Hall as [Hc Hs].
    apply bool_decide_eq_true in Hc as [v Hv]. rewrite Hv.
    by apply IH.
Qed.

Lemma fixed_decimal_radix_digits width n :
  all_chars (λ c, bool_decide (is_Some (radix_digit 10 c)))
            (fixed_decimal width n) = true.
Proof.
  revert n. induction width as [|w IH]; intros n; [done|].
  simpl. rewrite all_chars_app, IH. simpl.
  rewrite radix_digit_digit_char; [done | | lia].
  apply Z.mod_pos_bound. lia.
Qed.

Lemma parse_fixed_decimal width n :
  parse_digits 10 (fixed_decimal (S width) n) None
  = Some (n mod 10 ^ Z.of_nat (S width)).
Proof.
  revert n. induction width as [|w IH]; intros n.
  - simpl fixed_decimal. change (EmptyString +:+ ?x) with x. simpl.
    rewrite radix_digit_digit_char; [done | | lia].
    apply Z.mod_pos_bound. lia.
  - change (fixed_decimal (S (S w)) n)
      with (fixed_decimal (S w) (n / 10)
            +:+ String (digit_char (n mod 10)) EmptyString).
    rewrite parse_digits_snoc;
      [| apply Z.mod_pos_bound; lia | lia
       | apply fixed_decimal_radix_digits].
    rewrite IH. f_equal.
    replace (Z.of_nat (S (S w))) with (1 + Z.of_nat (S w)) by lia.
    rewrite Z.pow_add_r by lia. change (10 ^ 1) with 10.
    rewrite Z.rem_mul_r by lia. lia.
Qed.

Lemma parseInt_fixed_decimal width n :
  0 <= n < 10 ^ Z.of_nat (S width) ->
  parseInt (fixed_decimal (S width) n) 10 = Some n.
Proof.
  intros Hn. unfold parseInt.
  rewrite trim_start_digits by apply fixed_decimal_digits.
  pose proof (fixed_decimal_digits (S width) n) as Hd.
  pose proof (parse_fixed_decimal width n) as Hp.
  destruct (fixed_decimal (S width) n) as [|c s] eqn:E.
  { pose proof (fixed_decimal_length (S width) n) as Hl.
    rewrite E in Hl. discriminate. }
  simpl in Hd. apply andb_true_iff in Hd as [Hc _].
  rewrite (hex_digit_strip_sign c s Hc).
  change (10 =? 16) with false. cbv iota. rewrite Hp.
  by rewrite Z.mod_small.
Qed.

Section MatchKey.
Context `{Coercions}.

(** X8.  The label under which [applyChoropleth] enters a record's colour
    into the [match] expression undoes the padding of the key: for a state
    or county code [0 <= n < 10^width] the record that the tooltip reads
    for feature id [n] (under [String(n).padStart(width, '0')]) is matched
    by [parseInt(key, 10) = n], the feature's own id, whether the id is the
    number or the padded string. *)
Theorem match_key_inverts_padding level width n :
  String.eqb level "cbsas" = false ->
  (1 <= width)%nat -> 0 <= n < 10 ^ Z.of_nat width -> n <= 2 ^ 53 ->
  matchKey level (padKey width (Num (Fin (inject_Z n))))
  = Num (Fin (inject_Z n)) /\
  matchKey level (padKey width (Str (fixed_decimal width n)))
  = Num (Fin (inject_Z n)).
Proof.
  intros Hl Hw Hn Hsafe.
  rewrite padKey_number, padKey_canonical by done.
  unfold matchKey. rewrite Hl.
  destruct width as [|w]; [lia|].
  by rewrite parseInt_fixed_decimal.
Qed.

End MatchKey.

Lemma match_key_inverts_padding_witness :
  String.eqb "states" "cbsas" = false /\ (1 <= 2)%nat /\
  0 <= 6 < 10 ^ Z.of_nat 2 /\ 6 <= 2 ^ 53 /\
  matchKey "states" (@padKey demoCoercions 2 (Num (Fin 6))) = Num (Fin 6) /\
  matchKey "states" "06" = Num (Fin 6).
Proof.
  pose proof (@match_key_inverts_padding demoCoercions "states" 2 6)
    as (E1 & E2); [reflexivity | lia | lia | lia |].
  split; [reflexivity|]. split; [lia|]. split; [lia|]. split; [lia|].
  split; [exact E1 | exact E2].
Defined.

(** ** Names of the counties *)

Lemma fixed_decimal_split a b n :
  fixed_decimal (a + b) n
  = fixed_decimal a (n / 10 ^ Z.of_nat b) +:+ fixed_decimal b n.
Proof.
  revert n. induction b as [|b IH]; intros n.
  - rewrite Nat.add_0_r. simpl. rewrite Z.div_1_r.
    induction (fixed_decimal a n) as [|c s IHs]; [done|].
    by rewrite append_cons, <- IHs.
  - rewrite Nat.add_succ_r. simpl fixed_decimal. rewrite IH.
    rewrite append_assoc. do 2 f_equal.
    rewrite Z.div_div by lia. f_equal.
    replace (Z.of_nat (S b)) with (1 + Z.of_nat b) by lia.
    rewrite Z.pow_add_r by lia. reflexivity.
Qed.

Lemma substring0_app (a b : string) :
  substring0 (String.length a) (a +:+ b) = a.
Proof.
  induction a as [|c a IH].
  - change (EmptyString +:+ b) with b. by destruct b.
  - change (String c a +:+ b) with (String c (a +:+ b)).
    change (substring0 (String.length (String c a)) (String c (a +:+ b)))
      with (String c (substring0 (String.length a) (a +:+ b))).
    by rewrite IH.
Qed.

Lemma hex_digit_no_prefix c1 c2 rest :
  is_hex_digit c2 = true -> has_hex_prefix (String c1 (String c2 rest)) = false.
Proof.
  intros Hc.
  destruct c1 as [[] [] [] [] [] [] [] []]; try reflexivity.
  destruct c2 as [[] [] [] [] [] [] [] []]; try reflexivity;
    vm_compute in Hc; discriminate Hc.
Qed.

Lemma parseInt_auto_two_digits m :
  0 <= m < 100 -> parseInt_auto (fixed_decimal 2 m) = Some m.
Proof.
  intros Hm. unfold parseInt_auto.
  rewrite trim_start_digits by apply fixed_decimal_digits.
  pose proof (fixed_decimal_digits 2 m) as Hd.
  pose proof (parse_fixed_decimal 1 m) as Hp.
  change (fixed_decimal 2 m)
    with (String (digit_char (m / 10 mod 10))
            (String (digit_char (m mod 10)) EmptyString)) in *.
  simpl in Hd. apply andb_true_iff in Hd as [Hc1 Hc2].
  apply andb_true_iff in Hc2 as [Hc2 _].
  rewrite (hex_digit_strip_sign _ _ Hc1).
  rewrite (hex_digit_no_prefix _ _ _ Hc2), (hex_digit_strip_prefix _ _ _ Hc2).
  rewrite Hp. by rewrite Z.mod_small.
Qed.

Lemma stateFipsToAbbr_nonempty k ab :
  stateFipsToAbbr !! k = Some ab -> String.eqb ab "" = false.
Proof.
  unfold stateFipsToAbbr. intros Hk.
  apply elem_of_list_to_map_2 in Hk.
  repeat (apply elem_of_cons in Hk as [Hk | Hk];
          [injection Hk as -> ->; reflexivity|]).
  by apply elem_of_nil in Hk.
Qed.

Section NamesFacts.
Context `{Coercions}.

(** X9.  For a county whose id pads to the five digit code of
    [0 <= n < 100000], the state the tooltip and the region list name it
    with is the one of the first two digits: [parseInt] of the first two
    characters of the padded id is [n / 1000].  [getFeatureName] returns
    the county name followed by a comma and that state's abbreviation when
    the table has the code, the bare name otherwise, and for a feature
    that has a name [populateRegionList] lists it under the same string.
    Any level other than states, metro areas and ZIP codes is named this
    way. *)
Theorem county_name_carries_state redfinData id properties level n :
  padKey 5 id = fixed_decimal 5 n -> 0 <= n < 100000 ->
  String.eqb level "states" = false -> String.eqb level "cbsas" = false ->
  String.eqb level "zips" = false ->
  let countyName := js_or (get properties "name") (Str "Unknown County") in
  stateFipsOf id = Some (n / 1000) /\
  getFeatureName redfinData id properties level =
  match stateFipsToAbbr !! (n / 1000) with
  | Some stateAbbr => Str (ToString countyName +:+ ", " +:+ stateAbbr)
  | None => countyName
  end /\
  (truthy (get properties "name") = true ->
   countyListName id (get properties "name")
   = getFeatureName redfinData id properties level).
Proof.
  intros Hid Hn Hs Hc Hz countyName.
  assert (E : stateFipsOf id = Some (n / 1000)).
  { unfold stateFipsOf. rewrite Hid.
    change 5%nat with (2 + 3)%nat. rewrite (fixed_decimal_split 2 3 n).
    rewrite <- (fixed_decimal_length 2 (n / 10 ^ Z.of_nat 3)) at 1.
    rewrite substring0_app. apply parseInt_auto_two_digits.
    change (10 ^ Z.of_nat 3) with 1000.
    split; [apply Z.div_pos | apply Z.div_lt_upper_bound]; lia. }
  split; [done|].
  unfold getFeatureName, countyListName. rewrite Hs, Hc, Hz, E.
  cbn [abbrOf]. fold countyName.
  assert (Hname : truthy (get properties "name") = true ->
                  countyName = get properties "name")
    by (intros Ht; unfold countyName, js_or; by rewrite Ht).
  destruct (stateFipsToAbbr !! (n / 1000)) as [ab|] eqn:Eab.
  - rewrite (stateFipsToAbbr_nonempty _ _ Eab). simpl.
    split; [done|]. intros Ht. by rewrite (Hname Ht).
  - split; [done|]. intros Ht. by rewrite (Hname Ht).
Qed.

End NamesFacts.

Lemma county_name_carries_state_witness :
  @padKey demoCoercions 5 (Num (Fin 6037)) = fixed_decimal 5 6037 /\
  0 <= 6037 < 100000 /\
  @stateFipsOf demoCoercions (Num (Fin 6037)) = Some 6 /\
  @getFeatureName demoCoercions ∅ (Num (Fin 6037))
    (record [("name"%string, Str "Los Angeles")]) "counties"
  = Str "Los Angeles, CA".
Proof.
  pose proof (@county_name_carries_state demoCoercions ∅ (Num (Fin 6037))
                (record [("name"%string, Str "Los Angeles")]) "counties" 6037)
    as (Efips & Ename & _);
    [reflexivity | lia | reflexivity | reflexivity | reflexivity |].
  split; [reflexivity|]. split; [lia|]. split; [exact Efips|].
  rewrite Ename. reflexivity.
Defined.

(** ** Feature states: overlay values *)

Lemma padStart_length width c s :
  (width <= String.length (padStart width c s))%nat.
Proof.
  unfold padStart. rewrite append_length, repeat_char_length. lia.
Qed.

Lemma includes_false (l : list string) x : includes l x = false -> x ∉ l.
Proof.
  unfold includes. induction l as [|y l IH]; simpl; intros Hx.
  - apply not_elem_of_nil.
  - apply orb_false_iff in Hx as [Hy Hl]. apply String.eqb_neq in Hy.
    apply not_elem_of_cons. split; [done | by apply IH].
Qed.

Section FeatureFacts.
Context `{Coercions}.

Lemma loadZipRows_lookup rows (table : gmap string obj) k :
  loadZipRows rows table !! k =
  match last (filter (zipRow k) rows) with
  | Some row => Some row
  | None => table !! k
  end.
Proof.
  unfold loadZipRows.
  revert table. induction rows as [|row rows IH]; intros table; [done|].
  simpl foldl. rewrite IH. rewrite filter_cons.
  destruct (not_nullish (get row "ZIP")) eqn:S.
  - destruct (decide (padStart 5 "0" (ToString (get row "ZIP")) = k)) as [E|E].
    + rewrite decide_True by done.
      rewrite last_cons. destruct (last _); [done|].
      by rewrite E, lookup_insert_eq.
    + rewrite decide_False by (intros [_ ?]; done).
      destruct (last _); [done|]. by rewrite lookup_insert_ne.
  - rewrite decide_False by (intros [? _]; congruence). done.
Qed.

Lemma loadZipRows_key_length rows k row :
  loadZipRows rows ∅ !! k = Some row -> (5 <= String.length k)%nat.
Proof.
  rewrite loadZipRows_lookup, lookup_empty.
  destruct (last _) as [r|] eqn:El; [|done]. intros _.
  apply last_Some_elem_of, list_elem_of_filter in El as [[_ <-] _].
  apply padStart_length.
Qed.

(** X10.  The ZIP loader and the matching chain of
    [applyRedfinDataToZips] fit together: a ZIP feature receives the
    values of the last row of the document whose ZIP code pads to the same
    five characters as the feature's id, the row the table holds under
    [String(id).padStart(5, '0')].  The first alternative of the chain,
    the unpadded id, cannot pick another row, because every key the loader
    writes has at least five characters. *)
Theorem zip_feature_gets_last_row_of_its_zip rows feature row :
  last (filter (zipRow (padKey 5 (feature_id feature))) rows) = Some row ->
  matchingData "zips" (loadZipRows rows ∅) feature = Some row /\
  loadZipRows rows ∅ !! padKey 5 (feature_id feature) = Some row.
Proof.
  intros Hlast.
  assert (Hpad : loadZipRows rows ∅ !! padKey 5 (feature_id feature) = Some row)
    by (by rewrite loadZipRows_lookup, Hlast).
  split; [|done].
  unfold matchingData. change (String.eqb "zips" "zips") with true. cbv iota.
  unfold matchZip. unfold padKey in Hpad.
  destruct (loadZipRows rows ∅ !! ToString (feature_id feature)) as [r|] eqn:E.
  - pose proof (loadZipRows_key_length _ _ _ E) as Hlen.
    rewrite padStart_full in Hpad by done. congruence.
  - by rewrite Hpad.
Qed.

Lemma getFeatureState_set source layer id state (fs : States)
    source' layer' id' :
  getFeatureState source' layer' id'
    (setFeatureState source layer id state fs) =
  if decide ((source', layer', ToString id') = (source, layer, ToString id))
  then state ∪ getFeatureState source' layer' id' fs
  else getFeatureState source' layer' id' fs.
Proof.
  unfold getFeatureState, setFeatureState, States in *.
  destruct (decide _) as [E|E].
  - rewrite E, lookup_insert_eq. simpl. done.
  - by rewrite lookup_insert_ne.
Qed.

Lemma overlayState_other matching f :
  includes stateFields f = false -> overlayState matching !! f = None.
Proof.
  intros Hf. apply includes_false in Hf. unfold overlayState.
  apply not_elem_of_list_to_map_1. rewrite <- list_fmap_compose.
  intros Hin. apply Hf. apply list_elem_of_fmap in Hin as (g & -> & Hg). done.
Qed.

Lemma applyToFeature_other level sourceId sourceLayer table acc feature
    source layer id f :
  includes stateFields f = false ->
  getFeatureState source layer id
    (applyToFeature level sourceId sourceLayer table acc feature).1 !! f
  = getFeatureState source layer id acc.1 !! f.
Proof.
  intros Hf. unfold applyToFeature.
  destruct (matchingData level table feature) as [matching|]; [|done].
  destruct (negb _); [|done]. cbn [fst].
  rewrite getFeatureState_set. destruct (decide _); [|done].
  rewrite lookup_union_r; [done | by apply overlayState_other].
Qed.

(** X11.  Applying the overlay to the features writes the fourteen market
    fields and nothing else: every other property of a feature's state is
    what it was before, for every target and at every level. *)
Theorem overlay_leaves_other_fields level rf features (fs : States)
    source layer id f :
  includes stateFields f = false ->
  getFeatureState source layer id
    (applyRedfinDataToZips level rf features fs) !! f
  = getFeatureState source layer id fs !! f.
Proof.
  intros Hf. unfold applyRedfinDataToZips.
  destruct (activeRedfinData level rf) as [active [[sourceId sourceLayer]|]];
    [|done].
  destruct (size active =? 0)%nat; [done|].
  unfold applyToLoadedFeatures.
  change fs with ((fs, O).1) at 2. generalize (fs, O).
  induction features as [|feature features IH]; intros acc; [done|].
  simpl foldl. rewrite IH. by apply applyToFeature_other.
Qed.

(** X12.  The overlay values are written to the features and the map is
    coloured without an exception only at the levels [zips], [states] and
    [counties].  The metro table is applied under the level name [cbsa],
    for which [applyChoropleth] has no dataset and ends in a [TypeError];
    under the name [cbsas], which [applyChoropleth] knows, no table is
    applied. *)
Theorem overlay_and_colouring_levels level rf source layer cs metric ds :
  (activeRedfinData level rf).2 = Some (source, layer) ->
  String.eqb metric "none" = false ->
  throws (applyChoroplethAt cs level metric ds).1 = false ->
  level = source /\ source ∈ ["zips"; "states"; "counties"]%string.
Proof.
  unfold activeRedfinData. intros Ha Hm Ht.
  repeat match type of Ha with
         | context [String.eqb level ?s] =>
             let E := fresh "E" in
             destruct (String.eqb level s) eqn:E;
             [apply String.eqb_eq in E; subst level|];
             cbn [andb] in Ha
         end;
    repeat match type of Ha with
           | context [(0 <? ?n)%nat] => destruct (0 <? n)%nat; cbn [snd] in Ha
           end;
    try discriminate Ha; try (injection Ha as <- <-).
  - split; [done|]. apply list_elem_of_here.
  - split; [done|]. apply list_elem_of_further, list_elem_of_here.
  - split; [done|].
    apply list_elem_of_further, list_elem_of_further, list_elem_of_here.
  - exfalso. unfold applyChoroplethAt in Ht. rewrite Hm in Ht.
    simpl in Ht. destruct (includes redfinMetrics metric); discriminate.
Qed.

End FeatureFacts.

Lemma zip_feature_gets_last_row_of_its_zip_witness :
  last (filter (@zipRow demoCoercions
                  (@padKey demoCoercions 5 (feature_id bostonFeature)))
               [bostonFirst; bostonLast]) = Some bostonLast /\
  @matchingData demoCoercions "zips"
    (@loadZipRows demoCoercions [bostonFirst; bostonLast] ∅) bostonFeature
  = Some bostonLast.
Proof.
  pose proof (@zip_feature_gets_last_row_of_its_zip demoCoercions
                [bostonFirst; bostonLast] bostonFeature bostonLast)
    as [Hmatch _]; [reflexivity|].
  split; [reflexivity | exact Hmatch].
Defined.

Lemma overlay_leaves_other_fields_witness :
  includes stateFields "hover" = false /\
  @getFeatureState demoCoercions "states" (Some "us-states-simplified"%string)
    (Num (Fin 6))
    (@applyRedfinDataToZips demoCoercions "states" (tablesOf [allResidentialJune])
       [californiaFeature] markedCalifornia) !! "hover"%string
  = Some (Bool true) /\
  @getFeatureState demoCoercions "states" (Some "us-states-simplified"%string)
    (Num (Fin 6))
    (@applyRedfinDataToZips demoCoercions "states" (tablesOf [allResidentialJune])
       [californiaFeature] markedCalifornia) !! "MEDIAN_SALE_PRICE"%string
  = Some (Num (Fin 800000)).
Proof.
  split; [reflexivity|]. split.
  - rewrite (@overlay_leaves_other_fields demoCoercions "states"
               (tablesOf [allResidentialJune]) [californiaFeature]
               markedCalifornia "states" (Some "us-states-simplified"%string)
               (Num (Fin 6)) "hover");
      reflexivity.
  - vm_compute. reflexivity.
Defined.

Lemma overlay_and_colouring_levels_witness :
  (activeRedfinData "states" (tablesOf [allResidentialJune])).2
  = Some ("states", "us-states-simplified")%string /\
  String.eqb "totalPopulation" "none" = false /\
  throws (applyChoroplethAt defaultSettings "states" "totalPopulation"
            populationOnly).1 = false /\
  "states"%string ∈ ["zips"; "states"; "counties"]%string.
Proof.
  pose proof (overlay_and_colouring_levels "states"
                (tablesOf [allResidentialJune]) "states" "us-states-simplified"
                defaultSettings "totalPopulation" populationOnly) as Hlevels.
  split; [reflexivity|]. split; [reflexivity|]. split; [reflexivity|].
  apply Hlevels; reflexivity.
Defined.

(** ** Feature states: highlights *)

Section HighlightFacts.
Context `{Coercions}.

Lemma getFeatureState_fold (source : string) (ids : list value) (state : obj)
    (fs : States) source' layer' id' :
  getFeatureState source' layer' id'
    (foldl (λ fs id, setFeatureState source None id state fs) fs ids) =
  if bool_decide ((source', layer', ToString id')
                  ∈ (λ id, (source, None, ToString id)) <$> ids)
  then state ∪ getFeatureState source' layer' id' fs
  else getFeatureState source' layer' id' fs.
Proof.
  revert fs. induction ids as [|id ids IH]; intros fs; [done|].
  simpl foldl. rewrite IH, getFeatureState_set. rewrite fmap_cons.
  destruct (decide ((source', layer', ToString id')
                    = (source, None, ToString id))) as [E|E].
  - rewrite (bool_decide_eq_true_2 (_ ∈ _ :: _)) by (rewrite E; left).
    rewrite union_absorb. by destruct (bool_decide _).
  - destruct (bool_decide (_ ∈ (λ id0, (source, None, ToString id0)) <$> ids))
      eqn:D.
    + apply bool_decide_eq_true in D.
      by rewrite (bool_decide_eq_true_2 (_ ∈ _ :: _)) by (by right).
    + apply bool_decide_eq_false in D.
      rewrite (bool_decide_eq_false_2 (_ ∈ _ :: _)); [done|].
      intros Hin. apply elem_of_cons in Hin as [Hin | Hin]; done.
Qed.

Lemma region_key_listed (source : string) (allRegions : list value) r :
  r ∈ allRegions ->
  (source, @None string, ToString r)
  ∈ (λ id, (source, None, ToString id)) <$> allRegions.
Proof. intros Hr. apply list_elem_of_fmap. by exists r. Qed.

Lemma set_key_listed (source : string) (set : list string) id :
  (source, @None string, ToString id)
  ∈ (λ id, (source, None, ToString id)) <$> (Str <$> set)
  <-> ToString id ∈ set.
Proof.
  rewrite <- list_fmap_compose. split.
  - intros Hin. apply list_elem_of_fmap in Hin as (s & E & Hs).
    simpl in E. injection E as ->. done.
  - intros Hin. apply list_elem_of_fmap. by exists (ToString id).
Qed.

Lemma updateHighlights_unfold level allRegions (set : list string) (fs : States) :
  updateHighlights level allRegions set fs =
  let sourceId := highlightSource level in
  let cleared :=
    foldl (λ fs id,
             setFeatureState sourceId None id
               {[ "highlighted"%string := Bool false;
                  "dimmed"%string := Bool false ]} fs)
          fs allRegions in
  if (0 <? length set)%nat then
    foldl (λ fs id,
             setFeatureState sourceId None id
               {[ "highlighted"%string := Bool true;
                  "dimmed"%string := Bool false ]} fs)
      (foldl (λ fs id,
               setFeatureState sourceId None id
                 {[ "dimmed"%string := Bool true ]} fs)
            cleared allRegions)
      (Str <$> set)
  else cleared.
Proof.
  unfold updateHighlights. cbv zeta. destruct (0 <? length set)%nat; [|done].
  by rewrite foldl_fmap.
Qed.

Lemma flag_union_l (state old : obj) f b :
  state !! f = Some (Bool b) -> flag (state ∪ old) f = b.
Proof. intros Hf. unfold flag. by rewrite (lookup_union_Some_l _ _ _ _ Hf). Qed.

Lemma flag_union_r (state old : obj) f :
  state !! f = None -> flag (state ∪ old) f = flag old f.
Proof. intros Hf. unfold flag. by rewrite lookup_union_r. Qed.

Lemma both_flags_lookup h d :
  ({[ "highlighted"%string := Bool h; "dimmed"%string := Bool d ]} : obj)
    !! "highlighted"%string = Some (Bool h) /\
  ({[ "highlighted"%string := Bool h; "dimmed"%string := Bool d ]} : obj)
    !! "dimmed"%string = Some (Bool d).
Proof.
  split; [by rewrite lookup_insert_eq|].
  rewrite lookup_insert_ne by done. by rewrite lookup_singleton_eq.
Qed.

Lemma dimmed_flag_lookup d :
  ({[ "dimmed"%string := Bool d ]} : obj) !! "highlighted"%string = None /\
  ({[ "dimmed"%string := Bool d ]} : obj) !! "dimmed"%string = Some (Bool d).
Proof.
  split; [by rewrite lookup_singleton_ne | by rewrite lookup_singleton_eq].
Qed.

(** Flags of a listed region after [updateHighlights]. *)
Lemma updateHighlights_flags level allRegions (set : list string) (fs : States) r :
  r ∈ allRegions ->
  let state := getFeatureState (highlightSource level) None r
                 (updateHighlights level allRegions set fs) in
  flag state "highlighted" = bool_decide (ToString r ∈ set) /\
  flag state "dimmed"
  = (0 <? length set)%nat && negb (bool_decide (ToString r ∈ set)).
Proof.
  intros Hr state. subst state. rewrite updateHighlights_unfold. cbv zeta.
  pose proof (region_key_listed (highlightSource level) _ _ Hr) as Hk.
  destruct (0 <? length set)%nat eqn:Hsize.
  - rewrite getFeatureState_fold.
    destruct (bool_decide (ToString r ∈ set)) eqn:D.
    + apply bool_decide_eq_true in D.
      rewrite bool_decide_eq_true_2 by (by apply set_key_listed).
      destruct (both_flags_lookup true false) as [Lh Ld].
      by rewrite (flag_union_l _ _ _ _ Lh), (flag_union_l _ _ _ _ Ld).
    + apply bool_decide_eq_false in D.
      rewrite bool_decide_eq_false_2 by (by rewrite set_key_listed).
      rewrite !getFeatureState_fold, !bool_decide_eq_true_2 by done.
      destruct (both_flags_lookup false false) as [Lh Ld].
      destruct (dimmed_flag_lookup true) as [Mh Md].
      rewrite (flag_union_r _ _ _ Mh), (flag_union_l _ _ _ _ Lh).
      by rewrite (flag_union_l _ _ _ _ Md).
  - rewrite getFeatureState_fold, bool_decide_eq_true_2 by done.
    assert (set = []) as -> by (destruct set; [done | discriminate]).
    destruct (both_flags_lookup false false) as [Lh Ld].
    by rewrite (flag_union_l _ _ _ _ Lh), (flag_union_l _ _ _ _ Ld).
Qed.

(** X13.  After [updateHighlights] the flags of every listed region follow
    the selection, whatever the feature states were before: a region is
    [highlighted] exactly when its id (in string form) is in the set of
    highlighted regions, it is [dimmed] exactly when the set is not empty
    and does not hold it, and it is never both. *)
Theorem highlight_flags_follow_selection level allRegions (set : list string)
    (fs : States) r :
  r ∈ allRegions ->
  let state := getFeatureState (highlightSource level) None r
                 (updateHighlights level allRegions set fs) in
  flag state "highlighted" = bool_decide (ToString r ∈ set) /\
  flag state "dimmed"
  = (0 <? length set)%nat && negb (bool_decide (ToString r ∈ set)) /\
  flag state "highlighted" && flag state "dimmed" = false.
Proof.
  intros Hr state.
  destruct (updateHighlights_flags level allRegions set fs r Hr) as [Eh Ed].
  fold state in Eh, Ed. rewrite Eh, Ed.
  split; [done|]. split; [done|].
  destruct (bool_decide _), (0 <? length set)%nat; done.
Qed.

Lemma elem_of_set_add x y (s : list string) :
  x ∈ set_add y s <-> x = y \/ x ∈ s.
Proof.
  unfold set_add. destruct (bool_decide (y ∈ s)) eqn:D.
  - apply bool_decide_eq_true in D. split; [by right|].
    intros [-> | Hx]; done.
  - rewrite elem_of_app, list_elem_of_singleton. tauto.
Qed.

Lemma elem_of_set_delete x y (s : list string) :
  x ∈ set_delete y s <-> x <> y /\ x ∈ s.
Proof. unfold set_delete. by rewrite list_elem_of_filter. Qed.

(** X14.  Ticking or unticking the checkbox of a region changes the
    [highlighted] flag of that region alone among the listed regions: the
    region whose id has the string form of the checkbox gets the state of
    the checkbox, every other listed region is highlighted exactly when it
    was selected before. *)
Theorem checkbox_sets_flag_of_its_region regionId checked level allRegions
    (highlightedRegions : list string) (fs : States) r :
  r ∈ allRegions ->
  let after := handleRegionCheckbox regionId checked level allRegions
                 highlightedRegions fs in
  flag (getFeatureState (highlightSource level) None r after.2) "highlighted" =
  if String.eqb (ToString r) regionId then checked
  else bool_decide (ToString r ∈ highlightedRegions).
Proof.
  intros Hr after. subst after. unfold handleRegionCheckbox. cbn [snd].
  destruct (updateHighlights_flags level allRegions
              (if checked then set_add regionId highlightedRegions
               else set_delete regionId highlightedRegions) fs r Hr) as [-> _].
  destruct (String.eqb (ToString r) regionId) eqn:E.
  - apply String.eqb_eq in E. destruct checked.
    + apply bool_decide_eq_true. apply elem_of_set_add. by left.
    + apply bool_decide_eq_false. rewrite elem_of_set_delete. tauto.
  - apply String.eqb_neq in E. apply bool_decide_ext. destruct checked.
    + rewrite elem_of_set_add. tauto.
    + rewrite elem_of_set_delete. tauto.
Qed.

Lemma both_flags_other f h d :
  f <> "highlighted"%string -> f <> "dimmed"%string ->
  ({[ "highlighted"%string := Bool h; "dimmed"%string := Bool d ]} : obj) !! f
  = None.
Proof.
  intros Hh Hd. rewrite lookup_insert_ne by done. by rewrite lookup_singleton_ne.
Qed.

Lemma dimmed_flag_other f d :
  f <> "dimmed"%string -> ({[ "dimmed"%string := Bool d ]} : obj) !! f = None.
Proof. intros Hd. by rewrite lookup_singleton_ne. Qed.

(** X15.  [updateHighlights] writes the two flags and nothing else: every
    other property of a feature's state is what it was before, for every
    target. *)
Theorem highlights_leave_other_fields level allRegions (set : list string)
    (fs : States) source layer id f :
  f <> "highlighted"%string -> f <> "dimmed"%string ->
  getFeatureState source layer id
    (updateHighlights level allRegions set fs) !! f
  = getFeatureState source layer id fs !! f.
Proof.
  intros Hh Hd. rewrite updateHighlights_unfold. cbv zeta.
  assert (Hfold : forall (state : obj) ids (fs0 : States),
    state !! f = None ->
    getFeatureState source layer id
      (foldl (λ fs id, setFeatureState (highlightSource level) None id state fs)
             fs0 ids) !! f
    = getFeatureState source layer id fs0 !! f).
  { intros state ids fs0 Hs. rewrite getFeatureState_fold.
    destruct (bool_decide _); [|done]. by rewrite lookup_union_r. }
  destruct (0 <? length set)%nat;
    rewrite !Hfold; auto using both_flags_other, dimmed_flag_other.
Qed.

Lemma highlightSource_not_zips level : highlightSource level <> "zips"%string.
Proof.
  unfold highlightSource.
  destruct (String.eqb level "states"); [done|].
  destruct (String.eqb level "counties"); done.
Qed.

(** X16.  No feature of the ZIP source is ever highlighted or dimmed:
    [updateHighlights] writes to the source of the states, of the counties
    or of the metro areas, and at the ZIP level, as at any level it does
    not know, to that of the metro areas. *)
Theorem zip_features_never_highlighted level allRegions (set : list string)
    (fs : States) layer id :
  getFeatureState "zips" layer id (updateHighlights level allRegions set fs)
  = getFeatureState "zips" layer id fs.
Proof.
  rewrite updateHighlights_unfold. cbv zeta.
  assert (Hfold : forall (state : obj) ids (fs0 : States),
    getFeatureState "zips" layer id
      (foldl (λ fs id, setFeatureState (highlightSource level) None id state fs)
             fs0 ids)
    = getFeatureState "zips" layer id fs0).
  { intros state ids fs0. rewrite getFeatureState_fold.
    rewrite bool_decide_eq_false_2; [done|].
    intros Hin. apply list_elem_of_fmap in Hin as (x & E & _).
    injection E as E _. symmetry in E. by apply highlightSource_not_zips in E. }
  destruct (0 <? length set)%nat; by rewrite !Hfold.
Qed.

Lemma applyToFeature_no_layer level sourceId sourceLayer table acc feature
    source id :
  getFeatureState source None id
    (applyToFeature level sourceId sourceLayer table acc feature).1
  = getFeatureState source None id acc.1.
Proof.
  unfold applyToFeature.
  destruct (matchingData level table feature) as [matching|]; [|done].
  destruct (negb _); [|done]. cbn [fst].
  rewrite getFeatureState_set. by rewrite decide_False.
Qed.

(** X17.  The overlay and the highlights never write to the same feature
    state: [applyRedfinDataToZips] names a source layer in every call of
    [setFeatureState], [updateHighlights] names none.  The states reached
    without a source layer are untouched by the overlay, whatever the
    level, the tables and the features are, and the states reached with a
    source layer are untouched by the highlights. *)
Theorem overlay_and_highlights_never_meet level rf features allRegions
    (set : list string) (fs : States) source layer id :
  getFeatureState source None id (applyRedfinDataToZips level rf features fs)
  = getFeatureState source None id fs /\
  getFeatureState source (Some layer) id
    (updateHighlights level allRegions set fs)
  = getFeatureState source (Some layer) id fs.
Proof.
  split.
  - unfold applyRedfinDataToZips.
    destruct (activeRedfinData level rf) as [active [[sourceId sourceLayer]|]];
      [|done].
    destruct (size active =? 0)%nat; [done|].
    unfold applyToLoadedFeatures.
    change fs with ((fs, O).1) at 2. generalize (fs, O).
    induction features as [|feature features IH]; intros acc; [done|].
    simpl foldl. rewrite IH. apply applyToFeature_no_layer.
  - rewrite updateHighlights_unfold. cbv zeta.
    assert (Hfold : forall (state : obj) ids (fs0 : States),
      getFeatureState source (Some layer) id
        (foldl (λ fs id,
                  setFeatureState (highlightSource level) None id state fs)
               fs0 ids)
      = getFeatureState source (Some layer) id fs0).
    { intros state ids fs0. rewrite getFeatureState_fold.
      rewrite bool_decide_eq_false_2; [done|].
      intros Hin. apply list_elem_of_fmap in Hin as (x & E & _).
      discriminate E. }
    destruct (0 <? length set)%nat; by rewrite !Hfold.
Qed.

End HighlightFacts.

Lemma highlight_flags_follow_selection_witness :
  Num (Fin 48) ∈ [Num (Fin 6); Num (Fin 48)] /\
  flag (@getFeatureState demoCoercions "states" None (Num (Fin 48))
          (@updateHighlights demoCoercions "states" [Num (Fin 6); Num (Fin 48)]
             ["6"%string] highlightedCalifornia)) "highlighted" = false /\
  flag (@getFeatureState demoCoercions "states" None (Num (Fin 48))
          (@updateHighlights demoCoercions "states" [Num (Fin 6); Num (Fin 48)]
             ["6"%string] highlightedCalifornia)) "dimmed" = true.
Proof.
  assert (Hin : Num (Fin 48) ∈ [Num (Fin 6); Num (Fin 48)])
    by apply list_elem_of_further, list_elem_of_here.
  pose proof (@highlight_flags_follow_selection demoCoercions "states"
                [Num (Fin 6); Num (Fin 48)] ["6"%string] highlightedCalifornia
                (Num (Fin 48)) Hin) as (Eh & Ed & _).
  split; [exact Hin|].
  split; [etransitivity; [exact Eh | reflexivity]
         | etransitivity; [exact Ed | reflexivity]].
Defined.

Lemma checkbox_sets_flag_of_its_region_witness :
  Num (Fin 6) ∈ [Num (Fin 6); Num (Fin 48)] /\
  flag (@getFeatureState demoCoercions "states" None (Num (Fin 6))
          (@handleRegionCheckbox demoCoercions "6" false "states"
             [Num (Fin 6); Num (Fin 48)] ["6"; "48"]%string
             highlightedCalifornia).2) "highlighted" = false.
Proof.
  assert (Hin : Num (Fin 6) ∈ [Num (Fin 6); Num (Fin 48)])
    by apply list_elem_of_here.
  split; [exact Hin|].
  etransitivity;
    [exact (@checkbox_sets_flag_of_its_region demoCoercions "6" false "states"
              [Num (Fin 6); Num (Fin 48)] ["6"; "48"]%string
              highlightedCalifornia (Num (Fin 6)) Hin)
    | reflexivity].
Defined.

Lemma highlights_leave_other_fields_witness :
  "MEDIAN_SALE_PRICE"%string <> "highlighted"%string /\
  "MEDIAN_SALE_PRICE"%string <> "dimmed"%string /\
  @getFeatureState demoCoercions "states" None (Num (Fin 6))
    (@updateHighlights demoCoercions "states" [Num (Fin 6); Num (Fin 48)]
       ["48"%string] pricedCalifornia) !! "MEDIAN_SALE_PRICE"%string
  = Some (Num (Fin 800000)).
Proof.
  split; [discriminate|]. split; [discriminate|].
  rewrite (@highlights_leave_other_fields demoCoercions "states"
             [Num (Fin 6); Num (Fin 48)] ["48"%string] pricedCalifornia
             "states" None (Num (Fin 6)) "MEDIAN_SALE_PRICE");
    [reflexivity | discriminate | discriminate].
Defined.

(** ** The loading sequence, state by state *)

Section LoadFacts.
Context `{Coercions}.

(** X18.  When the boundary files load, [loadGeoData] leaves each of the
    four overlay tables a function of its own source alone, whatever the
    other three sources do: the ZIP table is extended by the rows that
    come before the first [null] of its array, an aggregated table by the
    rows of an array without [null], and a table whose source is not
    [ok], does not parse or holds no array is what it was.  When no
    [null] record stands in a dataset whose table has a row, the promise
    fulfils, the loading overlay is hidden and the region records are the
    merge of the tables into the records found; otherwise the merge
    throws, the error message is shown and the promise rejects, with the
    tables loaded all the same. *)
Theorem overlay_sources_are_independent src st :
  geometry_loaded src = true ->
  let after := (loadGeoData src st).1 in
  let tables := tablesAfter src (redfin st) in
  redfin after = tables /\
  (mergeable tables (economicData st) = true ->
   settled (loadGeoData src st) = Normal tt /\
   economicData after = merged tables (economicData st) /\
   loadingOverlay after = Hidden) /\
  (mergeable tables (economicData st) = false ->
   settled (loadGeoData src st) = Throw /\
   loadingOverlay after = ErrorMessage).
Proof.
  intros Hg after tables. subst after tables.
  destruct (mergeable (tablesAfter src (redfin st)) (economicData st)) eqn:Hm.
  - rewrite (loadGeoData_done _ _ Hg Hm). by repeat split.
  - destruct (loadGeoData_merge_throws _ _ Hg Hm) as [ed' ->].
    by repeat split.
Qed.

(** X19.  When a boundary file fails to load, [loadGeoData] has loaded no
    overlay and merged nothing: the boundary files are awaited first, so
    the region records and the four tables are what they were, and only
    the loading overlay changes, to the error message. *)
Theorem boundary_failure_loads_nothing src st :
  geometry_loaded src = false ->
  loadGeoData src st =
  ({| economicData := economicData st; redfin := redfin st;
      loadingOverlay := ErrorMessage |}, Throw).
Proof.
  intros Hg. unfold geometry_loaded in Hg.
  unfold loadGeoData, try_catch.
  destruct (states_geometry src); [|done].
  destruct (counties_geometry src); [|done].
  destruct (cbsa_geometry src); [discriminate Hg | done].
Qed.




(** *** The class based variant *)

Lemma class_loadGeoData_run src ed rf o u :
  ClassMap.loadGeoData src
    {| ClassMap.globals := {| economicData := ed; redfin := rf;
                              loadingOverlay := o |};
       ClassMap.usData := u |}
  = ({| ClassMap.globals :=
          {| economicData := ed; redfin := rf;
             loadingOverlay :=
               if ClassMap.boundaries_loaded src then Hidden else o |};
        ClassMap.usData := u || ClassMap.boundaries_loaded src |},
     Normal tt).
Proof.
  unfold ClassMap.loadGeoData, ClassMap.boundaries_loaded.
  destruct (states_geometry src), (counties_geometry src), (cbsa_geometry src);
    cbn; rewrite ?orb_true_r, ?orb_false_r; reflexivity.
Qed.

Lemma class_calculateDerivedRates_keeps P :
  (forall f, keeps P (onStates f)) -> (forall f, keeps P (onCounties f)) ->
  (forall f, keeps P (onCbsas f)) ->
  keeps P ClassMap.calculateDerivedRates.
Proof.
  intros H1 H2 H3. unfold ClassMap.calculateDerivedRates.
  apply keeps_seq; [apply H1|]. apply keeps_seq; [apply H2 | apply H3].
Qed.

Lemma class_loadEconomicData_run src ed rf o u :
  exists ed',
    ClassMap.loadEconomicData src
      {| ClassMap.globals := {| economicData := ed; redfin := rf;
                                loadingOverlay := o |};
         ClassMap.usData := u |}
    = ({| ClassMap.globals := {| economicData := ed'; redfin := rf;
                                 loadingOverlay := o |};
          ClassMap.usData := u |}, Normal tt).
Proof.
  unfold ClassMap.loadEconomicData, ClassMap.lift. cbn [ClassMap.globals].
  match goal with
  | |- context [try_catch ?body console_log] => set (task := try_catch body console_log)
  end.
  assert (Hsafe : safe task) by apply safe_try_catch, safe_ret.
  assert (Hkeeps : forall P,
            (forall f, keeps P (onStates f)) ->
            (forall f, keeps P (onCounties f)) ->
            (forall f, keeps P (onCbsas f)) -> keeps P task).
  { intros P H1 H2 H3. subst task. apply keeps_try_catch; [|apply keeps_ret].
    apply (keeps_bind _ (λ _, True)); [apply fetch_json_keeps | done|].
    intros d1 _.
    apply (keeps_bind _ (λ _, True)); [apply fetch_json_keeps | done|].
    intros d2 _.
    apply (keeps_bind _ (λ _, True)); [apply fetch_json_keeps | done|].
    intros d3 _.
    apply (keeps_bind _ (λ _, True)); [apply dataset_keeps | done|].
    intros states _. apply keeps_seq; [apply H1|].
    apply (keeps_bind _ (λ _, True)); [apply dataset_keeps | done|].
    intros counties _. apply keeps_seq; [apply H2|].
    apply (keeps_bind _ (λ _, True)); [apply dataset_keeps | done|].
    intros cbsas _. apply keeps_seq; [apply H3|].
    by apply class_calculateDerivedRates_keeps. }
  set (st := {| economicData := ed; redfin := rf; loadingOverlay := o |}).
  destruct (Hsafe st) as (st' & [] & E).
  pose proof (Hkeeps (λ s, redfin s = rf)
                (λ f, proj1 (onStates_step f) rf)
                (λ f, proj1 (onCounties_step f) rf)
                (λ f, proj1 (onCbsas_step f) rf) st eq_refl) as Hrf.
  pose proof (Hkeeps (λ s, loadingOverlay s = o)
                (λ f, proj2 (onStates_step f) o)
                (λ f, proj2 (onCounties_step f) o)
                (λ f, proj2 (onCbsas_step f) o) st eq_refl) as Ho.
  rewrite E in Hrf, Ho |- *. cbn [fst] in *.
  destruct st' as [ed' rf' o']. cbn in Hrf, Ho. subst rf' o'.
  by exists ed'.
Qed.

Lemma method_bind_normal {A B} (m : ClassMap.Method A)
    (k : A -> ClassMap.Method B) self self' a :
  m self = (self', Normal a) -> (m ≫= k) self = k a self'.
Proof. intros E. unfold mbind, ClassMap.method_bind. by rewrite E. Qed.

Lemma class_onLoad_run regionList src ed rf o u :
  exists ed',
    ClassMap.onLoad regionList src
      {| ClassMap.globals := {| economicData := ed; redfin := rf;
                                loadingOverlay := o |};
         ClassMap.usData := u |}
    = ({| ClassMap.globals :=
            {| economicData := ed'; redfin := rf;
               loadingOverlay :=
                 if ClassMap.boundaries_loaded src then Hidden else o |};
          ClassMap.usData := u || ClassMap.boundaries_loaded src |},
       if regionList && negb (u || ClassMap.boundaries_loaded src)
       then Throw else Normal tt).
Proof.
  set (o' := if ClassMap.boundaries_loaded src then Hidden else o).
  set (u' := u || ClassMap.boundaries_loaded src).
  destruct (class_loadEconomicData_run src ed rf o' u') as [ed' E].
  exists ed'. unfold ClassMap.onLoad.
  rewrite (method_bind_normal _ _ _ _ tt (class_loadGeoData_run _ _ _ _ _)).
  fold o' u'. rewrite (method_bind_normal _ _ _ _ tt E).
  rewrite (method_bind_normal _ _ _ _ tt eq_refl).
  rewrite (method_bind_normal _ _ _ _ tt eq_refl).
  unfold mbind, ClassMap.method_bind, ClassMap.populateRegionList.
  cbn [ClassMap.usData]. by destruct (regionList && negb u').
Qed.

(** X21.  The two loaders of the class based variant never reject: their
    [catch] blocks only log.  The [load] handler of the class has no
    [catch] and goes on to [populateRegionList]: when the page has the
    region list and the state or county boundaries did not load,
    [this.usData] is still [null] there and the handler rejects; in every
    other case it fulfils.  The loading overlay is hidden when the two
    boundary files load (the metro boundaries are optional) and stays as
    it was otherwise, and the overlay tables are never written. *)
Theorem class_variant_loaders_only_log regionList src self :
  let after := (ClassMap.onLoad regionList src self).1 in
  settled (ClassMap.loadGeoData src self) = Normal tt /\
  settled (ClassMap.loadEconomicData src self) = Normal tt /\
  settled (ClassMap.onLoad regionList src self)
  = (if regionList
        && negb (ClassMap.usData self || ClassMap.boundaries_loaded src)
     then Throw else Normal tt) /\
  ClassMap.usData after
  = ClassMap.usData self || ClassMap.boundaries_loaded src /\
  loadingOverlay (ClassMap.globals after)
  = (if ClassMap.boundaries_loaded src then Hidden
     else loadingOverlay (ClassMap.globals self)) /\
  redfin (ClassMap.globals after) = redfin (ClassMap.globals self).
Proof.
  intros after. subst after. destruct self as [[ed rf o] u].
  split; [by rewrite class_loadGeoData_run|].
  split.
  { destruct (class_loadEconomicData_run src ed rf o u) as [ed' ->]. done. }
  destruct (class_onLoad_run regionList src ed rf o u) as [ed' ->].
  cbn [fst snd settled ClassMap.usData ClassMap.globals loadingOverlay redfin].
  done.
Qed.

End LoadFacts.

Lemma overlay_sources_are_independent_witness :
  geometry_loaded countyOverlayOnly = true /\
  mergeable (@tablesAfter demoCoercions countyOverlayOnly (redfin initialSession))
    (economicData initialSession) = true /\
  redfinCountyData
    (redfin (@loadGeoData demoCoercions countyOverlayOnly initialSession).1)
  = {["06037"%string := losAngelesJune]} /\
  redfinStateData
    (redfin (@loadGeoData demoCoercions countyOverlayOnly initialSession).1)
  = ∅ /\
  settled (@loadGeoData demoCoercions countyOverlayOnly initialSession)
  = Normal tt.
Proof.
  pose proof (@overlay_sources_are_independent demoCoercions countyOverlayOnly
                initialSession eq_refl) as (Etables & Hdone & _).
  split; [reflexivity|]. split; [vm_compute; reflexivity|].
  rewrite Etables. split; [vm_compute; reflexivity|].
  split; [vm_compute; reflexivity|].
  apply Hdone. vm_compute. reflexivity.
Defined.

Lemma class_variant_loaders_only_log_witness :
  settled (ClassMap.loadGeoData noStateBoundaries ClassMap.newInstance)
    = Normal tt /\
  settled (@ClassMap.onLoad demoCoercions true noStateBoundaries
             ClassMap.newInstance) = Throw /\
  settled (@ClassMap.onLoad demoCoercions false noStateBoundaries
             ClassMap.newInstance) = Normal tt /\
  settled (@ClassMap.onLoad demoCoercions true boundaryFails
             ClassMap.newInstance) = Normal tt.
Proof.
  pose proof (@class_variant_loaders_only_log demoCoercions true
                noStateBoundaries ClassMap.newInstance) as (Hgeo & _ & Hlist & _).
  pose proof (@class_variant_loaders_only_log demoCoercions false
                noStateBoundaries ClassMap.newInstance) as (_ & _ & Hnone & _).
  pose proof (@class_variant_loaders_only_log demoCoercions true
                boundaryFails ClassMap.newInstance) as (_ & _ & Hcbsa & _).
  split; [exact Hgeo|].
  split; [etransitivity; [exact Hlist | reflexivity]|].
  split; [etransitivity; [exact Hnone | reflexivity]
         | etransitivity; [exact Hcbsa | reflexivity]].
Defined.

Lemma boundary_failure_loads_nothing_witness :
  geometry_loaded boundaryFails = false /\
  @loadGeoData demoCoercions boundaryFails initialSession
  = ({| economicData := economicData initialSession; redfin := noRedfin;
        loadingOverlay := ErrorMessage |}, Throw).
Proof.
  split; [reflexivity|].
  apply (@boundary_failure_loads_nothing demoCoercions boundaryFails
           initialSession). reflexivity.
Defined.

(** ** Derived rates, once more *)

Section DeriveMore.
Context `{Coercions}.

Lemma deriveRate_idem field num den item :
  deriveRate field num den (deriveRate field num den item)
  = deriveRate field num den item.
Proof.
  unfold deriveRate at 2.
  destruct (strict_eq (get item field) Undefined && truthy (get item num)
            && truthy (get item den)) eqn:E; [|reflexivity].
  unfold deriveRate at 1. unfold get at 1. rewrite lookup_insert_eq.
  cbn [strict_eq andb]. unfold deriveRate. by rewrite E.
Qed.

Lemma deriveRate_after field num den f2 n2 d2 item :
  field <> f2 -> num <> f2 -> den <> f2 ->
  deriveRate field num den (deriveRate f2 n2 d2 item) =
  if strict_eq (get item field) Undefined
     && truthy (get item num) && truthy (get item den)
  then <[field := Num (rate item num den)]> (deriveRate f2 n2 d2 item)
  else deriveRate f2 n2 d2 item.
Proof.
  intros Hf Hn Hd. unfold deriveRate at 1.
  by rewrite !get_deriveRate_ne, rate_deriveRate.
Qed.

Lemma deriveRate_comm f1 n1 d1 f2 n2 d2 item :
  f1 <> f2 -> n1 <> f2 -> d1 <> f2 -> n2 <> f1 -> d2 <> f1 ->
  deriveRate f1 n1 d1 (deriveRate f2 n2 d2 item)
  = deriveRate f2 n2 d2 (deriveRate f1 n1 d1 item).
Proof.
  intros Hf Hn1 Hd1 Hn2 Hd2.
  rewrite (deriveRate_after f1), (deriveRate_after f2) by done.
  unfold deriveRate.
  destruct (strict_eq (get item f1) Undefined && truthy (get item n1)
            && truthy (get item d1));
    destruct (strict_eq (get item f2) Undefined && truthy (get item n2)
              && truthy (get item d2)); try done.
  by apply insert_insert_ne.
Qed.

Lemma deriveRates_idem item : deriveRates (deriveRates item) = deriveRates item.
Proof.
  unfold deriveRates.
  rewrite (deriveRate_comm "vacancyRate" _ _ "homeownershipRate") by done.
  by rewrite deriveRate_idem, deriveRate_idem.
Qed.

(** X22.  Deriving the rates is idempotent: running the loop of
    [loadEconomicData] over records it has already been run over changes
    nothing, since a rate it has stored is no longer [undefined] and the
    two rates do not read each other. *)
Theorem deriving_rates_twice_changes_nothing ed :
  deriveAll (deriveAll ed) = deriveAll ed.
Proof.
  unfold deriveAll. cbn [ed_states ed_counties ed_cbsas].
  rewrite <- !map_fmap_compose.
  f_equal; apply map_fmap_ext; intros k item _; apply deriveRates_idem.
Qed.

(** X23.  On a record that has neither a [vacancyRate] nor a
    [homeownershipRate] property, [calculateDerivedRates] of the class
    based variant and the loop of the script compute the same record: the
    two differ only on records that already carry one of the rates. *)
Theorem class_variant_agrees_without_supplied_rates item :
  item !! "vacancyRate"%string = None ->
  item !! "homeownershipRate"%string = None ->
  ClassVariant.calculateDerivedRates item = deriveRates item.
Proof.
  intros Hv Hh.
  unfold ClassVariant.calculateDerivedRates, deriveRates.
  assert (E1 : ClassVariant.assignRate "vacancyRate" "vacantUnits"
                 "totalHousingUnits" item
               = deriveRate "vacancyRate" "vacantUnits" "totalHousingUnits" item).
  { unfold ClassVariant.assignRate, deriveRate.
    by rewrite (get_None _ _ Hv). }
  rewrite E1.
  assert (E2 : get (deriveRate "vacancyRate" "vacantUnits" "totalHousingUnits"
                      item) "homeownershipRate" = Undefined).
  { rewrite get_deriveRate_ne by done. by apply get_None. }
  set (derived := deriveRate "vacancyRate" "vacantUnits" "totalHousingUnits"
                    item) in *.
  unfold ClassVariant.assignRate, deriveRate. by rewrite E2.
Qed.

Lemma round_tenth_percentage (x : Q) :
  (0 <= x)%Q -> (x <= 100)%Q ->
  (0 <= round_tenth x)%Q /\ (round_tenth x <= 100)%Q.
Proof.
  intros H0 H100.
  destruct (round_tenth_tenths x) as (z & Hz).
  pose proof (round_tenth_close x) as Hc.
  apply Qabs_Qle_condition in Hc as [Hc1 Hc2].
  assert (Hz0 : (-1 < z)%Z).
  { rewrite Zlt_Qlt, <- Hz. change (inject_Z (-1)) with (-1)%Q. lra. }
  assert (Hz1 : (z < 1001)%Z).
  { rewrite Zlt_Qlt, <- Hz. change (inject_Z 1001) with 1001%Q. lra. }
  assert (Hq0 : (inject_Z 0 <= inject_Z z)%Q) by (rewrite <- Zle_Qle; lia).
  assert (Hq1 : (inject_Z z <= inject_Z 1000)%Q) by (rewrite <- Zle_Qle; lia).
  rewrite <- Hz in Hq0, Hq1.
  change (inject_Z 0) with 0%Q in Hq0. change (inject_Z 1000) with 1000%Q in Hq1.
  split; lra.
Qed.

(** X24.  A derived rate is a percentage: when the numerator count is
    not negative and does not exceed the (positive) denominator count, the
    number stored is finite and lies between 0 and 100, rounding
    included. *)
Theorem derived_rate_is_a_percentage item num den (a b : Q) :
  get item num = Num (Fin a) -> get item den = Num (Fin b) ->
  (0 <= a)%Q -> (a <= b)%Q -> (0 < b)%Q ->
  exists r, rate item num den = Fin r /\ (0 <= r)%Q /\ (r <= 100)%Q.
Proof.
  intros Ha Hb H0 Hab Hpos.
  rewrite (rate_finite _ _ _ _ _ Ha Hb) by lra.
  assert (Hx : (0 <= a / b * 100)%Q /\ (a / b * 100 <= 100)%Q).
  { assert (E : (a / b == a * / b)%Q) by reflexivity.
    assert (0 < / b)%Q by (by apply Qinv_lt_0_compat).
    assert (Hone : (b * / b == 1)%Q) by (field; lra).
    rewrite E. split; [nra|].
    assert (a * / b <= b * / b)%Q by nra. lra. }
  destruct Hx as [Hx0 Hx1].
  rewrite parseFloat_toFixed1_finite.
  - eexists. split; [reflexivity|]. by apply round_tenth_percentage.
  - rewrite Qabs_pos by done.
    apply Qle_lt_trans with 100%Q; [done | reflexivity].
Qed.

End DeriveMore.

Lemma class_variant_agrees_without_supplied_rates_witness :
  countsOnly !! "vacancyRate"%string = None /\
  countsOnly !! "homeownershipRate"%string = None /\
  @ClassVariant.calculateDerivedRates demoCoercions countsOnly
  = @deriveRates demoCoercions countsOnly /\
  @deriveRates demoCoercions countsOnly !! "vacancyRate"%string
  = Some (Num (Fin (123 # 10))).
Proof.
  split; [reflexivity|]. split; [reflexivity|]. split.
  - apply (@class_variant_agrees_without_supplied_rates demoCoercions countsOnly);
      reflexivity.
  - vm_compute. reflexivity.
Defined.

Lemma derived_rate_is_a_percentage_witness :
  get countsOnly "ownerOccupied" = Num (Fin 500) /\
  get countsOnly "occupiedUnits" = Num (Fin 877) /\
  (0 <= 500)%Q /\ (500 <= 877)%Q /\ (0 < 877)%Q /\
  exists r, @rate demoCoercions countsOnly "ownerOccupied" "occupiedUnits" = Fin r /\
            (0 <= r)%Q /\ (r <= 100)%Q.
Proof.
  split; [reflexivity|]. split; [reflexivity|].
  split; [discriminate|]. split; [discriminate|]. split; [reflexivity|].
  apply (@derived_rate_is_a_percentage demoCoercions countsOnly
           "ownerOccupied" "occupiedUnits" 500 877);
    [reflexivity | reflexivity | discriminate | discriminate | reflexivity].
Defined.

(** ** From the overlay document to the merged record *)

Section PipelineFacts.
Context `{Coercions}.

(** X25.  The aggregated loader and the merge compose as follows.  A
    region record whose cross-reference is truthy receives the properties
    of the last row of the document that is of the most recent period, of
    category All Residential, and whose key field has the string form of
    the record's cross-reference; where the row and the record have a
    property of the same name the row's value wins, every other property
    of the record is kept; a record no such row exists for is left as it
    is.  This holds for the three pairs of key field and cross-reference
    of the script (state code, county FIPS, metro table id). *)
Theorem merged_record_takes_latest_row keyField codeOf rows
    (dataset : gmap string obj) key item :
  dataset !! key = Some item -> truthy (codeOf item) = true ->
  let latest :=
    last (filter (retained keyField (latestPeriod rows)
                    (ToString (codeOf item))) rows) in
  mergeLevel codeOf (loadLatest keyField rows ∅) dataset !! key
  = Some (match latest with Some row => row ∪ item | None => item end) /\
  forall row merged,
    latest = Some row ->
    mergeLevel codeOf (loadLatest keyField rows ∅) dataset !! key = Some merged ->
    forall f, get merged f
              = match row !! f with Some v => v | None => get item f end.
Proof.
  intros Hitem Hcode latest.
  assert (E : mergeLevel codeOf (loadLatest keyField rows ∅) dataset !! key
              = Some (match latest with
                      | Some row => row ∪ item
                      | None => item
                      end)).
  { rewrite mergeLevel_lookup, Hitem. simpl. f_equal.
    unfold mergeRecord. rewrite Hcode. unfold loadLatest.
    rewrite storeStep_fold_lookup, lookup_empty. fold latest.
    by destruct latest. }
  split; [done|].
  intros row merged Hrow Hm f. rewrite E, Hrow in Hm. injection Hm as <-.
  destruct (row !! f) as [v|] eqn:Ef.
  - by apply get_union_Some.
  - by apply get_union_None.
Qed.

Lemma latestPeriod_null_or_truthy rows :
  latestPeriod rows = Null \/ truthy (latestPeriod rows) = true.
Proof.
  unfold latestPeriod.
  assert (G : forall l, (l = Null \/ truthy l = true) ->
                        foldl latestStep l rows = Null \/
                        truthy (foldl latestStep l rows) = true).
  { induction rows as [|row rows IH]; intros l Hl; [done|].
    simpl. apply IH. unfold latestStep.
    destruct (truthy (get row "PERIOD_END")) eqn:Et; [|done]. simpl.
    destruct (negb (truthy l) || gt (get row "PERIOD_END") l); [by right | done]. }
  apply G. by left.
Qed.

(** X26.  An aggregated loader never stores a row that has no
    [PERIOD_END] property, whatever the other rows are: the period it
    compares with is [null] or a truthy value, never [undefined].  A row
    found in the table after loading was there before, or is a row of the
    document with a period that passes the selection test under its
    key. *)
Theorem rows_without_period_never_stored keyField rows
    (table : gmap string obj) k row :
  loadLatest keyField rows table !! k = Some row ->
  table !! k = Some row \/
  (row ∈ rows /\ get row "PERIOD_END" <> Undefined /\
   retained keyField (latestPeriod rows) k row).
Proof.
  unfold loadLatest. rewrite storeStep_fold_lookup.
  destruct (last _) as [r|] eqn:El; [|by left].
  intros [= ->]. right.
  apply last_Some_elem_of, list_elem_of_filter in El as [Hret Hin].
  split; [done|]. split; [|done].
  destruct Hret as [Hsel _]. unfold selected in Hsel.
  apply andb_true_iff in Hsel as [Hsel _].
  apply andb_true_iff in Hsel as [Hsel _].
  intros Hu. rewrite Hu in Hsel.
  destruct (latestPeriod_null_or_truthy rows) as [E | E].
  - rewrite E in Hsel. discriminate.
  - destruct (latestPeriod rows); try discriminate.
Qed.

End PipelineFacts.

Lemma merged_record_takes_latest_row_witness :
  ed_states oneState !! "06"%string = Some california /\
  truthy (stateCode california) = true /\
  exists merged,
    @mergeLevel demoCoercions stateCode
      (@loadLatest demoCoercions "STATE_CODE"
         [allResidentialMay; allResidentialJune; texasJune] ∅)
      (ed_states oneState) !! "06"%string = Some merged /\
    get merged "MEDIAN_SALE_PRICE" = Num (Fin 800000) /\
    get merged "name" = Str "California".
Proof.
  pose proof (@merged_record_takes_latest_row demoCoercions "STATE_CODE"
                stateCode [allResidentialMay; allResidentialJune; texasJune]
                (ed_states oneState) "06" california eq_refl eq_refl)
    as [Elookup Hfields].
  split; [reflexivity|]. split; [reflexivity|].
  eexists. split; [exact Elookup|].
  split; [rewrite (Hfields allResidentialJune _ eq_refl Elookup)
         | rewrite (Hfields allResidentialJune _ eq_refl Elookup)];
    reflexivity.
Defined.

Lemma rows_without_period_never_stored_witness :
  @loadLatest demoCoercions "STATE_CODE" [allResidentialJune; undatedRow] ∅
    !! "CA"%string = Some allResidentialJune /\
  get allResidentialJune "PERIOD_END" <> Undefined.
Proof.
  assert (E : @loadLatest demoCoercions "STATE_CODE"
                [allResidentialJune; undatedRow] ∅ !! "CA"%string
              = Some allResidentialJune) by reflexivity.
  split; [exact E|].
  destruct (@rows_without_period_never_stored demoCoercions "STATE_CODE"
              [allResidentialJune; undatedRow] ∅ "CA" allResidentialJune E)
    as [Hold | (_ & Hperiod & _)]; [discriminate Hold | exact Hperiod].
Defined.

(** ** The class based variant paints every record *)

(** X27.  [applyChoropleth] of the class based variant enters a colour for
    every record of the dataset and paints a record in the dimmed colour
    when the record has no value for the metric and also when all the
    values of the metric are equal; this includes the case of a metric no
    record has a value for, where every region is dimmed and no notice is
    shown. *)
Theorem class_variant_paints_every_record cs
    (dataset : gmap string (gmap string Q)) metric key d :
  dataset !! key = Some d ->
  dom (ClassMap.choroplethColors cs dataset metric) = dom dataset /\
  (d !! metric = None ->
   ClassMap.choroplethColors cs dataset metric !! key = Some (dimmed cs)) /\
  ((forall x y, x ∈ allValuesOf dataset metric ->
                y ∈ allValuesOf dataset metric -> (x == y)%Q) ->
   ClassMap.choroplethColors cs dataset metric !! key = Some (dimmed cs)).
Proof.
  intros Hd. unfold ClassMap.choroplethColors. cbv zeta.
  split; [apply dom_fmap_L|].
  rewrite lookup_fmap, Hd. simpl. split.
  - by intros ->.
  - intros Heq. f_equal.
    destruct (d !! metric) as [v|] eqn:Ev; [|done].
    assert (Hne : allValuesOf dataset metric <> []).
    { pose proof (region_value_among_all dataset metric key d v Hd Ev) as Hin.
      intros E. rewrite E in Hin. by apply elem_of_nil in Hin. }
    destruct (all_equal_degenerate _ Hne Heq) as (mn & mx & Hb & Hdeg).
    apply bounds_Some in Hb as (_ & -> & ->).
    unfold ClassVariant.getColorForValue.
    destruct (length _ =? 0)%nat; [done|].
    assert (E : Qeq_bool (maxOf (allValuesOf dataset metric))
                         (minOf (allValuesOf dataset metric)) = true)
      by (apply Qeq_bool_iff; by symmetry).
    by rewrite E.
Qed.

Lemma class_variant_paints_every_record_witness :
  rankedStates !! "36"%string = Some {["totalPopulation"%string := 20000000%Q]} /\
  ClassMap.choroplethColors defaultSettings rankedStates "MEDIAN_SALE_PRICE"
    !! "36"%string = Some "#CCCCCC"%string /\
  ClassMap.choroplethColors defaultSettings rankedStates "totalPopulation"
    !! "36"%string = Some "#CCCCCC"%string.
Proof.
  pose proof (class_variant_paints_every_record defaultSettings rankedStates
                "MEDIAN_SALE_PRICE" "36" _ eq_refl) as (_ & Hnone & _).
  pose proof (class_variant_paints_every_record defaultSettings rankedStates
                "totalPopulation" "36" _ eq_refl) as (_ & _ & Hequal).
  split; [reflexivity|]. split.
  - apply Hnone. reflexivity.
  - apply Hequal. intros x y Hx Hy.
    vm_compute in Hx, Hy.
    apply list_elem_of_singleton in Hx, Hy. subst. reflexivity.
Defined.

(** ** The year shown beside the data *)

Lemma Math_max_finite (l : list Q) (m : Q) :
  exists m', foldl Years.number_max (Fin m) (Fin <$> l) = Fin m' /\
             (m' = m \/ m' ∈ l) /\ (m <= m')%Q /\
             forall x, x ∈ l -> (x <= m')%Q.
Proof.
  revert m. induction l as [|y l IH]; intros m.
  - exists m. split; [done|]. split; [by left|]. split; [lra|].
    intros x Hx. by apply elem_of_nil in Hx.
  - rewrite fmap_cons. cbn [foldl Years.number_max].
    destruct (Qle_bool m y) eqn:E.
    + apply Qle_bool_iff in E.
      destruct (IH y) as (m' & -> & Hmem & Hm & Hle). exists m'.
      split; [done|]. split.
      { right. destruct Hmem as [-> | Hmem]; [by left | by right]. }
      split; [lra|].
      intros x Hx. apply elem_of_cons in Hx as [-> | Hx]; [done | by apply Hle].
    + assert (y < m)%Q.
      { destruct (Qlt_le_dec y m) as [|Hc]; [done|].
        apply Qle_bool_iff in Hc. congruence. }
      destruct (IH m) as (m' & -> & Hmem & Hm & Hle). exists m'.
      split; [done|]. split.
      { destruct Hmem as [-> | Hmem]; [by left | right; by right]. }
      split; [done|].
      intros x Hx. apply elem_of_cons in Hx as [-> | Hx]; [lra | by apply Hle].
Qed.

Lemma numbersOf_elem (o : obj) n :
  n ∈ Years.numbersOf o <-> exists k, o !! k = Some (Num n).
Proof.
  unfold Years.numbersOf. rewrite list_elem_of_omap. split.
  - intros ([k v] & Hin & Hv). apply elem_of_map_to_list in Hin.
    simpl in Hv. destruct v; try discriminate. injection Hv as ->. by exists k.
  - intros (k & Hk). exists (k, Num n). split; [|done].
    by apply elem_of_map_to_list.
Qed.

Lemma finite_list (l : list number) :
  (forall n, n ∈ l -> exists q, n = Fin q) -> exists qs, l = Fin <$> qs.
Proof.
  induction l as [|n l IH]; intros Hall; [by exists []|].
  destruct (Hall n) as (q & ->); [by left|].
  destruct IH as (qs & ->); [intros n Hn; apply Hall; by right|].
  by exists (q :: qs).
Qed.

(** X28.  The year written beside the data is the greatest of the years
    the metadata give as numbers.  Entries that are not numbers (a range
    given as text) are skipped; the year shown is one of the numeric
    entries and no numeric entry exceeds it; without a numeric entry the
    year of the clock is shown.  The numbers of a JSON document are
    finite. *)
Theorem shown_year_is_latest_numeric_year (metadata : obj) currentYear :
  (forall k n, metadata !! k = Some (Num n) -> exists q, n = Fin q) ->
  ((forall k n, metadata !! k <> Some (Num n)) ->
   Years.maxYear metadata currentYear = currentYear) /\
  (forall k y, metadata !! k = Some (Num (Fin y)) ->
     exists m k',
       Years.maxYear metadata currentYear = Fin m /\ (y <= m)%Q /\
       metadata !! k' = Some (Num (Fin m))).
Proof.
  intros Hfin. split.
  - intros Hnone. unfold Years.maxYear.
    destruct (Years.numbersOf metadata) as [|n l] eqn:E; [done|].
    assert (Hin : n ∈ Years.numbersOf metadata) by (rewrite E; by left).
    apply numbersOf_elem in Hin as (k & Hk). by apply Hnone in Hk.
  - intros k y Hk. unfold Years.maxYear.
    assert (Hy : Fin y ∈ Years.numbersOf metadata)
      by (apply numbersOf_elem; by exists k).
    destruct (finite_list (Years.numbersOf metadata)) as (qs & Eqs).
    { intros n Hn. apply numbersOf_elem in Hn as (k0 & Hk0). by eapply Hfin. }
    rewrite Eqs in Hy. apply list_elem_of_fmap in Hy as (y' & [= <-] & Hy).
    destruct qs as [|q qs]; [by apply elem_of_nil in Hy|].
    assert (Hmem : forall x, x ∈ q :: qs ->
                             exists k', metadata !! k' = Some (Num (Fin x))).
    { intros x Hx. apply numbersOf_elem. rewrite Eqs.
      apply list_elem_of_fmap. by exists x. }
    rewrite Eqs. unfold Years.Math_max. rewrite fmap_cons.
    cbn [length Nat.ltb Nat.leb foldl Years.number_max].
    destruct (Math_max_finite qs q) as (m & Em & Hm & Hq & Hle).
    rewrite Em.
    assert (Hmin : m ∈ q :: qs)
      by (destruct Hm as [-> | Hm]; [by left | by right]).
    destruct (Hmem m Hmin) as (k' & Hk').
    exists m, k'. split; [done|]. split; [|done].
    apply elem_of_cons in Hy as [-> | Hy]; [done | by apply Hle].
Qed.

Lemma shown_year_is_latest_numeric_year_witness :
  (forall k n, yearsUsed !! k = Some (Num n) -> exists q, n = Fin q) /\
  yearsUsed !! "gdp"%string = Some (Num (Fin 2022)) /\
  exists m k',
    Years.maxYear yearsUsed (Fin 2026) = Fin m /\ (2022 <= m)%Q /\
    yearsUsed !! k' = Some (Num (Fin m)).
Proof.
  assert (Hfin : forall k n, yearsUsed !! k = Some (Num n) -> exists q, n = Fin q).
  { intros k n Hk. unfold yearsUsed, record in Hk.
    apply elem_of_list_to_map_2 in Hk.
    repeat (apply elem_of_cons in Hk as [Hk | Hk];
            [first [discriminate Hk | injection Hk as _ ->; by eexists]|]).
    by apply elem_of_nil in Hk. }
  pose proof (shown_year_is_latest_numeric_year yearsUsed (Fin 2026) Hfin)
    as [_ Hmax].
  split; [exact Hfin|]. split; [reflexivity|].
  exact (Hmax "gdp"%string 2022%Q eq_refl).
Defined.
